(** * hono-sanitizer: the traversal and policy-resolution engine

    A shallow embedding of [src/utils] (the file that defines
    [shouldSanitizeField], [getFieldConfig], [sanitizeString],
    [shouldSkipField], [applyCustomSanitizer], [sanitizeStringValue],
    [sanitizeArrayValue], [sanitizeObjectValue], [sanitizeValue] and
    [sanitizeTarget]) together with the types of [src/types], followed by
    the properties of the specification that are checked against it.

    Conventions of the embedding.
    - JavaScript strings are [string]; the only operations the engine uses on
      field paths are [===], [startsWith], [split(".")] and [join(".")].
    - The mutable traversal context ([ctx.path], [ctx.currentDepth]) is
      threaded explicitly through a small state/exception/trace monad.
    - The three observers are optional in the source ([onSkip?.(...)]);
      the configuration records whether each one is installed and every
      call that reaches an installed observer is appended to a trace.
      Observers are taken to return normally, and so is [next] in the
      middleware: every property below is a property of runs in which they
      do.
    - [DOMPurify.sanitize] is an external capability: a section variable.
    - Custom functions may return or throw anything; a thrown value that
      [String()] cannot convert makes the [catch] block itself throw, and
      this is modelled. *)

From stdpp Require Import gmap strings list pretty.
From Stdlib Require Import ZArith Ascii.

(** ** JavaScript strings: the four operations used on field paths *)

Module JSString.

(** [a === b] on strings. *)
Definition eqb (a b : string) : bool := String.eqb a b.

(** [s.startsWith(p)]. *)
Definition startsWith (s p : string) : bool := String.prefix p s.

(** [parts.join(sep)]. *)
Definition join (sep : string) (parts : list string) : string :=
  String.concat sep parts.

(** [s.split(c)] for a one-character separator: never the empty list. *)
Fixpoint split (sep : ascii) (s : string) : list string :=
  match s with
  | EmptyString => [EmptyString]
  | String c rest =>
      if Ascii.eqb c sep then EmptyString :: split sep rest
      else match split sep rest with
           | [] => [String c EmptyString]
           | seg :: segs => String c seg :: segs
           end
  end.

(** Whether the character [c] occurs in [s]. *)
Fixpoint has_char (c : ascii) (s : string) : bool :=
  match s with
  | EmptyString => false
  | String d rest => Ascii.eqb d c || has_char c rest
  end.

End JSString.

Definition dot : ascii := "."%char.

(** ** Data model ([src/types]) *)

(** The JSON-like values the walker receives.  [VObj] is a plain object
    whose prototype is [Object.prototype], given by its own enumerable
    properties in [Object.entries] order (each key occurs once; a key
    ["__proto__"] is an own data property, as [JSON.parse] creates it).  A
    number is carried by the text [String(n)] gives for it, a non-plain
    object (a [Date], a [Map]: anything whose [Object.prototype.toString]
    tag is not [[object Object]]) by the text of its string conversion: the
    engine never looks further into either.  No value is callable. *)
#[warnings="-register-all"] Inductive jsvalue : Type :=
| VUndefined
| VNull
| VBool (b : bool)
| VNum (repr : string)
| VStr (s : string)
| VArr (items : list jsvalue)
| VObj (entries : list (string * jsvalue))
| VOther (repr : string).

(** [typeof value === "string"], [Array.isArray(value)], [isPlainObject(value)]. *)
Definition isString (value : jsvalue) : bool :=
  match value with VStr _ => true | _ => false end.

Definition isArray (value : jsvalue) : bool :=
  match value with VArr _ => true | _ => false end.

Definition isPlainObject (value : jsvalue) : bool :=
  match value with VObj _ => true | _ => false end.

(** The text [String(value)] returns, when it returns (see [convertible]
    below); inside [Array.prototype.join] the elements [null] and
    [undefined] contribute the empty string instead. *)
Fixpoint toString (value : jsvalue) : string :=
  match value with
  | VUndefined => "undefined"
  | VNull => "null"
  | VBool true => "true"
  | VBool false => "false"
  | VNum repr => repr
  | VStr s => s
  | VArr items =>
      JSString.join ","
        (map (fun item => match item with
                          | VUndefined | VNull => ""
                          | _ => toString item
                          end) items)
  | VObj _ => "[object Object]"
  | VOther repr => repr
  end.

Definition join_element (item : jsvalue) : string :=
  match item with
  | VUndefined | VNull => ""
  | _ => toString item
  end.

(** The text [value.join(sep)] returns on an array, when it returns. *)
Definition array_join (sep : string) (items : list jsvalue) : string :=
  JSString.join sep (map join_element items).

(** Whether an object has an own property [key]. *)
Definition has_key (key : string) (entries : list (string * jsvalue)) : bool :=
  existsb (fun e => String.eqb e.1 key) entries.

(** Whether [String(value)] returns.  A plain object is converted by the
    [toString] method it finds: [Object.prototype.toString], which returns
    ["[object Object]"], unless the object has an own property of that name.
    Such a property is not callable, so the conversion falls back on
    [valueOf], and neither an own, non-callable [valueOf] nor
    [Object.prototype.valueOf], which returns the object itself, yields a
    primitive: a [TypeError] is thrown.  An array is converted by joining
    its elements, which converts each of them. *)
Fixpoint convertible (value : jsvalue) : bool :=
  match value with
  | VArr items => forallb convertible items
  | VObj entries => negb (has_key "toString" entries)
  | _ => true
  end.

Record DOMPurifyConfig := {
  ALLOWED_TAGS : option (list string);
  ALLOWED_ATTR : option (list string);
  ALLOW_DATA_ATTR : option bool;
  FORBID_TAGS : option (list string);
  FORBID_ATTR : option (list string);
  ALLOW_ARIA_ATTR : option bool;
  ALLOW_UNKNOWN_PROTOCOLS : option bool;
  SAFE_FOR_TEMPLATES : option bool;
  WHOLE_DOCUMENT : option bool;
  RETURN_DOM : option bool;
  RETURN_DOM_FRAGMENT : option bool;
  RETURN_TRUSTED_TYPE : option bool;
  FORCE_BODY : option bool;
  SANITIZE_DOM : option bool;
  KEEP_CONTENT : option bool;
  IN_PLACE : option bool;
  USE_PROFILES : option (option bool * option bool * option bool * option bool)
}.

(** The object literal [{}]. *)
Definition empty_config : DOMPurifyConfig :=
  Build_DOMPurifyConfig None None None None None None None None None
                        None None None None None None None None.

(** The object literal [{ ALLOWED_TAGS: [], ALLOWED_ATTR: [] }]. *)
Definition strip_all_config : DOMPurifyConfig :=
  Build_DOMPurifyConfig (Some []) (Some []) None None None None None None None
                        None None None None None None None None.

Inductive SanitizationMode := strict | html | skip | custom.

Inductive ArrayStrategy := arrays_skip | arrays_each | arrays_join.

Definition mode_eqb (a b : SanitizationMode) : bool :=
  match a, b with
  | strict, strict | html, html | skip, skip | custom, custom => true
  | _, _ => false
  end.

(** What a [throw] carries: an [Error] with its message, or any other value. *)
Inductive thrown :=
| ThrownError (message : string)
| ThrownValue (v : jsvalue).

Inductive completion (A : Type) :=
| Normal (a : A)
| Throw (t : thrown).
Arguments Normal {A} a.
Arguments Throw {A} t.

(** The [TypeError] of a failed conversion to a primitive (an [Error]; the
    message is V8's). *)
Definition TypeError_primitive : thrown :=
  ThrownError "Cannot convert object to primitive value".

(** [String(value)] and [value.join(sep)] as calls: they return a text or
    throw. *)
Definition js_String (value : jsvalue) : completion string :=
  if convertible value then Normal (toString value) else Throw TypeError_primitive.

Definition js_join (sep : string) (items : list jsvalue) : completion string :=
  if forallb convertible items then Normal (array_join sep items)
  else Throw TypeError_primitive.

(** What [catch (error)] can turn into an [Error]: an [Error], or a value
    [String()] converts. *)
Definition catchable (t : thrown) : bool :=
  match t with
  | ThrownError _ => true
  | ThrownValue v => convertible v
  end.

Record FieldConfig := {
  fc_mode : SanitizationMode;
  fc_config : option DOMPurifyConfig;
  fc_sanitizer : option (jsvalue -> completion jsvalue)
}.

(** [SanitizationContext["options"]], without [targets] (read by the
    middleware only).  [maxDepth] is compared with an integer counter, so an
    integer bound loses nothing.  [onSanitize], [onSkip] and [onError] tell
    whether the observer is installed. *)
Record options := {
  mode : SanitizationMode;
  whitelist : option (list string);
  blacklist : option (list string);
  fields : option (gmap string FieldConfig);
  deep : bool;
  maxDepth : Z;
  arrays : ArrayStrategy;
  config : option DOMPurifyConfig;
  onSanitize : bool;
  onSkip : bool;
  onError : bool;
  throwOnError : bool
}.

Record SanitizationContext := {
  ctx_options : options;
  currentDepth : Z;
  path : list string
}.

(** [DEFAULT_OPTIONS] of [src/constants], with the optional members absent. *)
Definition DEFAULT_OPTIONS : options :=
  {| mode := strict; whitelist := None; blacklist := None; fields := None;
     deep := true; maxDepth := 10; arrays := arrays_each; config := None;
     onSanitize := false; onSkip := false; onError := false;
     throwOnError := false |}.

(** ** Policy resolver *)

(** The predicate of both [some] calls:
    [fieldPath === pattern || fieldPath.startsWith(`${pattern}.`)]. *)
Definition matches_pattern (fieldPath pattern : string) : bool :=
  JSString.eqb fieldPath pattern || JSString.startsWith fieldPath (pattern +:+ ".").

(** [list && list.length > 0]. *)
Definition non_empty (l : option (list string)) : bool :=
  match l with
  | Some (_ :: _) => true
  | _ => false
  end.

Definition entries_of (l : option (list string)) : list string :=
  match l with
  | Some patterns => patterns
  | None => []
  end.

Definition shouldSanitizeField (fieldPath : string) (opts : options) : bool :=
  if non_empty (whitelist opts) then
    existsb (matches_pattern fieldPath) (entries_of (whitelist opts))
  else if non_empty (blacklist opts) then
    negb (existsb (matches_pattern fieldPath) (entries_of (blacklist opts)))
  else true.

(** The loop [for (let i = parts.length - 1; i > 0; i--)] of
    [getFieldConfig], entered with [i]: the parent path is
    [parts.slice(0, i).join(".")]. *)
Fixpoint parent_lookup (fs : gmap string FieldConfig) (parts : list string)
    (i : nat) : option FieldConfig :=
  match i with
  | O => None
  | S j =>
      match fs !! JSString.join "." (take i parts) with
      | Some fc => Some fc
      | None => parent_lookup fs parts j
      end
  end.

(** The mapping [options.fields] is read by its own keys.  (A path that
    names a property inherited from [Object.prototype] makes the source
    return that property, an object without [mode], [config] or [sanitizer],
    which every use in [sanitizeValue] treats like an absent entry.) *)
Definition getFieldConfig (fieldPath : string) (opts : options) : option FieldConfig :=
  match fields opts with
  | None => None
  | Some fs =>
      match fs !! fieldPath with
      | Some fc => Some fc
      | None =>
          let parts := JSString.split dot fieldPath in
          parent_lookup fs parts (length parts - 1)
      end
  end.

(** [fieldConfig?.mode === "skip"]. *)
Definition is_skip (fieldConfig : option FieldConfig) : bool :=
  match fieldConfig with
  | Some fc => mode_eqb (fc_mode fc) skip
  | None => false
  end.

(** [fieldConfig?.mode === "custom" && fieldConfig.sanitizer]: the function
    to apply, when the test succeeds. *)
Definition custom_sanitizer (fieldConfig : option FieldConfig)
    : option (jsvalue -> completion jsvalue) :=
  match fieldConfig with
  | Some fc => if mode_eqb (fc_mode fc) custom then fc_sanitizer fc else None
  | None => None
  end.

(** [fieldConfig?.mode || ctx.options.mode]. *)
Definition resolved_mode (fieldConfig : option FieldConfig) (opts : options)
    : SanitizationMode :=
  match fieldConfig with
  | Some fc => fc_mode fc
  | None => mode opts
  end.

(** [fieldConfig?.config || ctx.options.config]. *)
Definition resolved_config (fieldConfig : option FieldConfig) (opts : options)
    : option DOMPurifyConfig :=
  match fieldConfig with
  | Some {| fc_config := Some c |} => Some c
  | _ => config opts
  end.

(** ** Observers and the traversal monad *)

(** The second argument an [onSkip] call receives: a node's value, or the
    array [ctx.path] itself. *)
Inductive skip_argument :=
| SkipValue (value : jsvalue)
| SkipCtxPath (segments : list string).

(** One call of an installed observer. *)
Inductive event :=
| EvSanitize (field : string) (original sanitized : jsvalue)
| EvSkip (field : string) (arg : skip_argument)
| EvError (message : string) (field : string).

(** A computation over the mutable context: it ends normally or by a
    [throw], leaves a context behind, and appends observer calls. *)
Definition M (A : Type) : Type :=
  SanitizationContext -> completion A * SanitizationContext * list event.

Definition ret {A} (a : A) : M A := fun ctx => (Normal a, ctx, []).

Definition throw {A} (t : thrown) : M A := fun ctx => (Throw t, ctx, []).

Definition bind {A B} (m : M A) (k : A -> M B) : M B := fun ctx =>
  match m ctx with
  | (Normal a, ctx1, tr1) =>
      match k a ctx1 with
      | (r, ctx2, tr2) => (r, ctx2, tr1 ++ tr2)
      end
  | (Throw t, ctx1, tr1) => (Throw t, ctx1, tr1)
  end.

(** [try { m } catch (error) { handler(error) }]. *)
Definition try_catch {A} (m : M A) (handler : thrown -> M A) : M A := fun ctx =>
  match m ctx with
  | (Normal a, ctx1, tr1) => (Normal a, ctx1, tr1)
  | (Throw t, ctx1, tr1) =>
      match handler t ctx1 with
      | (r, ctx2, tr2) => (r, ctx2, tr1 ++ tr2)
      end
  end.

Definition get_ctx : M SanitizationContext := fun ctx => (Normal ctx, ctx, []).

(** [observer?.(...)]: the call happens when the observer is installed. *)
Definition notify (installed : bool) (e : event) : M unit := fun ctx =>
  (Normal tt, ctx, if installed then [e] else []).

(** [ctx.path.push(segment)], [ctx.path.pop()]. *)
Definition path_push (segment : string) : M unit := fun ctx =>
  (Normal tt,
   {| ctx_options := ctx_options ctx; currentDepth := currentDepth ctx;
      path := path ctx ++ [segment] |}, []).

Definition path_pop : M unit := fun ctx =>
  (Normal tt,
   {| ctx_options := ctx_options ctx; currentDepth := currentDepth ctx;
      path := removelast (path ctx) |}, []).

(** [ctx.currentDepth++], [ctx.currentDepth--]. *)
Definition depth_incr : M unit := fun ctx =>
  (Normal tt,
   {| ctx_options := ctx_options ctx; currentDepth := (currentDepth ctx + 1)%Z;
      path := path ctx |}, []).

Definition depth_decr : M unit := fun ctx =>
  (Normal tt,
   {| ctx_options := ctx_options ctx; currentDepth := (currentDepth ctx - 1)%Z;
      path := path ctx |}, []).

Declare Scope sanitizer_scope.
Delimit Scope sanitizer_scope with san.
Notation "x <- m ;; k" := (bind m (fun x => k))
  (at level 100, m at next level, right associativity) : sanitizer_scope.
Notation "m ;;; k" := (bind m (fun _ => k))
  (at level 100, right associativity) : sanitizer_scope.

(** ** The engine ([src/utils]) *)

Section Engine.

Local Open Scope sanitizer_scope.

(** [DOMPurify.sanitize(value, config)]. *)
Variable purify : string -> DOMPurifyConfig -> string.

Definition sanitizeString (value : string) (mode : SanitizationMode)
    (config : option DOMPurifyConfig) : string :=
  match mode with
  | strict => purify value strip_all_config
  | html => purify value (match config with Some c => c | None => empty_config end)
  | skip | custom => value
  end.

Definition shouldSkipField (fieldPath : string) (fieldConfig : option FieldConfig)
    : M bool :=
  ctx <- get_ctx ;;
  if negb (shouldSanitizeField fieldPath (ctx_options ctx)) then
    (notify (onSkip (ctx_options ctx)) (EvSkip fieldPath (SkipCtxPath (path ctx))) ;;;
     ret true)
  else if is_skip fieldConfig then
    (notify (onSkip (ctx_options ctx)) (EvSkip fieldPath (SkipCtxPath (path ctx))) ;;;
     ret true)
  else ret false.

(** A call of a caller-supplied function: it returns or throws. *)
Definition call (sanitizer : jsvalue -> completion jsvalue) (value : jsvalue)
    : M jsvalue :=
  fun ctx => (sanitizer value, ctx, []).

(** A call of a built-in that returns or throws and touches nothing else. *)
Definition builtin {A} (outcome : completion A) : M A :=
  fun ctx => (outcome, ctx, []).

Definition applyCustomSanitizer (value : jsvalue) (fieldPath : string)
    (sanitizer : jsvalue -> completion jsvalue) : M jsvalue :=
  sanitized <- call sanitizer value ;;
  ctx <- get_ctx ;;
  (notify (onSanitize (ctx_options ctx)) (EvSanitize fieldPath value sanitized) ;;;
   ret sanitized).

Definition sanitizeStringValue (value : string) (fieldPath : string)
    (mode : SanitizationMode) (config : option DOMPurifyConfig) : M string :=
  let sanitized := sanitizeString value mode config in
  ctx <- get_ctx ;;
  ((if negb (JSString.eqb sanitized value) then
      notify (onSanitize (ctx_options ctx))
             (EvSanitize fieldPath (VStr value) (VStr sanitized))
    else ret tt) ;;;
   ret sanitized).

(** The callback of [value.map((item, index) => ...)], element by element. *)
Definition each_item (rec : jsvalue -> M jsvalue)
    : list jsvalue -> nat -> M (list jsvalue) :=
  fix loop items index :=
    match items with
    | [] => ret []
    | item :: rest =>
        (path_push (pretty index) ;;;
         sanitized <- rec item ;;
         (path_pop ;;;
          others <- loop rest (S index) ;;
          ret (sanitized :: others)))
    end.

Definition sanitizeArrayValue (rec : jsvalue -> M jsvalue) (value : list jsvalue)
    (fieldPath : string) (mode : SanitizationMode)
    (config : option DOMPurifyConfig) : M jsvalue :=
  ctx <- get_ctx ;;
  match arrays (ctx_options ctx) with
  | arrays_skip =>
      (notify (onSkip (ctx_options ctx)) (EvSkip fieldPath (SkipValue (VArr value))) ;;;
       ret (VArr value))
  | arrays_join =>
      joined <- builtin (js_join " " value) ;;
      let sanitized := sanitizeString joined mode config in
      (notify (onSanitize (ctx_options ctx))
              (EvSanitize fieldPath (VArr value) (VStr sanitized)) ;;;
       ret (VStr sanitized))
  | arrays_each =>
      items <- each_item rec value 0%nat ;;
      ret (VArr items)
  end.

(** [sanitized[key] = v] on an object that started as the literal [{}].
    The keys arrive distinct and in [Object.entries] order, so the
    assignment appends an own property; except for the key ["__proto__"],
    which [{}] inherits from [Object.prototype] as an accessor: the
    assignment calls its setter (which replaces the prototype of
    [sanitized] when [v] is an object or [null], and does nothing otherwise)
    and creates no own property.  The prototype of a result is not
    represented: [Object.entries], [JSON.stringify] and the type tests of
    the engine read own properties only. *)
Definition set_property (sanitized : list (string * jsvalue)) (key : string)
    (v : jsvalue) : list (string * jsvalue) :=
  if String.eqb key "__proto__" then sanitized else sanitized ++ [(key, v)].

(** The loop [for (const [key, val] of Object.entries(value))]. *)
Definition each_entry (rec : jsvalue -> M jsvalue)
    : list (string * jsvalue) -> list (string * jsvalue) -> M (list (string * jsvalue)) :=
  fix loop entries sanitized :=
    match entries with
    | [] => ret sanitized
    | (key, val) :: rest =>
        (path_push key ;;;
         (depth_incr ;;;
          v <- rec val ;;
          (depth_decr ;;;
           (path_pop ;;;
            loop rest (set_property sanitized key v)))))
    end.

Definition depth_error (opts : options) (fieldPath : string) : string :=
  "Maximum recursion depth (" +:+ pretty (maxDepth opts)
    +:+ ") exceeded at path: " +:+ fieldPath.

Definition sanitizeObjectValue (rec : jsvalue -> M jsvalue)
    (value : list (string * jsvalue)) (fieldPath : string) : M jsvalue :=
  ctx <- get_ctx ;;
  if (currentDepth ctx >=? maxDepth (ctx_options ctx))%Z then
    let error := depth_error (ctx_options ctx) fieldPath in
    if throwOnError (ctx_options ctx) then throw (ThrownError error)
    else
      (notify (onError (ctx_options ctx)) (EvError error fieldPath) ;;;
       ret (VObj value))
  else
    sanitized <- each_entry rec value [] ;;
    ret (VObj sanitized).


(** [error instanceof Error ? error : new Error(String(error))] as an
    expression: it gives an [Error], by its message, or throws what
    [String(error)] throws. *)
Definition as_Error (error : thrown) : completion string :=
  match error with
  | ThrownError message => Normal message
  | ThrownValue v => js_String v
  end.

(** The [catch (error)] block of [sanitizeValue]. *)
Definition handle_error (value : jsvalue) (fieldPath : string) (opts : options)
    (error : thrown) : M jsvalue :=
  err <- builtin (as_Error error) ;;
  if throwOnError opts then throw (ThrownError err)
  else
    (notify (onError opts) (EvError err fieldPath) ;;;
     ret value).

(** One activation of [sanitizeValue]; [rec] stands for the recursive
    calls made from [sanitizeArrayValue] and [sanitizeObjectValue]. *)
Definition sanitizeValue_body (rec : jsvalue -> M jsvalue) (value : jsvalue)
    : M jsvalue :=
  ctx <- get_ctx ;;
  let fieldPath := JSString.join "." (path ctx) in
  try_catch
    (let fieldConfig := getFieldConfig fieldPath (ctx_options ctx) in
     skipped <- shouldSkipField fieldPath fieldConfig ;;
     if skipped : bool then ret value
     else
       match custom_sanitizer fieldConfig with
       | Some sanitizer => applyCustomSanitizer value fieldPath sanitizer
       | None =>
           let mode := resolved_mode fieldConfig (ctx_options ctx) in
           let config := resolved_config fieldConfig (ctx_options ctx) in
           match value with
           | VStr s =>
               sanitized <- sanitizeStringValue s fieldPath mode config ;;
               ret (VStr sanitized)
           | VArr items => sanitizeArrayValue rec items fieldPath mode config
           | VObj entries =>
               if deep (ctx_options ctx)
               then sanitizeObjectValue rec entries fieldPath
               else ret value
           | _ => ret value
           end
       end)
    (handle_error value fieldPath (ctx_options ctx)).

Fixpoint sanitizeValue (value : jsvalue) : M jsvalue :=
  sanitizeValue_body sanitizeValue value.

(** The loop of [sanitizeTarget] over [Object.entries(target)]. *)
Fixpoint target_entries (entries sanitized : list (string * jsvalue))
    : M (list (string * jsvalue)) :=
  match entries with
  | [] => ret sanitized
  | (key, value) :: rest =>
      (path_push key ;;;
       v <- sanitizeValue value ;;
       (path_pop ;;;
        target_entries rest (set_property sanitized key v)))
  end.

(** [sanitizeTarget]: a fresh context, then every top-level key.  The
    promise it returns is fulfilled with the result or rejected with the
    error thrown. *)
Definition sanitizeTarget (target : list (string * jsvalue)) (opts : options)
    : completion (list (string * jsvalue)) * list event :=
  let ctx := {| ctx_options := opts; currentDepth := 0; path := [] |} in
  match target_entries target [] ctx with
  | (r, _, tr) => (r, tr)
  end.

End Engine.

(** ** Vocabulary of the statements *)

(** The field path of the node a context points at. *)
Definition fieldPath_of (ctx : SanitizationContext) : string :=
  JSString.join "." (path ctx).

(** The calls [observer?.(...)] makes. *)
Definition calls (installed : bool) (e : event) : list event :=
  if installed then [e] else [].

(** An observer call that is an [onSkip] call. *)
Definition is_skip_call (e : event) : Prop :=
  exists field arg, e = EvSkip field arg.

(** What a run of the walker returned, and the observer calls it made. *)
Definition result_value (r : completion jsvalue * SanitizationContext * list event)
    : jsvalue :=
  match r with
  | (Normal v, _, _) => v
  | (Throw _, _, _) => VUndefined
  end.

Definition trace_of {A} (r : A * SanitizationContext * list event) : list event :=
  match r with
  | (_, _, tr) => tr
  end.

(** The context [sanitizeTarget] starts from. *)
Definition root_ctx (opts : options) : SanitizationContext :=
  {| ctx_options := opts; currentDepth := 0; path := [] |}.

(** The context in which the value of a top-level key is visited. *)
Definition target_child (opts : options) (key : string) : SanitizationContext :=
  {| ctx_options := opts; currentDepth := 0; path := [key] |}.

(** The contexts in which the values of an object's keys and the elements
    of an array are visited. *)
Definition object_child (ctx : SanitizationContext) (key : string) : SanitizationContext :=
  {| ctx_options := ctx_options ctx; currentDepth := (currentDepth ctx + 1)%Z;
     path := path ctx ++ [key] |}.

Definition array_child (ctx : SanitizationContext) (index : nat) : SanitizationContext :=
  {| ctx_options := ctx_options ctx; currentDepth := currentDepth ctx;
     path := path ctx ++ [pretty index] |}.

(** The field configuration, mode and allow-list settings resolved for the
    node a context points at. *)
Definition node_entry (ctx : SanitizationContext) : option FieldConfig :=
  getFieldConfig (fieldPath_of ctx) (ctx_options ctx).

Definition node_mode (ctx : SanitizationContext) : SanitizationMode :=
  resolved_mode (node_entry ctx) (ctx_options ctx).

Definition node_config (ctx : SanitizationContext) : option DOMPurifyConfig :=
  resolved_config (node_entry ctx) (ctx_options ctx).

(** [options.fields[p]] when [options.fields] is defined: the entry the
    mapping holds for the path [p]. *)
Definition field_entry (opts : options) (p : string) : option FieldConfig :=
  match fields opts with
  | Some fs => fs !! p
  | None => None
  end.

(** The node a context points at is in scope, its resolved field
    configuration is not [skip], and no custom function applies: the walker
    goes on to dispatch on the type of the value. *)
Definition walks (ctx : SanitizationContext) : Prop :=
  shouldSanitizeField (fieldPath_of ctx) (ctx_options ctx) = true
  /\ is_skip (node_entry ctx) = false
  /\ custom_sanitizer (node_entry ctx) = None.

(** Numbers, booleans, [null], [undefined], non-plain objects, and plain
    objects when deep traversal is off. *)
Definition passes_through (value : jsvalue) (opts : options) : bool :=
  match value with
  | VStr _ | VArr _ => false
  | VObj _ => negb (deep opts)
  | _ => true
  end.

(** The entries of an object that [sanitized[key] = ...] turns into own
    properties of the result: all but a key ["__proto__"]. *)
Definition own_entries (entries : list (string * jsvalue)) : list (string * jsvalue) :=
  List.filter (fun e => negb (String.eqb e.1 "__proto__")) entries.

(** Every custom function of the field configuration throws, when it
    throws, an [Error] or a value that [String()] converts: the [catch]
    block of [sanitizeValue] does not throw on its own account. *)
Definition throws_catchable (opts : options) : Prop :=
  forall p fc sanitizer value t,
    field_entry opts p = Some fc -> custom_sanitizer (Some fc) = Some sanitizer ->
    sanitizer value = Throw t -> catchable t = true.

(** The [catch] block of [sanitizeValue] either rethrows or never fails
    on its own account. *)
Definition safe (opts : options) : Prop :=
  throwOnError opts = true \/ throws_catchable opts.

(** The context discipline of a walker run started in [ctx]: a normal
    return leaves the context as it found it, and a [throw] can only escape
    when [throwOnError] is set. *)
Definition settled {A} (ctx : SanitizationContext)
    (r : completion A * SanitizationContext * list event) : Prop :=
  match r with
  | (Normal _, ctx', _) => ctx' = ctx
  | (Throw _, _, _) => throwOnError (ctx_options ctx) = true
  end.

(** The same for the [try] block of a call: what it throws with
    [throwOnError] off is thrown in the context of the call and is something
    the [catch] block can turn into an [Error]. *)
Definition guarded {A} (ctx : SanitizationContext)
    (r : completion A * SanitizationContext * list event) : Prop :=
  match r with
  | (Normal _, ctx', _) => ctx' = ctx
  | (Throw t, ctx', _) =>
      throwOnError (ctx_options ctx) = true \/ (ctx' = ctx /\ catchable t = true)
  end.

(** What sanitizing a child on its own, in the context it is visited in,
    returns and reports. *)
Definition entry_result purify (ctx : SanitizationContext) (e : string * jsvalue)
    : string * jsvalue :=
  (e.1, result_value (sanitizeValue purify e.2 (object_child ctx e.1))).

Definition entry_trace purify (ctx : SanitizationContext) (e : string * jsvalue)
    : list event :=
  trace_of (sanitizeValue purify e.2 (object_child ctx e.1)).

Definition item_result purify (ctx : SanitizationContext) (index : nat) (item : jsvalue)
    : jsvalue :=
  result_value (sanitizeValue purify item (array_child ctx index)).

Definition item_trace purify (ctx : SanitizationContext) (index : nat) (item : jsvalue)
    : list event :=
  trace_of (sanitizeValue purify item (array_child ctx index)).

Definition top_result purify (opts : options) (e : string * jsvalue)
    : string * jsvalue :=
  (e.1, result_value (sanitizeValue purify e.2 (target_child opts e.1))).

Definition top_trace purify (opts : options) (e : string * jsvalue) : list event :=
  trace_of (sanitizeValue purify e.2 (target_child opts e.1)).

(** ** Policy resolution as the specification words it

    "Look up [fields[path]] exact match first; if absent, walk ancestor
    paths from deepest to shallowest (split path on ".", progressively drop
    trailing segments) and use the first ancestor entry found in [fields]." *)

(** Dropping trailing segments one at a time, while some segment is left. *)
Fixpoint drop_trailing (fuel : nat) (parts : list string) : list (list string) :=
  match fuel with
  | O => []
  | S n =>
      match removelast parts with
      | [] => []
      | shorter => shorter :: drop_trailing n shorter
      end
  end.

(** The ancestor paths of [fieldPath], deepest first. *)
Definition spec_ancestors (fieldPath : string) : list string :=
  let parts := JSString.split dot fieldPath in
  map (JSString.join ".") (drop_trailing (length parts) parts).

(** The first candidate path that has an entry in the mapping. *)
Fixpoint first_entry (fs : gmap string FieldConfig) (candidates : list string)
    : option FieldConfig :=
  match candidates with
  | [] => None
  | candidate :: rest =>
      match fs !! candidate with
      | Some fc => Some fc
      | None => first_entry fs rest
      end
  end.

Definition spec_getFieldConfig (fieldPath : string) (opts : options)
    : option FieldConfig :=
  match fields opts with
  | None => None
  | Some fs => first_entry fs (fieldPath :: spec_ancestors fieldPath)
  end.

(** [ancestor] is a proper ancestor path of [fieldPath]: the field path
    continues it with a dot and further segments. *)
Definition is_ancestor (ancestor fieldPath : string) : Prop :=
  exists rest, fieldPath = ancestor +:+ "." +:+ rest.

(** ** Positions in a tree *)

(** One step down: into the value of a key, or into an array element. *)
Inductive step :=
| Key (key : string)
| Index (index : nat).



(** The path segment a step pushes. *)
Definition segment (s : step) : string :=
  match s with
  | Key key => key
  | Index index => pretty index
  end.

(** Depth: the number of nested-object boundaries crossed by [steps]. *)
Fixpoint nesting (steps : list step) : Z :=
  match steps with
  | [] => 0
  | Key _ :: rest => 1 + nesting rest
  | Index _ :: rest => nesting rest
  end.

Definition step_child (ctx : SanitizationContext) (s : step) : SanitizationContext :=
  match s with
  | Key key => object_child ctx key
  | Index index => array_child ctx index
  end.

(** The context in which the node at [steps] below the node of [ctx] is
    visited. *)
Fixpoint ctx_at (ctx : SanitizationContext) (steps : list step) : SanitizationContext :=
  match steps with
  | [] => ctx
  | s :: rest => ctx_at (step_child ctx s) rest
  end.



(** ** Calls made during a traversal *)

Definition returns_normally {A} (r : completion A * SanitizationContext * list event)
    : Prop :=
  exists a ctx tr, r = (Normal a, ctx, tr).

(** [invokes purify ctx v ctx' v']: while [sanitizeValue v] runs in [ctx],
    the call [sanitizeValue v'] is made in [ctx'].  A plain object below the
    depth bound calls [sanitizeValue] on the value of a key once the entries
    before it have returned; an array under the strategy [each] does so on
    an element once the elements before it have returned. *)
Inductive invokes purify
    : SanitizationContext -> jsvalue -> SanitizationContext -> jsvalue -> Prop :=
| invokes_here ctx v : invokes purify ctx v ctx v
| invokes_entry ctx before key child after ctx' v' :
    walks ctx -> deep (ctx_options ctx) = true ->
    (currentDepth ctx < maxDepth (ctx_options ctx))%Z ->
    Forall (fun e => returns_normally (sanitizeValue purify e.2 (object_child ctx e.1)))
           before ->
    invokes purify (object_child ctx key) child ctx' v' ->
    invokes purify ctx (VObj (before ++ (key, child) :: after)) ctx' v'
| invokes_item ctx before child after ctx' v' :
    walks ctx -> arrays (ctx_options ctx) = arrays_each ->
    (forall i item, before !! i = Some item ->
       returns_normally (sanitizeValue purify item (array_child ctx i))) ->
    invokes purify (array_child ctx (length before)) child ctx' v' ->
    invokes purify ctx (VArr (before ++ child :: after)) ctx' v'.

(** ** A stand-in for DOMPurify, used to run the engine on examples

    With an empty tag allow-list it removes everything between [<] and [>]
    and keeps the text; with any other configuration it returns its input. *)

Fixpoint strip_tags (inside : bool) (s : string) : string :=
  match s with
  | EmptyString => EmptyString
  | String c rest =>
      if inside then strip_tags (negb (Ascii.eqb c ">"%char)) rest
      else if Ascii.eqb c "<"%char then strip_tags true rest
      else String c (strip_tags false rest)
  end.

Definition demo_purify (s : string) (c : DOMPurifyConfig) : string :=
  match ALLOWED_TAGS c with
  | Some [] => strip_tags false s
  | _ => s
  end.

(** ** Configurations and inputs of the worked examples *)

(** [DEFAULT_OPTIONS] with the three observers installed. *)
Definition observed : options :=
  {| mode := strict; whitelist := None; blacklist := None; fields := None;
     deep := true; maxDepth := 10; arrays := arrays_each; config := None;
     onSanitize := true; onSkip := true; onError := true;
     throwOnError := false |}.

Definition set_mode (m : SanitizationMode) (opts : options) : options :=
  {| mode := m; whitelist := whitelist opts; blacklist := blacklist opts;
     fields := fields opts; deep := deep opts; maxDepth := maxDepth opts;
     arrays := arrays opts; config := config opts; onSanitize := onSanitize opts;
     onSkip := onSkip opts; onError := onError opts;
     throwOnError := throwOnError opts |}.

Definition set_whitelist (wl : option (list string)) (opts : options) : options :=
  {| mode := mode opts; whitelist := wl; blacklist := blacklist opts;
     fields := fields opts; deep := deep opts; maxDepth := maxDepth opts;
     arrays := arrays opts; config := config opts; onSanitize := onSanitize opts;
     onSkip := onSkip opts; onError := onError opts;
     throwOnError := throwOnError opts |}.

Definition set_blacklist (bl : option (list string)) (opts : options) : options :=
  {| mode := mode opts; whitelist := whitelist opts; blacklist := bl;
     fields := fields opts; deep := deep opts; maxDepth := maxDepth opts;
     arrays := arrays opts; config := config opts; onSanitize := onSanitize opts;
     onSkip := onSkip opts; onError := onError opts;
     throwOnError := throwOnError opts |}.

Definition set_fields (fs : gmap string FieldConfig) (opts : options) : options :=
  {| mode := mode opts; whitelist := whitelist opts; blacklist := blacklist opts;
     fields := Some fs; deep := deep opts; maxDepth := maxDepth opts;
     arrays := arrays opts; config := config opts; onSanitize := onSanitize opts;
     onSkip := onSkip opts; onError := onError opts;
     throwOnError := throwOnError opts |}.

Definition set_arrays (a : ArrayStrategy) (opts : options) : options :=
  {| mode := mode opts; whitelist := whitelist opts; blacklist := blacklist opts;
     fields := fields opts; deep := deep opts; maxDepth := maxDepth opts;
     arrays := a; config := config opts; onSanitize := onSanitize opts;
     onSkip := onSkip opts; onError := onError opts;
     throwOnError := throwOnError opts |}.

Definition set_maxDepth (d : Z) (opts : options) : options :=
  {| mode := mode opts; whitelist := whitelist opts; blacklist := blacklist opts;
     fields := fields opts; deep := deep opts; maxDepth := d;
     arrays := arrays opts; config := config opts; onSanitize := onSanitize opts;
     onSkip := onSkip opts; onError := onError opts;
     throwOnError := throwOnError opts |}.

Definition set_throwOnError (b : bool) (opts : options) : options :=
  {| mode := mode opts; whitelist := whitelist opts; blacklist := blacklist opts;
     fields := fields opts; deep := deep opts; maxDepth := maxDepth opts;
     arrays := arrays opts; config := config opts; onSanitize := onSanitize opts;
     onSkip := onSkip opts; onError := onError opts;
     throwOnError := b |}.

Definition whitelist_demo : options :=
  {| mode := strict; whitelist := Some ["message"]; blacklist := Some ["message"];
     fields := None; deep := true; maxDepth := 10; arrays := arrays_each;
     config := None; onSanitize := true; onSkip := true; onError := true;
     throwOnError := false |}.

Definition profile_entry : FieldConfig :=
  {| fc_mode := html; fc_config := None; fc_sanitizer := None |}.

Definition nested_fields : options :=
  {| mode := strict; whitelist := None; blacklist := None;
     fields := Some (<[ "user" := {| fc_mode := skip; fc_config := None;
                                      fc_sanitizer := None |} ]>
                     {[ "user.profile" := profile_entry ]});
     deep := true; maxDepth := 10; arrays := arrays_each; config := None;
     onSanitize := true; onSkip := true; onError := true;
     throwOnError := false |}.

(** [sanitizer({ blacklist: ["metadata"], onSkip })], the configuration of
    the test "should call onSkip when field is skipped". *)
Definition blacklist_demo : options := set_blacklist (Some ["metadata"]) observed.

(** [fields: { metadata: { mode: "skip" } }]. *)
Definition skip_entry : FieldConfig :=
  {| fc_mode := skip; fc_config := None; fc_sanitizer := None |}.

Definition field_skip_demo : options := set_fields {[ "metadata" := skip_entry ]} observed.

(** [mode: "skip"] as the global default. *)
Definition global_skip_demo : options := set_mode skip observed.

(** [fields: { pwd: { mode: "custom", sanitizer: v => v } }]: a custom
    function that returns its argument. *)
Definition identity_entry : FieldConfig :=
  {| fc_mode := custom; fc_config := None; fc_sanitizer := Some (fun v => Normal v) |}.

Definition custom_identity_demo : options :=
  set_fields {[ "pwd" := identity_entry ]} observed.

(** [fields: { price: { mode: "custom", sanitizer: () => "n/a" } }]. *)
Definition constant_entry : FieldConfig :=
  {| fc_mode := custom; fc_config := None;
     fc_sanitizer := Some (fun _ => Normal (VStr "n/a")) |}.

Definition custom_constant_demo : options :=
  set_fields {[ "price" := constant_entry ]} observed.

Definition join_demo : options := set_arrays arrays_join observed.

(** [whitelist: ["user.profile.bio"]]: a nested path only. *)
Definition nested_whitelist_demo : options :=
  set_whitelist (Some ["user.profile.bio"]) observed.

(** [sanitizer({ deep: true, maxDepth: 2, onError })], the configuration of
    the test "should respect maxDepth setting", and its input with a
    shallower sibling added. *)
Definition depth_demo : options := set_maxDepth 2 observed.

Definition level3 : list (string * jsvalue) := [("message", VStr "<b>deep</b>")].

Definition depth_target : list (string * jsvalue) :=
  [("level1", VObj [("level2", VObj [("level3", VObj level3)]);
                    ("note", VStr "<b>hi</b>")])].


(** [fields: { test: { mode: "custom", sanitizer: () => { throw new
    Error("Test error") } } }], the configuration of the error tests. *)
Definition throwing_entry : FieldConfig :=
  {| fc_mode := custom; fc_config := None;
     fc_sanitizer := Some (fun _ => Throw (ThrownError "Test error")) |}.

Definition throwing_demo : options :=
  set_fields {[ "test" := throwing_entry ]} observed.

(** [fields: { "user.test": { mode: "custom", sanitizer: () => { throw new
    Error("Test error") } } }, throwOnError: true]: the failing field is
    nested. *)
Definition nested_throwing_demo : options :=
  set_throwOnError true (set_fields {[ "user.test" := throwing_entry ]} observed).

Definition failure_target : list (string * jsvalue) :=
  [("name", VStr "<b>John</b>"); ("test", VStr "value"); ("bio", VStr "<i>hi</i>")].

(** ** Vocabulary of the further properties *)

(** The structure of a value with the text of its strings erased: keys,
    their order, array lengths and every non-string leaf are kept. *)
Fixpoint shape (v : jsvalue) : jsvalue :=
  match v with
  | VStr _ => VStr ""
  | VArr items => VArr (map shape items)
  | VObj entries => VObj (map (fun e => (e.1, shape e.2)) entries)
  | _ => v
  end.

(** No entry of the fields mapping carries a custom function that would be
    applied. *)
Definition no_custom_function (opts : options) : Prop :=
  forall p fc, field_entry opts p = Some fc -> custom_sanitizer (Some fc) = None.

(** An array nested in [n] one-element arrays. *)
Fixpoint nested_array (n : nat) (v : jsvalue) : jsvalue :=
  match n with
  | O => v
  | S m => VArr [nested_array m v]
  end.

(** An observer call that is an [onSanitize] call. *)
Definition is_sanitize_call (e : event) : Prop :=
  exists field original sanitized, e = EvSanitize field original sanitized.

(** An observer call that is an [onError] call. *)
Definition is_error_call (e : event) : Prop :=
  exists message field, e = EvError message field.



(** The walker, run on [v] in [ctx], hands [v] back and reports no change. *)
Definition stable purify (ctx : SanitizationContext) (v : jsvalue) : Prop :=
  exists tr,
    sanitizeValue purify v ctx = (Normal v, ctx, tr)
    /\ Forall (fun e => ~ is_sanitize_call e) tr.

(** No whitelist, no blacklist and no field configuration: every node is
    in scope and is dispatched on its type under the global mode. *)
Definition unrestricted (opts : options) : Prop :=
  non_empty (whitelist opts) = false /\ non_empty (blacklist opts) = false
  /\ fields opts = None.

(** [sanitizer({ deep: false })], with the observers installed. *)
Definition shallow_demo : options :=
  {| mode := strict; whitelist := None; blacklist := None; fields := None;
     deep := false; maxDepth := 10; arrays := arrays_each; config := None;
     onSanitize := true; onSkip := true; onError := true;
     throwOnError := false |}.

Definition skip_arrays_demo : options := set_arrays arrays_skip observed.

(** ** The middleware ([src/index]) *)

Inductive RequestTarget := Body | Query | Params | Headers.

#[global] Instance RequestTarget_eq_dec : EqDecision RequestTarget.
Proof. solve_decision. Defined.

Definition RequestTarget_eqb (a b : RequestTarget) : bool :=
  match a, b with
  | Body, Body | Query, Query | Params, Params | Headers, Headers => true
  | _, _ => false
  end.

(** [targets.includes(t)]. *)
Definition targets_include (targets : list RequestTarget) (t : RequestTarget) : bool :=
  existsb (RequestTarget_eqb t) targets.

(** [SanitizerOptions]: what the caller of [sanitizer] passes; every member
    may be absent.  The three observers are kept as installed-or-not. *)
Record SanitizerOptions := {
  o_targets : option (list RequestTarget);
  o_mode : option SanitizationMode;
  o_whitelist : option (list string);
  o_blacklist : option (list string);
  o_fields : option (gmap string FieldConfig);
  o_deep : option bool;
  o_maxDepth : option Z;
  o_arrays : option ArrayStrategy;
  o_config : option DOMPurifyConfig;
  o_onSanitize : bool;
  o_onSkip : bool;
  o_onError : bool;
  o_throwOnError : option bool
}.

(** [DEFAULT_OPTIONS.targets]. *)
Definition DEFAULT_TARGETS : list RequestTarget := [Body].

(** [{ ...DEFAULT_OPTIONS, ...options, targets: options.targets ||
    DEFAULT_OPTIONS.targets }]: the targets, and the members the engine
    reads. *)
Definition mergedTargets (o : SanitizerOptions) : list RequestTarget :=
  match o_targets o with
  | Some targets => targets
  | None => DEFAULT_TARGETS
  end.

Definition mergedOptions (o : SanitizerOptions) : options :=
  {| mode := default (mode DEFAULT_OPTIONS) (o_mode o);
     whitelist := o_whitelist o;
     blacklist := o_blacklist o;
     fields := o_fields o;
     deep := default (deep DEFAULT_OPTIONS) (o_deep o);
     maxDepth := default (maxDepth DEFAULT_OPTIONS) (o_maxDepth o);
     arrays := default (arrays DEFAULT_OPTIONS) (o_arrays o);
     config := o_config o;
     onSanitize := o_onSanitize o;
     onSkip := o_onSkip o;
     onError := o_onError o;
     throwOnError := default (throwOnError DEFAULT_OPTIONS) (o_throwOnError o) |}.

(** What the middleware reads from the framework's request object:
    [c.req.header("content-type")], the outcome of [await c.req.json()] (the
    parsed body, or what it throws), [c.req.query()], [c.req.param()] and the
    name/value pairs [c.req.raw.headers.forEach] enumerates (each name
    once). *)
Record request := {
  content_type : option string;
  json : completion jsvalue;
  req_query : list (string * string);
  req_param : list (string * string);
  raw_headers : list (string * string)
}.

(** What the middleware writes on the request object: the four
    [__sanitized...] members and the object whose JSON text the overridden
    [c.req.raw.clone] carries. *)
Record stored := {
  sanitizedBody : option (list (string * jsvalue));
  sanitizedQuery : option (list (string * jsvalue));
  sanitizedParams : option (list (string * jsvalue));
  sanitizedHeaders : option (list (string * jsvalue));
  cloneBody : option (list (string * jsvalue))
}.

(** A request object no sanitizer has written on. *)
Definition fresh : stored :=
  {| sanitizedBody := None; sanitizedQuery := None; sanitizedParams := None;
     sanitizedHeaders := None; cloneBody := None |}.

(** What the middleware does besides writing on the request: observer
    calls, [console.error], and the call of [next]. *)
Inductive effect :=
| Observer (e : event)
| ConsoleError (error : thrown)
| Next.

(** [s.includes(sub)]. *)
Fixpoint includes (s sub : string) : bool :=
  String.prefix sub s
  || match s with
     | EmptyString => false
     | String _ rest => includes rest sub
     end.

(** A record of strings as the target [sanitizeTarget] receives. *)
Definition as_target (entries : list (string * string)) : list (string * jsvalue) :=
  map (fun e => (e.1, VStr e.2)) entries.

(** One step of the [try] block: it ends normally or by a [throw], leaves
    the request object in some state, and has effects. *)
Definition phase : Type := stored -> completion unit * stored * list effect.

Definition and_then (p q : phase) : phase := fun st =>
  match p st with
  | (Normal _, st1, tr1) =>
      match q st1 with
      | (r, st2, tr2) => (r, st2, tr1 ++ tr2)
      end
  | (Throw t, st1, tr1) => (Throw t, st1, tr1)
  end.

Section Middleware.

Variable purify : string -> DOMPurifyConfig -> string.

(** [if (targets.includes("body")) { ... }]. *)
Definition sanitize_body (targets : list RequestTarget) (merged : options)
    (req : request) : phase := fun st =>
  if targets_include targets Body then
    let contentType := default "" (content_type req) in
    if includes contentType "application/json" then
      let '(body, logged) :=
        match json req with
        | Normal parsed => (parsed, [])
        | Throw error => (VUndefined, [ConsoleError error])
        end in
      match body with
      | VObj entries =>
          match sanitizeTarget purify entries merged with
          | (Normal sanitized, tr) =>
              (Normal tt,
               {| sanitizedBody := Some sanitized;
                  sanitizedQuery := sanitizedQuery st;
                  sanitizedParams := sanitizedParams st;
                  sanitizedHeaders := sanitizedHeaders st;
                  cloneBody := Some sanitized |},
               logged ++ map Observer tr)
          | (Throw error, tr) => (Throw error, st, logged ++ map Observer tr)
          end
      | _ => (Normal tt, st, logged)
      end
    else (Normal tt, st, [])
  else (Normal tt, st, []).

(** [if (targets.includes("query")) { ... }]. *)
Definition sanitize_query (targets : list RequestTarget) (merged : options)
    (req : request) : phase := fun st =>
  if targets_include targets Query then
    match req_query req with
    | [] => (Normal tt, st, [])
    | query =>
        match sanitizeTarget purify (as_target query) merged with
        | (Normal sanitized, tr) =>
            (Normal tt,
             {| sanitizedBody := sanitizedBody st;
                sanitizedQuery := Some sanitized;
                sanitizedParams := sanitizedParams st;
                sanitizedHeaders := sanitizedHeaders st;
                cloneBody := cloneBody st |},
             map Observer tr)
        | (Throw error, tr) => (Throw error, st, map Observer tr)
        end
    end
  else (Normal tt, st, []).

(** [if (targets.includes("params")) { ... }]. *)
Definition sanitize_params (targets : list RequestTarget) (merged : options)
    (req : request) : phase := fun st =>
  if targets_include targets Params then
    match req_param req with
    | [] => (Normal tt, st, [])
    | params =>
        match sanitizeTarget purify (as_target params) merged with
        | (Normal sanitized, tr) =>
            (Normal tt,
             {| sanitizedBody := sanitizedBody st;
                sanitizedQuery := sanitizedQuery st;
                sanitizedParams := Some sanitized;
                sanitizedHeaders := sanitizedHeaders st;
                cloneBody := cloneBody st |},
             map Observer tr)
        | (Throw error, tr) => (Throw error, st, map Observer tr)
        end
    end
  else (Normal tt, st, []).

(** [const headers = {}; c.req.raw.headers.forEach((value, key) => {
    headers[key] = value })]: the assignment makes no own property of a
    header named ["__proto__"]. *)
Definition collect_headers (raw : list (string * string)) : list (string * string) :=
  List.filter (fun e => negb (String.eqb e.1 "__proto__")) raw.

(** [if (targets.includes("headers")) { ... }]. *)
Definition sanitize_headers (targets : list RequestTarget) (merged : options)
    (req : request) : phase := fun st =>
  if targets_include targets Headers then
    match collect_headers (raw_headers req) with
    | [] => (Normal tt, st, [])
    | headers =>
        match sanitizeTarget purify (as_target headers) merged with
        | (Normal sanitized, tr) =>
            (Normal tt,
             {| sanitizedBody := sanitizedBody st;
                sanitizedQuery := sanitizedQuery st;
                sanitizedParams := sanitizedParams st;
                sanitizedHeaders := Some sanitized;
                cloneBody := cloneBody st |},
             map Observer tr)
        | (Throw error, tr) => (Throw error, st, map Observer tr)
        end
    end
  else (Normal tt, st, []).

(** The [try] block of the handler. *)
Definition sanitize_requested (targets : list RequestTarget) (merged : options)
    (req : request) : phase :=
  and_then (sanitize_body targets merged req)
    (and_then (sanitize_query targets merged req)
       (and_then (sanitize_params targets merged req)
          (sanitize_headers targets merged req))).

(** The handler [sanitizer(options)] returns, run on a request: the [try]
    block, its [catch] block, then [await next()]. *)
Definition sanitizer (o : SanitizerOptions) (req : request) : phase := fun st =>
  let merged := mergedOptions o in
  let targets := mergedTargets o in
  match sanitize_requested targets merged req st with
  | (Normal _, st1, tr) => (Normal tt, st1, tr ++ [Next])
  | (Throw error, st1, tr) =>
      match as_Error error with
      | Normal err =>
          if throwOnError merged then (Throw (ThrownError err), st1, tr)
          else
            (Normal tt, st1,
             tr ++ map Observer (calls (onError merged) (EvError err "middleware"))
                ++ [Next])
      | Throw t => (Throw t, st1, tr)
      end
  end.

End Middleware.

(** [getSanitizedBody(c)] and its three siblings: [c.req.__sanitized... ||
    null]; a stored object is never falsy, so [null] means "nothing stored". *)
Definition getSanitizedBody (st : stored) : option (list (string * jsvalue)) :=
  sanitizedBody st.

Definition getSanitizedQuery (st : stored) : option (list (string * jsvalue)) :=
  sanitizedQuery st.

Definition getSanitizedParams (st : stored) : option (list (string * jsvalue)) :=
  sanitizedParams st.

Definition getSanitizedHeaders (st : stored) : option (list (string * jsvalue)) :=
  sanitizedHeaders st.

(** ** Vocabulary of the middleware properties *)

(** The body the middleware would sanitize: present when the content type
    names JSON, parsing succeeds and the parsed value is a plain object. *)
Definition body_entries (req : request) : option (list (string * jsvalue)) :=
  if includes (default "" (content_type req)) "application/json" then
    match json req with
    | Normal (VObj entries) => Some entries
    | _ => None
    end
  else None.

(** What [console.error] receives while the body is read. *)
Definition parse_log (req : request) : list effect :=
  if includes (default "" (content_type req)) "application/json" then
    match json req with
    | Throw error => [ConsoleError error]
    | Normal _ => []
    end
  else [].

(** A record with at least one key, as a target. *)
Definition record_entries (entries : list (string * string))
    : option (list (string * jsvalue)) :=
  match entries with
  | [] => None
  | _ => Some (as_target entries)
  end.

(** The input of each target, when the request has one. *)
Definition target_input (t : RequestTarget) (req : request)
    : option (list (string * jsvalue)) :=
  match t with
  | Body => body_entries req
  | Query => record_entries (req_query req)
  | Params => record_entries (req_param req)
  | Headers => record_entries (collect_headers (raw_headers req))
  end.

(** The input of a target that is requested. *)
Definition requested_input (targets : list RequestTarget) (t : RequestTarget)
    (req : request) : option (list (string * jsvalue)) :=
  if targets_include targets t then target_input t req else None.

(** Storing the sanitized result of a target on the request object. *)
Definition store_target (t : RequestTarget) (sanitized : list (string * jsvalue))
    (st : stored) : stored :=
  match t with
  | Body =>
      {| sanitizedBody := Some sanitized; sanitizedQuery := sanitizedQuery st;
         sanitizedParams := sanitizedParams st; sanitizedHeaders := sanitizedHeaders st;
         cloneBody := Some sanitized |}
  | Query =>
      {| sanitizedBody := sanitizedBody st; sanitizedQuery := Some sanitized;
         sanitizedParams := sanitizedParams st; sanitizedHeaders := sanitizedHeaders st;
         cloneBody := cloneBody st |}
  | Params =>
      {| sanitizedBody := sanitizedBody st; sanitizedQuery := sanitizedQuery st;
         sanitizedParams := Some sanitized; sanitizedHeaders := sanitizedHeaders st;
         cloneBody := cloneBody st |}
  | Headers =>
      {| sanitizedBody := sanitizedBody st; sanitizedQuery := sanitizedQuery st;
         sanitizedParams := sanitizedParams st; sanitizedHeaders := Some sanitized;
         cloneBody := cloneBody st |}
  end.

(** The slot of the request object a target is stored in. *)
Definition slot (t : RequestTarget) (st : stored) : option (list (string * jsvalue)) :=
  match t with
  | Body => sanitizedBody st
  | Query => sanitizedQuery st
  | Params => sanitizedParams st
  | Headers => sanitizedHeaders st
  end.

(** The four target blocks of the handler, seen as one scheme. *)
Definition run_target purify (targets : list RequestTarget) (merged : options)
    (req : request) (t : RequestTarget) : phase := fun st =>
  let logged := match t with Body => if targets_include targets Body then parse_log req else []
                           | _ => [] end in
  match requested_input targets t req with
  | Some entries =>
      match sanitizeTarget purify entries merged with
      | (Normal sanitized, tr) => (Normal tt, store_target t sanitized st, logged ++ map Observer tr)
      | (Throw error, tr) => (Throw error, st, logged ++ map Observer tr)
      end
  | None => (Normal tt, st, logged)
  end.

(** The same options with the list of targets replaced. *)
Definition set_targets (targets : list RequestTarget) (o : SanitizerOptions)
    : SanitizerOptions :=
  {| o_targets := Some targets; o_mode := o_mode o; o_whitelist := o_whitelist o;
     o_blacklist := o_blacklist o; o_fields := o_fields o; o_deep := o_deep o;
     o_maxDepth := o_maxDepth o; o_arrays := o_arrays o; o_config := o_config o;
     o_onSanitize := o_onSanitize o; o_onSkip := o_onSkip o; o_onError := o_onError o;
     o_throwOnError := o_throwOnError o |}.

(** [sanitizer()]: no option given, and the same with the observers
    installed or [throwOnError] set. *)
Definition no_options : SanitizerOptions :=
  {| o_targets := None; o_mode := None; o_whitelist := None; o_blacklist := None;
     o_fields := None; o_deep := None; o_maxDepth := None; o_arrays := None;
     o_config := None; o_onSanitize := false; o_onSkip := false; o_onError := false;
     o_throwOnError := None |}.

(** [sanitizer({ targets: ["body", "query"], fields: { test: { mode:
    "custom", sanitizer: () => { throw new Error("Test error") } } },
    throwOnError })]. *)
Definition failing_options (throws : bool) : SanitizerOptions :=
  {| o_targets := Some [Body; Query]; o_mode := None; o_whitelist := None;
     o_blacklist := None; o_fields := Some {[ "test" := throwing_entry ]};
     o_deep := None; o_maxDepth := None; o_arrays := None; o_config := None;
     o_onSanitize := true; o_onSkip := true; o_onError := true;
     o_throwOnError := Some throws |}.

(** A JSON request with a body and a query string. *)
Definition json_request : request :=
  {| content_type := Some "application/json; charset=utf-8";
     json := Normal (VObj [("name", VStr "<b>John</b>")]);
     req_query := [("q", "<i>x</i>")];
     req_param := [];
     raw_headers := [("content-type", "application/json; charset=utf-8")] |}.

(** A form post: the content type is not JSON and [c.req.json()] throws. *)
Definition form_request : request :=
  {| content_type := Some "application/x-www-form-urlencoded";
     json := Throw (ThrownError "Unexpected token");
     req_query := [("q", "<i>x</i>")];
     req_param := [];
     raw_headers := [("content-type", "application/x-www-form-urlencoded")] |}.

(** A request that announces JSON and whose body does not parse. *)
Definition broken_json_request : request :=
  {| content_type := Some "application/json";
     json := Throw (ThrownError "Unexpected end of JSON input");
     req_query := [("q", "<i>x</i>")];
     req_param := [];
     raw_headers := [("content-type", "application/json")] |}.

(** A JSON request whose query carries the failing field. *)
Definition failing_query_request : request :=
  {| content_type := Some "application/json";
     json := Normal (VObj [("name", VStr "<b>John</b>")]);
     req_query := [("test", "value")];
     req_param := [("id", "7")];
     raw_headers := [("content-type", "application/json")] |}.

(** The observer calls sanitizing one target makes, when it is requested
    and present. *)
Definition target_effects purify (targets : list RequestTarget) (merged : options)
    (req : request) (t : RequestTarget) : list effect :=
  match requested_input targets t req with
  | Some entries => map Observer (snd (sanitizeTarget purify entries merged))
  | None => []
  end.

(** What [console.error] receives, when the body is requested. *)
Definition body_log (targets : list RequestTarget) (req : request) : list effect :=
  if targets_include targets Body then parse_log req else [].

(** The list of targets without the body. *)
Definition without_body (targets : list RequestTarget) : list RequestTarget :=
  filter (fun t => t <> Body) targets.

(** What a stretch of the [try] block that handles the targets [handled]
    guarantees: it never calls [next], it leaves alone the slot of every
    target it does not handle or that has no requested input, and whatever
    it throws is an [Error], thrown under [throwOnError] unless it is the
    failure of a [catch] block of the engine. *)
Definition phase_ok (merged : options) (targets : list RequestTarget) (req : request)
    (handled : list RequestTarget) (p : phase) : Prop :=
  forall st, exists r st' tr,
    p st = (r, st', tr)
    /\ ~ In Next tr
    /\ (forall t, ~ In t handled \/ requested_input targets t req = None ->
          slot t st' = slot t st)
    /\ (~ In Body handled \/ requested_input targets Body req = None ->
          cloneBody st' = cloneBody st)
    /\ (forall e, r = Throw e ->
          (exists message, e = ThrownError message)
          /\ (throws_catchable merged -> throwOnError merged = true)).

(** The order in which the handler goes through the targets, whatever the
    order of the [targets] option, and the blocks of a list of targets run
    one after the other. *)
Definition target_order : list RequestTarget := [Body; Query; Params; Headers].

Definition no_op : phase := fun st => (Normal tt, st, []).

Fixpoint run_targets purify (targets : list RequestTarget) (merged : options)
    (req : request) (ts : list RequestTarget) : phase :=
  match ts with
  | [] => no_op
  | t :: rest =>
      and_then (run_target purify targets merged req t)
               (run_targets purify targets merged req rest)
  end.

(** A target that was requested and present has been sanitized, on its
    own and with the merged options, and the result is in its slot (for the
    body, also in the overridden clone). *)
Definition stored_in purify (targets : list RequestTarget) (merged : options)
    (req : request) (t : RequestTarget) (st : stored) : Prop :=
  forall entries, requested_input targets t req = Some entries ->
    exists out tr,
      sanitizeTarget purify entries merged = (Normal out, tr)
      /\ slot t st = Some out
      /\ (t = Body -> cloneBody st = Some out).

(** [fields: { test: { mode: "custom", sanitizer: () => { throw { toString:
    null } } } }]: a custom function that throws a value [String()] cannot
    convert; the same with the failing field one object down. *)
Definition unconvertible_entry : FieldConfig :=
  {| fc_mode := custom; fc_config := None;
     fc_sanitizer := Some (fun _ => Throw (ThrownValue (VObj [("toString", VNull)]))) |}.


Definition nested_unconvertible_demo : options :=
  set_fields {[ "user.test" := unconvertible_entry ]} observed.

(** No plain object in the value has an own property ["__proto__"]. *)
Fixpoint proto_free (v : jsvalue) : bool :=
  match v with
  | VArr items => forallb proto_free items
  | VObj entries =>
      forallb (fun e => negb (String.eqb e.1 "__proto__") && proto_free e.2) entries
  | _ => true
  end.



(** The custom function that throws what [String()] cannot convert,
    configured for the second element of an array. *)
Definition element_unconvertible_demo : options :=
  set_fields {[ "tags.1" := unconvertible_entry ]} observed.

(** [sanitizer({ targets: ["body", "query"], fields: { test: { mode:
    "custom", sanitizer: () => { throw { toString: null } } } } })], with the
    observers installed. *)
Definition unconvertible_options : SanitizerOptions :=
  {| o_targets := Some [Body; Query]; o_mode := None; o_whitelist := None;
     o_blacklist := None; o_fields := Some {[ "test" := unconvertible_entry ]};
     o_deep := None; o_maxDepth := None; o_arrays := None; o_config := None;
     o_onSanitize := true; o_onSkip := true; o_onError := true;
     o_throwOnError := None |}.

(** * Properties *)

(** ** Running the string and array primitives *)

Example split_path : JSString.split dot "user.profile.bio" = ["user"; "profile"; "bio"].
Proof. reflexivity. Qed.

Example split_empty : JSString.split dot "" = [""].
Proof. reflexivity. Qed.

Example split_trailing : JSString.split dot "a." = ["a"; ""].
Proof. reflexivity. Qed.

Example join_path : JSString.join "." ["user"; "profile"] = "user.profile".
Proof. reflexivity. Qed.

Example join_mixed :
  array_join " " [VStr "a"; VNull; VNum "1"; VArr [VStr "x"; VStr "y"]; VObj []]
  = "a  1 x,y [object Object]".
Proof. reflexivity. Qed.

(** ** Strings *)

Lemma startsWith_iff (s p : string) :
  JSString.startsWith s p = true <-> exists rest, s = p +:+ rest.
Proof.
  unfold JSString.startsWith. revert s.
  induction p as [|a p IH]; intros s; simpl.
  - destruct s; split; eauto.
  - destruct s as [|b s]; simpl.
    + split; [discriminate | intros [rest H]; discriminate].
    + destruct (ascii_dec a b) as [->|Hne].
      * rewrite IH. split; intros [rest H]; exists rest; [by rewrite H | by injection H].
      * split; [discriminate | intros [rest H]; injection H; congruence].
Qed.

Lemma append_assoc (a b c : string) : (a +:+ b) +:+ c = a +:+ (b +:+ c).
Proof.
  induction a as [|x a IH]; [done|].
  change (String x ((a +:+ b) +:+ c) = String x (a +:+ (b +:+ c))).
  by rewrite IH.
Qed.

Lemma matches_pattern_iff (fieldPath pattern : string) :
  matches_pattern fieldPath pattern = true <->
  fieldPath = pattern \/ exists rest, fieldPath = pattern +:+ "." +:+ rest.
Proof.
  unfold matches_pattern, JSString.eqb.
  rewrite orb_true_iff, String.eqb_eq, startsWith_iff.
  split; (intros [H|[rest H]]; [by left | right; exists rest]).
  - by rewrite H, append_assoc.
  - by rewrite H, append_assoc.
Qed.

Lemma append_cons (c : ascii) (a b : string) :
  String c a +:+ b = String c (a +:+ b).
Proof. reflexivity. Qed.

Lemma split_nonempty (s : string) : JSString.split dot s <> [].
Proof.
  destruct s as [|c s]; simpl; [done|].
  destruct (Ascii.eqb c dot); [done|].
  by destruct (JSString.split dot s).
Qed.

Lemma join_cons (x : string) (l : list string) :
  l <> [] -> JSString.join "." (x :: l) = x +:+ "." +:+ JSString.join "." l.
Proof. by destruct l. Qed.

Lemma join_split (s : string) : JSString.join "." (JSString.split dot s) = s.
Proof.
  induction s as [|c s IH]; [done|].
  cbn [JSString.split].
  destruct (Ascii.eqb c dot) eqn:Ec.
  - apply Ascii.eqb_eq in Ec. subst c.
    rewrite join_cons by apply split_nonempty. by rewrite IH.
  - pose proof (split_nonempty s) as Hne.
    destruct (JSString.split dot s) as [|seg segs]; [done|].
    rewrite <- IH. destruct segs; reflexivity.
Qed.

Lemma split_app (a rest : string) :
  JSString.split dot (a +:+ "." +:+ rest)
  = JSString.split dot a ++ JSString.split dot rest.
Proof.
  induction a as [|c a IH]; [reflexivity|].
  rewrite append_cons. cbn [JSString.split].
  destruct (Ascii.eqb c dot).
  - by rewrite IH.
  - rewrite IH. pose proof (split_nonempty a) as Hne.
    by destruct (JSString.split dot a).
Qed.

Lemma join_app (l1 l2 : list string) :
  l1 <> [] -> l2 <> [] ->
  JSString.join "." (l1 ++ l2)
  = JSString.join "." l1 +:+ "." +:+ JSString.join "." l2.
Proof.
  intros H1 H2. induction l1 as [|x l1 IH]; [done|].
  destruct l1 as [|y l1].
  - simpl app. by rewrite join_cons.
  - change ((x :: y :: l1) ++ l2) with (x :: ((y :: l1) ++ l2)).
    rewrite join_cons by done. rewrite IH by done.
    rewrite (join_cons x (y :: l1)) by done.
    by rewrite !append_assoc.
Qed.

(** ** One-step unfolding of the walker *)

Lemma sanitizeValue_unfold purify (value : jsvalue) :
  sanitizeValue purify value = sanitizeValue_body purify (sanitizeValue purify) value.
Proof. destruct value; reflexivity. Qed.

Ltac run_walker :=
  unfold sanitizeValue_body, shouldSkipField, applyCustomSanitizer,
    sanitizeStringValue, handle_error, try_catch, bind, get_ctx, notify, ret,
    throw, call, builtin, calls, fieldPath_of in *.

(** A node that [shouldSkipField] rejects is handed back as it is. *)
Lemma sanitizeValue_skipped purify (value : jsvalue) (ctx : SanitizationContext) :
  shouldSanitizeField (fieldPath_of ctx) (ctx_options ctx) = false
  \/ is_skip (getFieldConfig (fieldPath_of ctx) (ctx_options ctx)) = true ->
  sanitizeValue purify value ctx
  = (Normal value, ctx,
     calls (onSkip (ctx_options ctx))
           (EvSkip (fieldPath_of ctx) (SkipCtxPath (path ctx)))).
Proof.
  intros H. rewrite sanitizeValue_unfold. run_walker.
  destruct (shouldSanitizeField _ _); simpl.
  - destruct H as [H|H]; [discriminate|]. rewrite H. simpl.
    by destruct (onSkip _).
  - by destruct (onSkip _).
Qed.

(** ** Scope: whitelist and blacklist *)

Lemma shouldSanitizeField_whitelist (opts : options) (wl : list string)
    (fieldPath : string) :
  whitelist opts = Some wl -> wl <> [] ->
  shouldSanitizeField fieldPath opts = existsb (matches_pattern fieldPath) wl.
Proof.
  intros Hwl Hne. unfold shouldSanitizeField. rewrite Hwl.
  destruct wl; [contradiction | reflexivity].
Qed.

(** C1: with a non-empty whitelist a field path is in scope exactly when it
    equals a whitelist entry or starts with an entry followed by a dot; the
    blacklist plays no part; and [sanitizeValue] hands back, untransformed,
    the value of every node whose path is out of scope, whatever the global
    mode and the field-level modes are (the only observer call is the skip
    notification). *)
Theorem whitelist_scope purify (opts : options) (wl : list string)
    (fieldPath : string) :
  whitelist opts = Some wl -> wl <> [] ->
  (shouldSanitizeField fieldPath opts = true <->
     exists entry, In entry wl /\
       (fieldPath = entry \/ exists rest, fieldPath = entry +:+ "." +:+ rest))
  /\ (forall bl, shouldSanitizeField fieldPath (set_blacklist bl opts)
                 = shouldSanitizeField fieldPath opts)
  /\ (shouldSanitizeField fieldPath opts = false ->
      forall (m : SanitizationMode) (value : jsvalue) (ctx : SanitizationContext),
        ctx_options ctx = set_mode m opts -> fieldPath_of ctx = fieldPath ->
        exists arg,
          sanitizeValue purify value ctx
          = (Normal value, ctx, calls (onSkip opts) (EvSkip fieldPath arg))).
Proof.
  intros Hwl Hne. split; [|split].
  - rewrite (shouldSanitizeField_whitelist opts wl) by done.
    rewrite existsb_exists. split; intros (entry & Hin & H); exists entry.
    + split; [done|]. by apply matches_pattern_iff.
    + split; [done|]. by apply matches_pattern_iff.
  - intros bl.
    rewrite (shouldSanitizeField_whitelist opts wl) by done.
    by rewrite (shouldSanitizeField_whitelist (set_blacklist bl opts) wl).
  - intros Hout m value ctx Hopts Hpath.
    exists (SkipCtxPath (path ctx)).
    rewrite sanitizeValue_skipped.
    + rewrite Hopts, Hpath. reflexivity.
    + left. rewrite Hopts, Hpath.
      rewrite (shouldSanitizeField_whitelist (set_mode m opts) wl) by done.
      by rewrite <- (shouldSanitizeField_whitelist opts wl).
Qed.

Lemma whitelist_scope_witness :
  shouldSanitizeField "name" whitelist_demo = false /\
  exists arg,
    sanitizeValue demo_purify (VStr "<b>John</b>")
      {| ctx_options := set_mode html whitelist_demo; currentDepth := 0;
         path := ["name"] |}
    = (Normal (VStr "<b>John</b>"),
       {| ctx_options := set_mode html whitelist_demo; currentDepth := 0;
          path := ["name"] |},
       calls (onSkip whitelist_demo) (EvSkip "name" arg)).
Proof.
  split; [reflexivity|].
  refine (proj2 (proj2 (whitelist_scope demo_purify whitelist_demo ["message"] "name"
                          eq_refl _)) eq_refl html (VStr "<b>John</b>")
            {| ctx_options := set_mode html whitelist_demo; currentDepth := 0;
               path := ["name"] |} eq_refl eq_refl).
  discriminate.
Defined.

(** ** Policy resolution: exact entry, nearest ancestor, global default *)

Lemma drop_trailing_take (parts : list string) (i : nat) :
  (S i <= length parts)%nat ->
  drop_trailing (S i) (take (S i) parts)
  = match i with
    | O => []
    | S _ => take i parts :: drop_trailing i (take i parts)
    end.
Proof.
  intros Hlen. cbn [drop_trailing].
  rewrite removelast_firstn by lia.
  destruct i as [|j]; [done|].
  destruct parts as [|x parts]; [simpl in Hlen; lia | reflexivity].
Qed.

Lemma parent_lookup_spec (fs : gmap string FieldConfig) (parts : list string)
    (i : nat) :
  (S i <= length parts)%nat ->
  parent_lookup fs parts i
  = first_entry fs (map (JSString.join ".") (drop_trailing (S i) (take (S i) parts))).
Proof.
  induction i as [|j IH]; intros Hlen.
  - by rewrite drop_trailing_take.
  - rewrite drop_trailing_take by done. cbn [parent_lookup map first_entry].
    destruct (fs !! _); [done|]. apply IH. lia.
Qed.

Lemma getFieldConfig_refines (fieldPath : string) (opts : options) :
  getFieldConfig fieldPath opts = spec_getFieldConfig fieldPath opts.
Proof.
  unfold getFieldConfig, spec_getFieldConfig, spec_ancestors.
  destruct (fields opts) as [fs|]; [|done].
  cbn [first_entry]. destruct (fs !! fieldPath); [done|].
  pose proof (split_nonempty fieldPath) as Hne.
  set (parts := JSString.split dot fieldPath) in *.
  assert (Hlen : (S (length parts - 1) = length parts)%nat).
  { destruct parts; [done | simpl; lia]. }
  rewrite parent_lookup_spec by lia.
  by rewrite Hlen, firstn_all.
Qed.

Lemma drop_trailing_In (parts l : list string) (i : nat) :
  (S i <= length parts)%nat ->
  In l (drop_trailing (S i) (take (S i) parts))
  <-> exists j, (0 < j <= i)%nat /\ l = take j parts.
Proof.
  induction i as [|i IH]; intros Hlen.
  - rewrite drop_trailing_take by done. split; [done | intros (j & ? & _); lia].
  - rewrite drop_trailing_take by done. cbn [In]. rewrite IH by lia. split.
    + intros [<-|(j & ? & ->)]; [exists (S i) | exists j]; split; (lia || done).
    + intros (j & Hj & ->). destruct (decide (j = S i)) as [->|]; [by left|].
      right. exists j. split; [lia | done].
Qed.

(** The segments [split] returns hold no dot, and [split] undoes [join] on
    such segments. *)
Lemma split_segments (s : string) :
  Forall (fun seg => JSString.has_char dot seg = false) (JSString.split dot s).
Proof.
  induction s as [|c s IH]; [by repeat constructor|].
  cbn [JSString.split]. destruct (Ascii.eqb c dot) eqn:Ec.
  - by constructor.
  - destruct (JSString.split dot s) as [|seg segs]; [by repeat constructor; simpl; rewrite Ec|].
    inversion IH; subst. constructor; [|done]. simpl. by rewrite Ec.
Qed.

Lemma split_dot_free (seg : string) :
  JSString.has_char dot seg = false -> JSString.split dot seg = [seg].
Proof.
  induction seg as [|c seg IH]; [done|]. simpl.
  intros [Hc Hs]%orb_false_iff. rewrite Hc. by rewrite IH.
Qed.

Lemma split_join (l : list string) :
  l <> [] -> Forall (fun seg => JSString.has_char dot seg = false) l ->
  JSString.split dot (JSString.join "." l) = l.
Proof.
  induction l as [|x l IH]; [done|]. intros _ Hall. inversion Hall; subst.
  destruct l as [|y l]; [by apply split_dot_free|].
  rewrite join_cons by done. rewrite split_app, IH by done.
  by rewrite split_dot_free.
Qed.

(** The ancestor paths are the prefixes of the segment list. *)
Lemma ancestor_prefix (a fieldPath : string) :
  is_ancestor a fieldPath <->
  exists j, (0 < j < length (JSString.split dot fieldPath))%nat
            /\ a = JSString.join "." (take j (JSString.split dot fieldPath)).
Proof.
  split.
  - intros [rest ->]. exists (length (JSString.split dot a)).
    rewrite split_app, length_app.
    pose proof (split_nonempty a). pose proof (split_nonempty rest).
    destruct (JSString.split dot a) eqn:Ea; [done|].
    destruct (JSString.split dot rest) eqn:Er; [done|].
    split; [simpl; lia|].
    rewrite <- Ea. rewrite take_app_length. by rewrite join_split.
  - intros (j & Hj & ->). exists (JSString.join "." (drop j (JSString.split dot fieldPath))).
    rewrite <- join_app.
    + by rewrite take_drop, join_split.
    + intros H%(f_equal length). rewrite length_take in H. simpl in H. lia.
    + intros H%(f_equal length). rewrite length_drop in H. simpl in H. lia.
Qed.

Lemma spec_ancestors_In (a fieldPath : string) :
  In a (spec_ancestors fieldPath) <-> is_ancestor a fieldPath.
Proof.
  rewrite ancestor_prefix. unfold spec_ancestors.
  pose proof (split_nonempty fieldPath) as Hne.
  set (parts := JSString.split dot fieldPath) in *.
  destruct (length parts) as [|n] eqn:Hlen; [by destruct parts|].
  rewrite <- (firstn_all parts) at 1. rewrite Hlen.
  rewrite in_map_iff. split.
  - intros (l & <- & Hin). apply drop_trailing_In in Hin; [|lia].
    destruct Hin as (j & Hj & ->). exists j. split; [lia | done].
  - intros (j & Hj & ->). exists (take j parts). split; [done|].
    apply drop_trailing_In; [lia|]. exists j. split; [lia | done].
Qed.

Lemma parent_lookup_Some (fs : gmap string FieldConfig) (parts : list string)
    (i : nat) (fc : FieldConfig) :
  parent_lookup fs parts i = Some fc ->
  exists j, (0 < j <= i)%nat
    /\ fs !! JSString.join "." (take j parts) = Some fc
    /\ forall k, (j < k <= i)%nat -> fs !! JSString.join "." (take k parts) = None.
Proof.
  induction i as [|i IH]; [done|]. cbn [parent_lookup].
  destruct (fs !! JSString.join "." (take (S i) parts)) as [fc'|] eqn:E.
  - intros [= ->]. exists (S i). split; [lia|]. split; [done|]. intros k Hk. lia.
  - intros (j & Hj & Hfound & Hnone)%IH. exists j. split; [lia|]. split; [done|].
    intros k Hk. destruct (decide (k = S i)) as [->|]; [done|]. apply Hnone. lia.
Qed.

Lemma parent_lookup_None (fs : gmap string FieldConfig) (parts : list string)
    (i : nat) :
  parent_lookup fs parts i = None <->
  forall k, (0 < k <= i)%nat -> fs !! JSString.join "." (take k parts) = None.
Proof.
  induction i as [|i IH]; cbn [parent_lookup].
  - split; [intros _ k Hk; lia | done].
  - destruct (fs !! JSString.join "." (take (S i) parts)) as [fc'|] eqn:E.
    + split; [done|]. intros H. rewrite H in E by lia. done.
    + rewrite IH. split; intros H k Hk.
      * destruct (decide (k = S i)) as [->|]; [done|]. apply H. lia.
      * apply H. lia.
Qed.

Lemma split_take_join (fieldPath : string) (j : nat) :
  (0 < j <= length (JSString.split dot fieldPath))%nat ->
  JSString.split dot (JSString.join "." (take j (JSString.split dot fieldPath)))
  = take j (JSString.split dot fieldPath).
Proof.
  intros Hj. apply split_join.
  - intros H%(f_equal length). rewrite length_take in H. simpl in H. lia.
  - apply Forall_take, split_segments.
Qed.

(** A deeper ancestor has more segments. *)
Lemma ancestor_deeper (fieldPath : string) (j k : nat) :
  (0 < j < length (JSString.split dot fieldPath))%nat ->
  (0 < k < length (JSString.split dot fieldPath))%nat ->
  is_ancestor (JSString.join "." (take j (JSString.split dot fieldPath)))
              (JSString.join "." (take k (JSString.split dot fieldPath))) ->
  (j < k)%nat.
Proof.
  intros Hj Hk [rest Hrest].
  apply (f_equal (JSString.split dot)) in Hrest.
  rewrite split_app, !split_take_join in Hrest by lia.
  apply (f_equal length) in Hrest.
  rewrite length_app, !length_take in Hrest.
  pose proof (split_nonempty rest).
  destruct (JSString.split dot rest); [done|]. simpl in Hrest. lia.
Qed.

Lemma getFieldConfig_nearest (fieldPath : string) (opts : options) (fc : FieldConfig) :
  field_entry opts fieldPath = None ->
  getFieldConfig fieldPath opts = Some fc ->
  exists a, is_ancestor a fieldPath /\ field_entry opts a = Some fc
    /\ forall a', is_ancestor a' fieldPath -> is_ancestor a a' ->
                  field_entry opts a' = None.
Proof.
  unfold field_entry, getFieldConfig. destruct (fields opts) as [fs|]; [|done].
  intros -> (j & Hj & Hfound & Hnone)%parent_lookup_Some.
  pose proof (split_nonempty fieldPath) as Hne.
  set (parts := JSString.split dot fieldPath) in *.
  assert (Hlen : (0 < length parts)%nat) by (destruct parts; [done | simpl; lia]).
  exists (JSString.join "." (take j parts)). split; [|split; [done|]].
  - apply ancestor_prefix. exists j. split; [fold parts; lia | done].
  - intros a' (k & Hk & ->)%ancestor_prefix Hdeeper. fold parts in Hk, Hdeeper |- *.
    apply ancestor_deeper in Hdeeper; [|fold parts; lia..].
    apply Hnone. lia.
Qed.

Lemma getFieldConfig_None (fieldPath : string) (opts : options) :
  getFieldConfig fieldPath opts = None <->
  field_entry opts fieldPath = None
  /\ forall a, is_ancestor a fieldPath -> field_entry opts a = None.
Proof.
  unfold field_entry, getFieldConfig. destruct (fields opts) as [fs|]; [|done].
  pose proof (split_nonempty fieldPath) as Hne.
  destruct (fs !! fieldPath) as [fc|] eqn:E.
  - split; [done | by intros [? _]].
  - rewrite parent_lookup_None. split.
    + intros H. split; [done|]. intros a (k & Hk & ->)%ancestor_prefix.
      apply H. lia.
    + intros [_ H] k Hk. apply H, ancestor_prefix. exists k. split; [lia | done].
Qed.

Lemma getFieldConfig_entry (fieldPath : string) (opts : options) (fc : FieldConfig) :
  getFieldConfig fieldPath opts = Some fc -> exists q, field_entry opts q = Some fc.
Proof.
  unfold getFieldConfig, field_entry. destruct (fields opts) as [fs|]; [|done].
  destruct (fs !! fieldPath) as [fc'|] eqn:E.
  - intros [= ->]. by exists fieldPath.
  - intros (j & _ & Hfound & _)%parent_lookup_Some. by eexists.
Qed.

(** C2: policy resolution returns the entry of the exact path when the
    fields mapping has one (it wins over every ancestor); otherwise the entry
    of the nearest ancestor path, the ancestors being tried from the deepest
    to the shallowest by dropping trailing dot-separated segments; otherwise
    nothing, and the global default mode and allow-list settings apply.  The
    entry found gives the mode, and the allow-list settings when it carries
    some; an entry without settings of its own leaves the global ones in
    force. *)
Theorem policy_resolution (fieldPath : string) (opts : options) :
  getFieldConfig fieldPath opts = spec_getFieldConfig fieldPath opts
  /\ (forall a, In a (spec_ancestors fieldPath) <-> is_ancestor a fieldPath)
  /\ (forall fc, field_entry opts fieldPath = Some fc ->
                 getFieldConfig fieldPath opts = Some fc)
  /\ (forall fc, field_entry opts fieldPath = None ->
                 getFieldConfig fieldPath opts = Some fc ->
                 exists a, is_ancestor a fieldPath /\ field_entry opts a = Some fc
                   /\ forall a', is_ancestor a' fieldPath -> is_ancestor a a' ->
                                 field_entry opts a' = None)
  /\ (getFieldConfig fieldPath opts = None <->
      field_entry opts fieldPath = None
      /\ forall a, is_ancestor a fieldPath -> field_entry opts a = None)
  /\ (forall fc, getFieldConfig fieldPath opts = Some fc ->
                 resolved_mode (getFieldConfig fieldPath opts) opts = fc_mode fc
                 /\ (forall c, fc_config fc = Some c ->
                       resolved_config (getFieldConfig fieldPath opts) opts = Some c)
                 /\ (fc_config fc = None ->
                       resolved_config (getFieldConfig fieldPath opts) opts = config opts))
  /\ (getFieldConfig fieldPath opts = None ->
      resolved_mode (getFieldConfig fieldPath opts) opts = mode opts
      /\ resolved_config (getFieldConfig fieldPath opts) opts = config opts).
Proof.
  split; [apply getFieldConfig_refines|].
  split; [intros a; apply spec_ancestors_In|].
  split.
  { intros fc. unfold field_entry, getFieldConfig.
    destruct (fields opts) as [fs|]; [|done]. by intros ->. }
  split; [intros fc; apply getFieldConfig_nearest|].
  split; [apply getFieldConfig_None|].
  split; [|by intros ->].
  intros fc ->. split; [done|]. destruct fc as [m [c|] f]; simpl; split; congruence.
Qed.

Lemma policy_resolution_witness :
  exists a, is_ancestor a "user.profile.bio"
    /\ field_entry nested_fields a = Some profile_entry
    /\ forall a', is_ancestor a' "user.profile.bio" -> is_ancestor a a' ->
                  field_entry nested_fields a' = None.
Proof.
  apply (proj1 (proj2 (proj2 (proj2
           (policy_resolution "user.profile.bio" nested_fields))))).
  - vm_compute. reflexivity.
  - vm_compute. reflexivity.
Defined.

Example getFieldConfig_exact :
  getFieldConfig "user.profile" nested_fields = Some profile_entry.
Proof. vm_compute. reflexivity. Qed.

Example getFieldConfig_top_level :
  getFieldConfig "other.profile" nested_fields = None.
Proof. vm_compute. reflexivity. Qed.

(** ** Laws of the traversal monad *)

Lemma bind_normal {A B} (m : M A) (k : A -> M B) (ctx ctx1 : SanitizationContext)
    (a : A) :
  m ctx = (Normal a, ctx1, []) -> bind m k ctx = k a ctx1.
Proof. unfold bind. intros ->. by destruct (k a ctx1) as [[? ?] ?]. Qed.

Lemma bind_normal_trace {A B} (m : M A) (k : A -> M B)
    (ctx ctx1 : SanitizationContext) (a : A) (tr : list event) :
  m ctx = (Normal a, ctx1, tr) ->
  bind m k ctx
  = match k a ctx1 with (r, ctx2, tr2) => (r, ctx2, tr ++ tr2) end.
Proof. unfold bind. by intros ->. Qed.

Lemma bind_throw {A B} (m : M A) (k : A -> M B) (ctx ctx1 : SanitizationContext)
    (t : thrown) (tr : list event) :
  m ctx = (Throw t, ctx1, tr) -> bind m k ctx = (Throw t, ctx1, tr).
Proof. unfold bind. by intros ->. Qed.

Lemma bind_get_ctx {B} (k : SanitizationContext -> M B) (ctx : SanitizationContext) :
  bind get_ctx k ctx = k ctx ctx.
Proof. by apply bind_normal. Qed.

(** ** Single nodes *)

(** A custom function short-circuits the dispatch. *)
Lemma sanitizeValue_custom purify (value : jsvalue) (ctx : SanitizationContext)
    (sanitizer : jsvalue -> completion jsvalue) :
  shouldSanitizeField (fieldPath_of ctx) (ctx_options ctx) = true ->
  custom_sanitizer (getFieldConfig (fieldPath_of ctx) (ctx_options ctx))
  = Some sanitizer ->
  sanitizeValue purify value ctx
  = match sanitizer value with
    | Normal sanitized =>
        (Normal sanitized, ctx,
         calls (onSanitize (ctx_options ctx))
               (EvSanitize (fieldPath_of ctx) value sanitized))
    | Throw t =>
        match as_Error t with
        | Normal err =>
            if throwOnError (ctx_options ctx)
            then (Throw (ThrownError err), ctx, [])
            else (Normal value, ctx,
                  calls (onError (ctx_options ctx)) (EvError err (fieldPath_of ctx)))
        | Throw e => (Throw e, ctx, [])
        end
    end.
Proof.
  intros Hscope Hcustom. rewrite sanitizeValue_unfold. run_walker.
  rewrite Hscope, Hcustom. simpl.
  assert (Hskip : is_skip (getFieldConfig (JSString.join "." (path ctx))
                             (ctx_options ctx)) = false).
  { unfold custom_sanitizer, is_skip in *.
    destruct (getFieldConfig _ _) as [fc|]; [|done].
    by destruct (fc_mode fc). }
  rewrite Hskip. simpl.
  destruct (sanitizer value) as [sanitized|t]; simpl.
  - by destruct (onSanitize _).
  - destruct (as_Error t) as [err|e]; [|done].
    destruct (throwOnError _); [done|]. simpl. by destruct (onError _).
Qed.



Lemma as_Error_throws (t e : thrown) :
  as_Error t = Throw e -> e = TypeError_primitive /\ catchable t = false.
Proof.
  destruct t as [message|v]; [done|]. simpl. unfold js_String.
  destruct (convertible v); [done|]. by intros [= <-].
Qed.

(** Past the skip test and the custom branch only the type of the value
    decides. *)
Lemma sanitizeValue_walks purify (value : jsvalue) (ctx : SanitizationContext) :
  walks ctx ->
  sanitizeValue purify value ctx
  = try_catch
      match value with
      | VStr s => bind (sanitizeStringValue purify s (fieldPath_of ctx)
                          (node_mode ctx) (node_config ctx))
                       (fun sanitized => ret (VStr sanitized))
      | VArr items =>
          sanitizeArrayValue purify (sanitizeValue purify) items (fieldPath_of ctx)
                             (node_mode ctx) (node_config ctx)
      | VObj entries =>
          if deep (ctx_options ctx)
          then sanitizeObjectValue (sanitizeValue purify) entries (fieldPath_of ctx)
          else ret value
      | _ => ret value
      end
      (handle_error value (fieldPath_of ctx) (ctx_options ctx)) ctx.
Proof.
  intros (Hscope & Hskip & Hcustom). rewrite sanitizeValue_unfold.
  unfold sanitizeValue_body. rewrite bind_get_ctx.
  fold (fieldPath_of ctx). fold (node_entry ctx).
  unfold try_catch. rewrite (bind_normal _ _ ctx ctx false).
  - by rewrite Hcustom.
  - unfold shouldSkipField. rewrite bind_get_ctx. by rewrite Hscope, Hskip.
Qed.

Lemma sanitizeStringValue_run purify (s fieldPath : string) (m : SanitizationMode)
    (c : option DOMPurifyConfig) (ctx : SanitizationContext) :
  sanitizeStringValue purify s fieldPath m c ctx
  = (Normal (sanitizeString purify s m c), ctx,
     if JSString.eqb (sanitizeString purify s m c) s then []
     else calls (onSanitize (ctx_options ctx))
                (EvSanitize fieldPath (VStr s) (VStr (sanitizeString purify s m c)))).
Proof.
  unfold sanitizeStringValue. rewrite bind_get_ctx.
  destruct (JSString.eqb _ s); simpl; [done|].
  unfold bind, notify, ret, calls. simpl. by rewrite app_nil_r.
Qed.

Lemma sanitizeValue_string purify (s : string) (ctx : SanitizationContext) :
  walks ctx ->
  sanitizeValue purify (VStr s) ctx
  = (Normal (VStr (sanitizeString purify s (node_mode ctx) (node_config ctx))), ctx,
     if JSString.eqb (sanitizeString purify s (node_mode ctx) (node_config ctx)) s
     then []
     else calls (onSanitize (ctx_options ctx))
            (EvSanitize (fieldPath_of ctx) (VStr s)
               (VStr (sanitizeString purify s (node_mode ctx) (node_config ctx))))).
Proof.
  intros Hwalks. rewrite sanitizeValue_walks by done.
  unfold try_catch.
  rewrite (bind_normal_trace _ _ _ _ _ _ (sanitizeStringValue_run _ _ _ _ _ _)).
  unfold ret. by rewrite app_nil_r.
Qed.

Lemma sanitizeValue_passes_through purify (value : jsvalue) (ctx : SanitizationContext) :
  walks ctx -> passes_through value (ctx_options ctx) = true ->
  sanitizeValue purify value ctx = (Normal value, ctx, []).
Proof.
  intros Hwalks Hpass. rewrite sanitizeValue_walks by done.
  destruct value; try done.
  simpl in Hpass. apply negb_true_iff in Hpass. by rewrite Hpass.
Qed.

Lemma sanitizeValue_array_skip purify (items : list jsvalue) (ctx : SanitizationContext) :
  walks ctx -> arrays (ctx_options ctx) = arrays_skip ->
  sanitizeValue purify (VArr items) ctx
  = (Normal (VArr items), ctx,
     calls (onSkip (ctx_options ctx))
           (EvSkip (fieldPath_of ctx) (SkipValue (VArr items)))).
Proof.
  intros Hwalks Harr. rewrite sanitizeValue_walks by done.
  unfold try_catch, sanitizeArrayValue. rewrite bind_get_ctx, Harr.
  unfold bind, notify, ret, calls. simpl. by rewrite app_nil_r.
Qed.

Lemma sanitizeValue_array_join purify (items : list jsvalue) (ctx : SanitizationContext) :
  walks ctx -> arrays (ctx_options ctx) = arrays_join ->
  forallb convertible items = true ->
  sanitizeValue purify (VArr items) ctx
  = (Normal (VStr (sanitizeString purify (array_join " " items)
                     (node_mode ctx) (node_config ctx))), ctx,
     calls (onSanitize (ctx_options ctx))
       (EvSanitize (fieldPath_of ctx) (VArr items)
          (VStr (sanitizeString purify (array_join " " items)
                   (node_mode ctx) (node_config ctx))))).
Proof.
  intros Hwalks Harr Hconv. rewrite sanitizeValue_walks by done.
  unfold try_catch, sanitizeArrayValue. rewrite bind_get_ctx, Harr.
  unfold js_join. rewrite Hconv.
  unfold bind, builtin, notify, ret, calls. simpl. by rewrite app_nil_r.
Qed.

(** [join] on an array with an element that [String()] cannot convert: the
    [TypeError] reaches the [catch] block of the same call. *)
Lemma sanitizeValue_array_unjoinable purify (items : list jsvalue)
    (ctx : SanitizationContext) :
  walks ctx -> arrays (ctx_options ctx) = arrays_join ->
  forallb convertible items = false ->
  sanitizeValue purify (VArr items) ctx
  = if throwOnError (ctx_options ctx)
    then (Throw TypeError_primitive, ctx, [])
    else (Normal (VArr items), ctx,
          calls (onError (ctx_options ctx))
                (EvError "Cannot convert object to primitive value" (fieldPath_of ctx))).
Proof.
  intros Hwalks Harr Hconv. rewrite sanitizeValue_walks by done.
  unfold try_catch, sanitizeArrayValue. rewrite bind_get_ctx, Harr.
  unfold js_join. rewrite Hconv.
  unfold handle_error, bind, builtin, notify, ret, calls, throw. simpl.
  destruct (throwOnError (ctx_options ctx)); [done|].
  simpl. by rewrite app_nil_r.
Qed.

(** A plain object met when the depth counter has reached the bound. *)
Lemma sanitizeValue_too_deep purify (entries : list (string * jsvalue))
    (ctx : SanitizationContext) :
  walks ctx -> deep (ctx_options ctx) = true ->
  (currentDepth ctx >= maxDepth (ctx_options ctx))%Z ->
  sanitizeValue purify (VObj entries) ctx
  = if throwOnError (ctx_options ctx)
    then (Throw (ThrownError (depth_error (ctx_options ctx) (fieldPath_of ctx))),
          ctx, [])
    else (Normal (VObj entries), ctx,
          calls (onError (ctx_options ctx))
                (EvError (depth_error (ctx_options ctx) (fieldPath_of ctx))
                         (fieldPath_of ctx))).
Proof.
  intros Hwalks Hdeep Hdepth. rewrite sanitizeValue_walks by done.
  rewrite Hdeep. unfold try_catch, sanitizeObjectValue. rewrite bind_get_ctx.
  assert (Hge : (currentDepth ctx >=? maxDepth (ctx_options ctx))%Z = true)
    by (apply Z.geb_le; lia).
  rewrite Hge. unfold handle_error.
  destruct (throwOnError (ctx_options ctx)); [done|].
  unfold bind, notify, ret, calls. simpl. by rewrite app_nil_r.
Qed.

(** ** The three loops, when every child returns normally *)

Lemma ctx_eta (ctx : SanitizationContext) :
  {| ctx_options := ctx_options ctx; currentDepth := currentDepth ctx;
     path := path ctx |} = ctx.
Proof. by destruct ctx. Qed.

Lemma object_child_restored (ctx : SanitizationContext) (key : string) :
  {| ctx_options := ctx_options (object_child ctx key);
     currentDepth := (currentDepth (object_child ctx key) - 1)%Z;
     path := removelast (path (object_child ctx key)) |} = ctx.
Proof.
  simpl. rewrite removelast_last. rewrite Z.add_simpl_r. apply ctx_eta.
Qed.

Lemma array_child_restored (ctx : SanitizationContext) (index : nat) :
  {| ctx_options := ctx_options (array_child ctx index);
     currentDepth := currentDepth (array_child ctx index);
     path := removelast (path (array_child ctx index)) |} = ctx.
Proof. simpl. rewrite removelast_last. apply ctx_eta. Qed.

Lemma own_entries_cons (key : string) (v : jsvalue) (rest : list (string * jsvalue)) :
  own_entries ((key, v) :: rest)
  = if String.eqb key "__proto__" then own_entries rest else (key, v) :: own_entries rest.
Proof. unfold own_entries. simpl. by destruct (String.eqb key "__proto__"). Qed.

(** What the assignments of a loop add to the result. *)
Lemma set_property_own (sanitized : list (string * jsvalue)) (key : string) (v : jsvalue)
    (f : string * jsvalue -> string * jsvalue) (e : string * jsvalue)
    (rest : list (string * jsvalue)) :
  e.1 = key -> f e = (key, v) ->
  set_property sanitized key v ++ map f (own_entries rest)
  = sanitized ++ map f (own_entries (e :: rest)).
Proof.
  destruct e as [k x]. cbn [fst]. intros -> Hf. rewrite own_entries_cons.
  unfold set_property. destruct (String.eqb key "__proto__"); [done|].
  cbn [map]. rewrite Hf. by rewrite <- app_assoc.
Qed.

Lemma each_entry_normal (rec : jsvalue -> M jsvalue) (ctx : SanitizationContext)
    (f : string -> jsvalue -> jsvalue) (g : string -> jsvalue -> list event)
    (entries : list (string * jsvalue)) :
  Forall (fun e => rec e.2 (object_child ctx e.1)
                   = (Normal (f e.1 e.2), object_child ctx e.1, g e.1 e.2)) entries ->
  forall sanitized,
    each_entry rec entries sanitized ctx
    = (Normal (sanitized ++ map (fun e => (e.1, f e.1 e.2)) (own_entries entries)), ctx,
       flat_map (fun e => g e.1 e.2) entries).
Proof.
  induction 1 as [|[key val] rest Hhead _ IH]; intros sanitized.
  - simpl. unfold ret. by rewrite app_nil_r.
  - cbn [each_entry]. simpl in Hhead.
    erewrite (bind_normal (path_push key)); [|reflexivity].
    erewrite (bind_normal depth_incr); [|reflexivity].
    erewrite (bind_normal_trace (rec val)); [|exact Hhead].
    erewrite (bind_normal depth_decr); [|reflexivity].
    erewrite (bind_normal path_pop); [|reflexivity].
    match goal with
    | |- context [each_entry rec rest _ ?c] =>
        replace c with ctx by (symmetry; apply object_child_restored)
    end.
    rewrite IH. simpl.
    by rewrite (set_property_own sanitized key (f key val) _ (key, val)).
Qed.

Lemma each_item_normal (rec : jsvalue -> M jsvalue) (ctx : SanitizationContext)
    (f : nat -> jsvalue -> jsvalue) (g : nat -> jsvalue -> list event)
    (items : list jsvalue) (index : nat) :
  (forall i item, items !! i = Some item ->
     rec item (array_child ctx (index + i))
     = (Normal (f (index + i)%nat item), array_child ctx (index + i), g (index + i)%nat item)) ->
  each_item rec items index ctx
  = (Normal (imap (fun i => f (index + i)%nat) items), ctx,
     concat (imap (fun i => g (index + i)%nat) items)).
Proof.
  revert index. induction items as [|item rest IH]; intros index Hall.
  - reflexivity.
  - cbn [each_item].
    pose proof (Hall 0%nat item eq_refl) as Hhead. rewrite Nat.add_0_r in Hhead.
    erewrite (bind_normal (path_push (pretty index))); [|reflexivity].
    erewrite (bind_normal_trace (rec item)); [|exact Hhead].
    erewrite (bind_normal path_pop); [|reflexivity].
    rewrite array_child_restored.
    assert (Hrest : forall i x, rest !! i = Some x ->
              rec x (array_child ctx (S index + i))
              = (Normal (f (S index + i)%nat x), array_child ctx (S index + i),
                 g (S index + i)%nat x)).
    { intros i x Hi.
      replace (S index + i)%nat with (index + S i)%nat by lia. by apply Hall. }
    rewrite (bind_normal_trace _ _ _ _ _ _ (IH (S index) Hrest)).
    unfold ret. cbn [imap concat]. rewrite app_nil_r, Nat.add_0_r.
    rewrite (imap_ext ((fun i => f (index + i)%nat) ∘ S) (fun i => f (S index + i)%nat)),
            (imap_ext ((fun i => g (index + i)%nat) ∘ S) (fun i => g (S index + i)%nat)).
    + reflexivity.
    + intros i x _. simpl. f_equal. lia.
    + intros i x _. simpl. f_equal. lia.
Qed.

Lemma target_entries_normal purify (opts : options)
    (f : string -> jsvalue -> jsvalue) (g : string -> jsvalue -> list event)
    (entries : list (string * jsvalue)) :
  Forall (fun e => sanitizeValue purify e.2 (target_child opts e.1)
                   = (Normal (f e.1 e.2), target_child opts e.1, g e.1 e.2)) entries ->
  forall sanitized,
    target_entries purify entries sanitized (root_ctx opts)
    = (Normal (sanitized ++ map (fun e => (e.1, f e.1 e.2)) (own_entries entries)),
       root_ctx opts, flat_map (fun e => g e.1 e.2) entries).
Proof.
  induction 1 as [|[key val] rest Hhead _ IH]; intros sanitized.
  - simpl. unfold ret. by rewrite app_nil_r.
  - cbn [target_entries]. simpl in Hhead.
    erewrite (bind_normal (path_push key)); [|reflexivity].
    erewrite (bind_normal_trace (sanitizeValue purify val)); [|exact Hhead].
    erewrite (bind_normal path_pop); [|reflexivity].
    match goal with
    | |- context [target_entries purify rest _ ?c] => change c with (root_ctx opts)
    end.
    rewrite IH. simpl.
    by rewrite (set_property_own sanitized key (f key val) _ (key, val)).
Qed.

(** ** Skipped nodes and the [onSkip] observer *)

(** C5 (the code departs from it): when a node is skipped because its path
    is out of scope, or because its field configuration has mode [skip], the
    installed [onSkip] observer is called with the field path and with
    [ctx.path], the array of path segments, not with the value of the node. *)
Theorem onSkip_receives_ctx_path purify (value : jsvalue) (ctx : SanitizationContext) :
  onSkip (ctx_options ctx) = true ->
  shouldSanitizeField (fieldPath_of ctx) (ctx_options ctx) = false
  \/ is_skip (node_entry ctx) = true ->
  trace_of (sanitizeValue purify value ctx)
  = [EvSkip (fieldPath_of ctx) (SkipCtxPath (path ctx))]
  /\ ~ In (EvSkip (fieldPath_of ctx) (SkipValue value))
          (trace_of (sanitizeValue purify value ctx)).
Proof.
  intros Hobs Hskip. rewrite sanitizeValue_skipped by done.
  unfold trace_of, calls. rewrite Hobs. split; [done|].
  intros [H|[]]. discriminate.
Qed.

Lemma onSkip_receives_ctx_path_witness :
  trace_of (sanitizeValue demo_purify (VStr "<script>keep</script>")
              (target_child blacklist_demo "metadata"))
  = [EvSkip "metadata" (SkipCtxPath ["metadata"])]
  /\ ~ In (EvSkip "metadata" (SkipValue (VStr "<script>keep</script>")))
          (trace_of (sanitizeValue demo_purify (VStr "<script>keep</script>")
                       (target_child blacklist_demo "metadata"))).
Proof.
  apply (onSkip_receives_ctx_path demo_purify (VStr "<script>keep</script>")
           (target_child blacklist_demo "metadata")).
  - reflexivity.
  - left. reflexivity.
Defined.

Example onSkip_blacklisted_target :
  sanitizeTarget demo_purify [("metadata", VStr "<script>keep</script>")] blacklist_demo
  = (Normal [("metadata", VStr "<script>keep</script>")],
     [EvSkip "metadata" (SkipCtxPath ["metadata"])]).
Proof. vm_compute. reflexivity. Qed.

Example onSkip_field_mode_skip :
  sanitizeTarget demo_purify [("metadata", VStr "<script>keep</script>")] field_skip_demo
  = (Normal [("metadata", VStr "<script>keep</script>")],
     [EvSkip "metadata" (SkipCtxPath ["metadata"])]).
Proof. vm_compute. reflexivity. Qed.

(** The array strategy [skip] does pass the value. *)
Example onSkip_array_strategy :
  sanitizeTarget demo_purify [("tags", VArr [VStr "<b>a</b>"])]
                 (set_arrays arrays_skip observed)
  = (Normal [("tags", VArr [VStr "<b>a</b>"])],
     [EvSkip "tags" (SkipValue (VArr [VStr "<b>a</b>"]))]).
Proof. vm_compute. reflexivity. Qed.

(** C6, as stated, fails: with [skip] as the global default mode an
    in-scope string node is returned unchanged without any [onSkip] call. *)
Lemma global_skip_counterexample :
  shouldSanitizeField "note" global_skip_demo = true
  /\ node_mode (target_child global_skip_demo "note") = skip
  /\ onSkip global_skip_demo = true
  /\ sanitizeValue demo_purify (VStr "<b>hi</b>") (target_child global_skip_demo "note")
     = (Normal (VStr "<b>hi</b>"), target_child global_skip_demo "note", [])
  /\ ~ exists arg,
         In (EvSkip "note" arg)
            (trace_of (sanitizeValue demo_purify (VStr "<b>hi</b>")
                         (target_child global_skip_demo "note"))).
Proof.
  repeat split; try reflexivity. intros [arg H]. vm_compute in H. exact H.
Qed.

(** C6, amended: an in-scope node whose field-level configuration (the
    exact entry or the nearest ancestor's) has mode [skip] is returned
    unchanged and the only observer call is the [onSkip] notification for its
    path.  When [skip] is only the global default mode, the mode makes no
    [onSkip] call: every value that is neither an array nor a plain object
    (and a plain object when deep traversal is off) is returned unchanged
    with no observer call, while an array is handled by the array strategy:
    the strategy [skip] returns it unchanged with its own [onSkip] call, the
    strategy [join] replaces it, when [String()] converts its elements, by
    the joined text, left as it is, with an [onSanitize] call. *)
Theorem skip_mode_field_level purify (ctx : SanitizationContext) :
  shouldSanitizeField (fieldPath_of ctx) (ctx_options ctx) = true ->
  (forall (fc : FieldConfig) (value : jsvalue),
     node_entry ctx = Some fc -> fc_mode fc = skip ->
     exists arg,
       sanitizeValue purify value ctx
       = (Normal value, ctx,
          calls (onSkip (ctx_options ctx)) (EvSkip (fieldPath_of ctx) arg)))
  /\ (node_entry ctx = None -> mode (ctx_options ctx) = skip ->
      (forall value,
         isArray value = false ->
         isPlainObject value = false \/ deep (ctx_options ctx) = false ->
         sanitizeValue purify value ctx = (Normal value, ctx, []))
      /\ (forall items,
            arrays (ctx_options ctx) = arrays_skip ->
            sanitizeValue purify (VArr items) ctx
            = (Normal (VArr items), ctx,
               calls (onSkip (ctx_options ctx))
                     (EvSkip (fieldPath_of ctx) (SkipValue (VArr items)))))
      /\ (forall items,
            arrays (ctx_options ctx) = arrays_join ->
            forallb convertible items = true ->
            sanitizeValue purify (VArr items) ctx
            = (Normal (VStr (array_join " " items)), ctx,
               calls (onSanitize (ctx_options ctx))
                     (EvSanitize (fieldPath_of ctx) (VArr items)
                                 (VStr (array_join " " items)))))).
Proof.
  intros Hscope. split.
  - intros fc value Hentry Hmode. exists (SkipCtxPath (path ctx)).
    apply sanitizeValue_skipped. right. unfold node_entry in Hentry.
    rewrite Hentry. simpl. by rewrite Hmode.
  - intros Hentry Hmode.
    assert (Hwalks : walks ctx).
    { unfold walks. fold (node_entry ctx). by rewrite Hentry. }
    assert (Hnode : node_mode ctx = skip).
    { unfold node_mode. by rewrite Hentry. }
    split; [|split].
    + intros value Harr Hobj.
      destruct value as [| | | |s| |entries|]; try done;
        try (by apply sanitizeValue_passes_through).
      * rewrite sanitizeValue_string by done. rewrite Hnode. simpl.
        unfold JSString.eqb. by rewrite String.eqb_refl.
      * destruct Hobj as [Hobj|Hdeep]; [done|].
        apply sanitizeValue_passes_through; [done|]. simpl. by rewrite Hdeep.
    + intros items Harr. by apply sanitizeValue_array_skip.
    + intros items Harr Hconv. rewrite sanitizeValue_array_join by done.
      by rewrite Hnode.
Qed.

Lemma skip_mode_field_level_witness :
  exists arg,
    sanitizeValue demo_purify (VStr "<b>raw</b>") (target_child field_skip_demo "metadata")
    = (Normal (VStr "<b>raw</b>"), target_child field_skip_demo "metadata",
       calls (onSkip field_skip_demo) (EvSkip "metadata" arg)).
Proof.
  refine (proj1 (skip_mode_field_level demo_purify
                   (target_child field_skip_demo "metadata") eq_refl)
            skip_entry (VStr "<b>raw</b>") _ eq_refl).
  vm_compute. reflexivity.
Defined.

(** ** The [onSanitize] observer *)

(** C7: a string node transformed in [strict] (strip-all) or [html]
    (allow-list) mode is replaced by what [DOMPurify.sanitize] returns, and
    the installed [onSanitize] observer is called with (path, original,
    result) when the result differs from the input and not called when it is
    equal; a node whose field configuration is [custom] with a function is
    replaced by the function's result and [onSanitize] is called whatever the
    result is, also when it equals the input. *)
Theorem onSanitize_calls purify (ctx : SanitizationContext) :
  onSanitize (ctx_options ctx) = true ->
  (forall s : string,
     walks ctx -> node_mode ctx = strict \/ node_mode ctx = html ->
     exists sanitized,
       sanitized = sanitizeString purify s (node_mode ctx) (node_config ctx)
       /\ (node_mode ctx = strict -> sanitized = purify s strip_all_config)
       /\ (sanitized <> s ->
           sanitizeValue purify (VStr s) ctx
           = (Normal (VStr sanitized), ctx,
              [EvSanitize (fieldPath_of ctx) (VStr s) (VStr sanitized)]))
       /\ (sanitized = s ->
           sanitizeValue purify (VStr s) ctx = (Normal (VStr s), ctx, [])))
  /\ (forall (fc : FieldConfig) (sanitizer : jsvalue -> completion jsvalue)
             (value result : jsvalue),
        shouldSanitizeField (fieldPath_of ctx) (ctx_options ctx) = true ->
        node_entry ctx = Some fc -> fc_mode fc = custom ->
        fc_sanitizer fc = Some sanitizer ->
        sanitizer value = Normal result ->
        sanitizeValue purify value ctx
        = (Normal result, ctx, [EvSanitize (fieldPath_of ctx) value result])).
Proof.
  intros Hobs. split.
  - intros s Hwalks Hmode. eexists. split; [reflexivity|].
    split; [by intros ->|].
    rewrite sanitizeValue_string by done. unfold JSString.eqb, calls.
    rewrite Hobs. split; intros Hres.
    + apply String.eqb_neq in Hres. by rewrite Hres.
    + rewrite Hres at 1 2. by rewrite String.eqb_refl.
  - intros fc sanitizer value result Hscope Hentry Hmode Hfn Hres.
    rewrite (sanitizeValue_custom purify value ctx sanitizer); [|done|].
    + rewrite Hres. unfold calls. by rewrite Hobs.
    + fold (node_entry ctx). rewrite Hentry. simpl. by rewrite Hmode.
Qed.

Lemma onSanitize_calls_witness :
  sanitizeValue demo_purify (VStr "abc") (target_child custom_identity_demo "pwd")
  = (Normal (VStr "abc"), target_child custom_identity_demo "pwd",
     [EvSanitize "pwd" (VStr "abc") (VStr "abc")]).
Proof.
  refine (proj2 (onSanitize_calls demo_purify
                   (target_child custom_identity_demo "pwd") eq_refl)
            identity_entry (fun v => Normal v) (VStr "abc") (VStr "abc")
            eq_refl _ eq_refl eq_refl eq_refl).
  vm_compute. reflexivity.
Defined.

Example onSanitize_changed_string :
  sanitizeTarget demo_purify [("name", VStr "<b>John</b>")] observed
  = (Normal [("name", VStr "John")],
     [EvSanitize "name" (VStr "<b>John</b>") (VStr "John")]).
Proof. vm_compute. reflexivity. Qed.

Example onSanitize_unchanged_string :
  sanitizeTarget demo_purify [("message", VStr "Hello")] observed
  = (Normal [("message", VStr "Hello")], []).
Proof. vm_compute. reflexivity. Qed.

(** ** The array strategy [join] *)





Example join_scenario :
  sanitizeTarget demo_purify [("tags", VArr [VStr "<b>a</b>"; VStr "<i>b</i>"])] join_demo
  = (Normal [("tags", VStr "a b")],
     [EvSanitize "tags" (VArr [VStr "<b>a</b>"; VStr "<i>b</i>"]) (VStr "a b")]).
Proof. vm_compute. reflexivity. Qed.

(** ** Values that are neither strings, arrays nor plain objects *)

(** C9, as stated, fails: a number under a field-level custom function is
    replaced by what the function returns. *)
Lemma custom_number_counterexample :
  isString (VNum "5") = false /\ isArray (VNum "5") = false
  /\ isPlainObject (VNum "5") = false
  /\ sanitizeValue demo_purify (VNum "5") (target_child custom_constant_demo "price")
     = (Normal (VStr "n/a"), target_child custom_constant_demo "price",
        [EvSanitize "price" (VNum "5") (VStr "n/a")])
  /\ result_value (sanitizeValue demo_purify (VNum "5")
                     (target_child custom_constant_demo "price")) <> VNum "5".
Proof. repeat split; try reflexivity. vm_compute. discriminate. Qed.

(** C9, amended: a value that is neither a string, an array nor a plain
    object is returned as it is by [sanitizeValue], with no [onSanitize] call,
    whenever no field-level custom function applies to its path; when one
    applies and returns, its result is returned instead. *)
Theorem other_types_pass_through purify (value : jsvalue) (ctx : SanitizationContext) :
  isString value = false -> isArray value = false -> isPlainObject value = false ->
  (custom_sanitizer (node_entry ctx) = None ->
   exists tr,
     sanitizeValue purify value ctx = (Normal value, ctx, tr)
     /\ Forall is_skip_call tr
     /\ (walks ctx -> tr = []))
  /\ (forall sanitizer result,
        shouldSanitizeField (fieldPath_of ctx) (ctx_options ctx) = true ->
        custom_sanitizer (node_entry ctx) = Some sanitizer ->
        sanitizer value = Normal result ->
        result_value (sanitizeValue purify value ctx) = result).
Proof.
  intros Hstr Harr Hobj. split.
  - intros Hcustom.
    destruct (shouldSanitizeField (fieldPath_of ctx) (ctx_options ctx)) eqn:Hscope;
      [destruct (is_skip (node_entry ctx)) eqn:Hskip|].
    + eexists. split; [apply sanitizeValue_skipped; by right|]. split.
      * unfold calls. destruct (onSkip _); repeat constructor. by eexists _, _.
      * intros (_ & Hno & _). congruence.
    + exists []. split; [|by split].
      apply sanitizeValue_passes_through; [done|]. by destruct value.
    + eexists. split; [apply sanitizeValue_skipped; by left|]. split.
      * unfold calls. destruct (onSkip _); repeat constructor. by eexists _, _.
      * intros (Hyes & _). congruence.
  - intros sanitizer result Hscope Hcustom Hres.
    rewrite (sanitizeValue_custom purify value ctx sanitizer) by done.
    by rewrite Hres.
Qed.

Lemma other_types_pass_through_witness :
  exists tr,
    sanitizeValue demo_purify (VNum "42") (target_child observed "count")
    = (Normal (VNum "42"), target_child observed "count", tr)
    /\ Forall is_skip_call tr
    /\ (walks (target_child observed "count") -> tr = []).
Proof.
  exact (proj1 (other_types_pass_through demo_purify (VNum "42")
                  (target_child observed "count") eq_refl eq_refl eq_refl) eq_refl).
Defined.

(** ** A whitelist of nested paths only *)

Lemma has_char_app (c : ascii) (a b : string) :
  JSString.has_char c (a +:+ b) = JSString.has_char c a || JSString.has_char c b.
Proof.
  induction a as [|x a IH]; [done|].
  rewrite append_cons. simpl. rewrite IH. by rewrite orb_assoc.
Qed.

Lemma dotted_pattern_no_match (key pattern : string) :
  JSString.has_char dot key = false -> JSString.has_char dot pattern = true ->
  matches_pattern key pattern = false.
Proof.
  intros Hkey Hpat. apply not_true_is_false. intros [->|[rest ->]]%matches_pattern_iff.
  - congruence.
  - rewrite has_char_app, Hpat in Hkey. done.
Qed.

Lemma map_entries_id (entries : list (string * jsvalue)) :
  map (fun e : string * jsvalue => (e.1, e.2)) entries = entries.
Proof. induction entries as [|[k v] rest IH]; [done|]. simpl. by rewrite IH. Qed.

(** C10, as stated, fails: a top-level key that itself contains dots can
    equal a nested whitelist entry, and its field is then transformed. *)
Lemma dotted_key_counterexample :
  non_empty (whitelist nested_whitelist_demo) = true
  /\ Forall (fun entry => JSString.has_char dot entry = true)
            (entries_of (whitelist nested_whitelist_demo))
  /\ sanitizeTarget demo_purify [("user.profile.bio", VStr "<p>hi</p>")]
                    nested_whitelist_demo
     = (Normal [("user.profile.bio", VStr "hi")],
        [EvSanitize "user.profile.bio" (VStr "<p>hi</p>") (VStr "hi")])
  /\ fst (sanitizeTarget demo_purify [("user.profile.bio", VStr "<p>hi</p>")]
                         nested_whitelist_demo)
     <> Normal [("user.profile.bio", VStr "<p>hi</p>")].
Proof.
  split; [reflexivity|]. split; [by repeat constructor|].
  split; [vm_compute; reflexivity|]. vm_compute. discriminate.
Qed.

Lemma own_entries_In (e : string * jsvalue) (entries : list (string * jsvalue)) :
  In e (own_entries entries) <-> In e entries /\ e.1 <> "__proto__".
Proof.
  unfold own_entries. rewrite filter_In, negb_true_iff.
  by rewrite String.eqb_neq.
Qed.

Lemma own_entries_all (entries : list (string * jsvalue)) :
  Forall (fun e => e.1 <> "__proto__") entries -> own_entries entries = entries.
Proof.
  induction 1 as [|[k v] rest Hk _ IH]; [done|].
  rewrite own_entries_cons, IH. simpl in Hk.
  apply String.eqb_neq in Hk. by rewrite Hk.
Qed.

(** A top-level key ["__proto__"] is skipped like the others, and is then
    not an own property of the result. *)
Example nested_whitelist_proto_key :
  sanitizeTarget demo_purify
    [("__proto__", VObj [("isAdmin", VBool true)]); ("user", VStr "<p>hi</p>")]
    nested_whitelist_demo
  = (Normal [("user", VStr "<p>hi</p>")],
     [EvSkip "__proto__" (SkipCtxPath ["__proto__"]); EvSkip "user" (SkipCtxPath ["user"])]).
Proof. vm_compute. reflexivity. Qed.

(** C10, amended: when the non-empty whitelist holds only paths with a dot,
    [sanitizeTarget] returns unchanged every top-level field of an input
    whose top-level keys hold no dot, a field keyed ["__proto__"] apart,
    which the result never has as an own property: each top-level key fails
    the scope check and is skipped before any recursion, so nothing nested is
    reached, and the only observer calls are skip notifications. *)
Theorem nested_whitelist_skips_top_level purify (opts : options) (wl : list string)
    (target : list (string * jsvalue)) :
  whitelist opts = Some wl -> wl <> [] ->
  Forall (fun entry => JSString.has_char dot entry = true) wl ->
  Forall (fun e => JSString.has_char dot e.1 = false) target ->
  Forall (fun e => shouldSanitizeField e.1 opts = false) target
  /\ (exists tr,
        sanitizeTarget purify target opts = (Normal (own_entries target), tr)
        /\ Forall is_skip_call tr)
  /\ (forall e, In e (own_entries target) <-> In e target /\ e.1 <> "__proto__")
  /\ (Forall (fun e => e.1 <> "__proto__") target -> own_entries target = target).
Proof.
  intros Hwl Hne Hdotted Hkeys.
  assert (Hout : Forall (fun e => shouldSanitizeField e.1 opts = false) target).
  { eapply Forall_impl; [exact Hkeys|]. intros [k v] Hk. simpl in *.
    rewrite (shouldSanitizeField_whitelist opts wl) by done.
    apply not_true_is_false. intros (entry & Hin & Hm)%existsb_exists.
    rewrite Forall_forall in Hdotted.
    rewrite dotted_pattern_no_match in Hm; [done..|].
    apply Hdotted. by apply list_elem_of_In. }
  split; [done|].
  split; [|split; [intros e; apply own_entries_In | apply own_entries_all]].
  unfold sanitizeTarget. fold (root_ctx opts).
  rewrite (target_entries_normal purify opts (fun _ v => v)
             (fun k _ => calls (onSkip opts) (EvSkip k (SkipCtxPath [k])))).
  - simpl. rewrite map_entries_id. eexists. split; [reflexivity|].
    clear. induction target as [|[k v] rest IH]; [constructor|]. simpl.
    apply Forall_app. split; [|done].
    unfold calls. destruct (onSkip opts); repeat constructor. by eexists _, _.
  - eapply Forall_impl; [exact Hout|]. intros [k v] Hk. simpl in *.
    rewrite sanitizeValue_skipped; [reflexivity|]. by left.
Qed.

Lemma nested_whitelist_skips_top_level_witness :
  Forall (fun e => shouldSanitizeField e.1 nested_whitelist_demo = false)
         [("user", VObj [("profile", VObj [("bio", VStr "<p>hi</p>")])])]
  /\ exists tr,
       sanitizeTarget demo_purify
         [("user", VObj [("profile", VObj [("bio", VStr "<p>hi</p>")])])]
         nested_whitelist_demo
       = (Normal [("user", VObj [("profile", VObj [("bio", VStr "<p>hi</p>")])])], tr)
       /\ Forall is_skip_call tr.
Proof.
  pose proof (nested_whitelist_skips_top_level demo_purify nested_whitelist_demo
                ["user.profile.bio"]
                [("user", VObj [("profile", VObj [("bio", VStr "<p>hi</p>")])])]
                eq_refl) as H.
  refine (let H' := H _ _ _ in conj (proj1 H') (proj1 (proj2 H'))).
  - discriminate.
  - repeat constructor.
  - repeat constructor.
Defined.

(** ** Induction over nested values *)

Lemma jsvalue_nested_ind (P : jsvalue -> Prop) :
  P VUndefined -> P VNull -> (forall b, P (VBool b)) -> (forall repr, P (VNum repr)) ->
  (forall s, P (VStr s)) ->
  (forall items, Forall P items -> P (VArr items)) ->
  (forall entries, Forall (fun e => P e.2) entries -> P (VObj entries)) ->
  (forall repr, P (VOther repr)) ->
  forall v, P v.
Proof.
  intros Hundef Hnull Hbool Hnum Hstr Harr Hobj Hother.
  fix IH 1. intros [| |b|repr|s|items|entries|repr].
  - exact Hundef.
  - exact Hnull.
  - apply Hbool.
  - apply Hnum.
  - apply Hstr.
  - apply Harr. induction items as [|item rest IHrest]; constructor;
      [apply IH | exact IHrest].
  - apply Hobj. induction entries as [|[key val] rest IHrest]; constructor;
      [apply IH | exact IHrest].
  - apply Hother.
Qed.

(** ** The context discipline *)

Lemma each_entry_settled (rec : jsvalue -> M jsvalue) (opts : options)
    (entries : list (string * jsvalue)) :
  Forall (fun e => forall ctx, ctx_options ctx = opts -> settled ctx (rec e.2 ctx))
         entries ->
  forall sanitized ctx,
    ctx_options ctx = opts -> settled ctx (each_entry rec entries sanitized ctx).
Proof.
  induction 1 as [|[key val] rest Hhead _ IH]; intros sanitized ctx Hopts; [done|].
  cbn [each_entry]. simpl in Hhead.
  erewrite (bind_normal (path_push key)); [|reflexivity].
  erewrite (bind_normal depth_incr); [|reflexivity].
  specialize (Hhead (object_child ctx key) Hopts).
  destruct (rec val (object_child ctx key)) as [[[v|t] c1] tr1] eqn:E.
  - simpl in Hhead. subst c1.
    erewrite (bind_normal_trace (rec val)); [|exact E].
    erewrite (bind_normal depth_decr); [|reflexivity].
    erewrite (bind_normal path_pop); [|reflexivity].
    match goal with
    | |- context [each_entry rec rest _ ?c] =>
        replace c with ctx by (symmetry; apply object_child_restored)
    end.
    specialize (IH (set_property sanitized key v) ctx Hopts).
    by destruct (each_entry rec rest _ ctx) as [[[?|?] ?] ?].
  - erewrite (bind_throw (rec val)); [|exact E]. exact Hhead.
Qed.

Lemma each_item_settled (rec : jsvalue -> M jsvalue) (opts : options)
    (items : list jsvalue) :
  Forall (fun item => forall ctx, ctx_options ctx = opts -> settled ctx (rec item ctx))
         items ->
  forall index ctx,
    ctx_options ctx = opts -> settled ctx (each_item rec items index ctx).
Proof.
  induction 1 as [|item rest Hhead _ IH]; intros index ctx Hopts; [done|].
  cbn [each_item].
  erewrite (bind_normal (path_push (pretty index))); [|reflexivity].
  specialize (Hhead (array_child ctx index) Hopts).
  destruct (rec item (array_child ctx index)) as [[[v|t] c1] tr1] eqn:E.
  - simpl in Hhead. subst c1.
    erewrite (bind_normal_trace (rec item)); [|exact E].
    erewrite (bind_normal path_pop); [|reflexivity].
    rewrite array_child_restored.
    specialize (IH (S index) ctx Hopts). unfold bind, ret.
    by destruct (each_item rec rest (S index) ctx) as [[[?|?] ?] ?].
  - erewrite (bind_throw (rec item)); [|exact E]. exact Hhead.
Qed.

Lemma settled_guarded {A} (ctx : SanitizationContext)
    (r : completion A * SanitizationContext * list event) :
  settled ctx r -> guarded ctx r.
Proof. destruct r as [[[a|t] c] tr]; simpl; [done | by left]. Qed.

(** A run of the [try] block that respects the discipline still respects
    it after the [catch] block. *)
Lemma try_catch_settled (m : M jsvalue) (value : jsvalue) (ctx : SanitizationContext) :
  guarded ctx (m ctx) ->
  settled ctx (try_catch m (handle_error value (fieldPath_of ctx) (ctx_options ctx)) ctx).
Proof.
  unfold try_catch. destruct (m ctx) as [[[v|t] c1] tr1]; [done|].
  simpl. intros Hthrow. unfold handle_error, bind, builtin.
  destruct (as_Error t) as [err|e] eqn:E.
  - destruct (throwOnError (ctx_options ctx)) eqn:Hflag; [done|].
    destruct Hthrow as [?|[-> _]]; [done|]. done.
  - apply as_Error_throws in E as [_ E].
    destruct Hthrow as [?|[_ ?]]; [done | congruence].
Qed.

Lemma custom_throw_catchable (ctx : SanitizationContext)
    (sanitizer : jsvalue -> completion jsvalue) (value : jsvalue) (t : thrown) :
  throws_catchable (ctx_options ctx) ->
  custom_sanitizer (node_entry ctx) = Some sanitizer ->
  sanitizer value = Throw t -> catchable t = true.
Proof.
  intros Htame Hcustom Hthrow. unfold node_entry in Hcustom.
  destruct (getFieldConfig _ _) as [fc|] eqn:E; [|done].
  apply getFieldConfig_entry in E as [q Hq].
  by apply (Htame q fc sanitizer value t).
Qed.

(** With [throwOnError] on, or with custom functions that throw nothing
    the [catch] block fails on, every call respects the discipline. *)
Theorem sanitizeValue_settled purify (value : jsvalue) :
  forall ctx, safe (ctx_options ctx) -> settled ctx (sanitizeValue purify value ctx).
Proof.
  induction value as [| |b|repr|s|items IH|entries IH|repr] using jsvalue_nested_ind;
    intros ctx Hsafe.
  all: destruct (shouldSanitizeField (fieldPath_of ctx) (ctx_options ctx)) eqn:Hscope;
    [|by rewrite sanitizeValue_skipped by (by left)].
  all: destruct (is_skip (node_entry ctx)) eqn:Hskip;
    [by rewrite sanitizeValue_skipped by (by right)|].
  all: destruct (custom_sanitizer (node_entry ctx)) as [sanitizer|] eqn:Hcustom;
    [rewrite (sanitizeValue_custom _ _ _ sanitizer) by done;
     destruct (sanitizer _) as [?|t] eqn:Hcall; [done|];
     destruct (as_Error t) as [err|e] eqn:Herr;
     [by destruct (throwOnError (ctx_options ctx)) eqn:Hthrow|];
     apply as_Error_throws in Herr as [_ Herr];
     destruct Hsafe as [Hstrict|Htame]; [exact Hstrict|];
     rewrite (custom_throw_catchable ctx sanitizer _ t Htame Hcustom Hcall) in Herr;
     discriminate|].
  all: assert (Hwalks : walks ctx) by done.
  all: try by rewrite sanitizeValue_passes_through.
  - by rewrite sanitizeValue_string.
  - rewrite sanitizeValue_walks by done. apply try_catch_settled.
    unfold sanitizeArrayValue. rewrite bind_get_ctx.
    destruct (arrays (ctx_options ctx)); [done| |].
    + apply settled_guarded.
      assert (Hall : Forall (fun item => forall c, ctx_options c = ctx_options ctx ->
                                settled c (sanitizeValue purify item c)) items).
      { eapply Forall_impl; [exact IH|]. intros item Hitem c Hc. apply Hitem.
        by rewrite Hc. }
      pose proof (each_item_settled _ _ items Hall 0%nat ctx eq_refl) as Hloop.
      unfold bind, ret.
      by destruct (each_item _ items 0%nat ctx) as [[[?|?] ?] ?].
    + unfold bind, builtin, js_join.
      destruct (forallb convertible items); [done|]. simpl. by right.
  - rewrite sanitizeValue_walks by done. apply try_catch_settled.
    destruct (deep (ctx_options ctx)); [|done].
    unfold sanitizeObjectValue. rewrite bind_get_ctx.
    destruct (currentDepth ctx >=? maxDepth (ctx_options ctx))%Z.
    + destruct (throwOnError (ctx_options ctx)) eqn:Hthrow; [|done].
      simpl. rewrite Hthrow. by left.
    + apply settled_guarded.
      assert (Hall : Forall (fun e => forall c, ctx_options c = ctx_options ctx ->
                                settled c (sanitizeValue purify e.2 c)) entries).
      { eapply Forall_impl; [exact IH|]. intros e He c Hc. apply He.
        by rewrite Hc. }
      pose proof (each_entry_settled _ _ entries Hall [] ctx eq_refl) as Hloop.
      unfold bind, ret.
      by destruct (each_entry _ entries [] ctx) as [[[?|?] ?] ?].
Qed.

(** ** Error containment: every child is sanitized on its own *)

Lemma sanitizeValue_contained purify (value : jsvalue) (ctx : SanitizationContext) :
  throwOnError (ctx_options ctx) = false -> throws_catchable (ctx_options ctx) ->
  sanitizeValue purify value ctx
  = (Normal (result_value (sanitizeValue purify value ctx)), ctx,
     trace_of (sanitizeValue purify value ctx)).
Proof.
  intros Hcontain Htame.
  pose proof (sanitizeValue_settled purify value ctx (or_intror Htame)) as Hs.
  destruct (sanitizeValue purify value ctx) as [[[v|t] c] tr]; simpl in *.
  - by subst c.
  - congruence.
Qed.

Lemma sanitizeValue_object_each purify (entries : list (string * jsvalue))
    (ctx : SanitizationContext) :
  throwOnError (ctx_options ctx) = false -> throws_catchable (ctx_options ctx) ->
  walks ctx -> deep (ctx_options ctx) = true ->
  (currentDepth ctx < maxDepth (ctx_options ctx))%Z ->
  sanitizeValue purify (VObj entries) ctx
  = (Normal (VObj (map (entry_result purify ctx) (own_entries entries))), ctx,
     flat_map (entry_trace purify ctx) entries).
Proof.
  intros Hcontain Htame Hwalks Hdeep Hdepth. rewrite sanitizeValue_walks by done.
  rewrite Hdeep. unfold try_catch, sanitizeObjectValue. rewrite bind_get_ctx.
  assert (Hlt : (currentDepth ctx >=? maxDepth (ctx_options ctx))%Z = false)
    by (rewrite Z.geb_leb; apply Z.leb_gt; lia).
  rewrite Hlt.
  erewrite (bind_normal_trace (each_entry _ entries [])).
  - unfold ret. simpl. rewrite app_nil_r. reflexivity.
  - apply (each_entry_normal _ ctx
             (fun k v => result_value (sanitizeValue purify v (object_child ctx k)))
             (fun k v => trace_of (sanitizeValue purify v (object_child ctx k)))).
    apply Forall_forall. intros e _. by apply sanitizeValue_contained.
Qed.

Lemma sanitizeValue_array_each purify (items : list jsvalue) (ctx : SanitizationContext) :
  throwOnError (ctx_options ctx) = false -> throws_catchable (ctx_options ctx) ->
  walks ctx -> arrays (ctx_options ctx) = arrays_each ->
  sanitizeValue purify (VArr items) ctx
  = (Normal (VArr (imap (item_result purify ctx) items)), ctx,
     concat (imap (item_trace purify ctx) items)).
Proof.
  intros Hcontain Htame Hwalks Harr. rewrite sanitizeValue_walks by done.
  unfold try_catch, sanitizeArrayValue. rewrite bind_get_ctx, Harr.
  erewrite (bind_normal_trace (each_item _ items 0%nat)).
  - unfold ret. simpl. rewrite app_nil_r. reflexivity.
  - apply (each_item_normal _ ctx (item_result purify ctx) (item_trace purify ctx)).
    intros i item _. by apply sanitizeValue_contained.
Qed.

Lemma sanitizeTarget_contained purify (target : list (string * jsvalue)) (opts : options) :
  throwOnError opts = false -> throws_catchable opts ->
  sanitizeTarget purify target opts
  = (Normal (map (top_result purify opts) (own_entries target)),
     flat_map (top_trace purify opts) target).
Proof.
  intros Hcontain Htame. unfold sanitizeTarget. fold (root_ctx opts).
  rewrite (target_entries_normal purify opts
             (fun k v => result_value (sanitizeValue purify v (target_child opts k)))
             (fun k v => trace_of (sanitizeValue purify v (target_child opts k)))).
  - reflexivity.
  - apply Forall_forall. intros e _. by apply sanitizeValue_contained.
Qed.

(** ** Positions, contexts and depth *)

Lemma ctx_at_options (steps : list step) (ctx : SanitizationContext) :
  ctx_options (ctx_at ctx steps) = ctx_options ctx.
Proof.
  revert ctx. induction steps as [|[key|index] rest IH]; intros ctx; [done|..];
    simpl; by rewrite IH.
Qed.

Lemma ctx_at_path (steps : list step) (ctx : SanitizationContext) :
  path (ctx_at ctx steps) = path ctx ++ map segment steps.
Proof.
  revert ctx. induction steps as [|[key|index] rest IH]; intros ctx; simpl.
  - by rewrite app_nil_r.
  - rewrite IH. simpl. by rewrite <- app_assoc.
  - rewrite IH. simpl. by rewrite <- app_assoc.
Qed.

Lemma ctx_at_depth (steps : list step) (ctx : SanitizationContext) :
  currentDepth (ctx_at ctx steps) = (currentDepth ctx + nesting steps)%Z.
Proof.
  revert ctx. induction steps as [|[key|index] rest IH]; intros ctx; simpl.
  - lia.
  - rewrite IH. simpl. lia.
  - rewrite IH. simpl. lia.
Qed.




(** ** The depth bound *)





Lemma no_fields_throws_catchable (opts : options) :
  fields opts = None -> throws_catchable opts.
Proof. intros Hnone p fc sanitizer value t. unfold field_entry. by rewrite Hnone. Qed.


Example depth_scenario :
  sanitizeTarget demo_purify depth_target depth_demo
  = (Normal [("level1", VObj [("level2", VObj [("level3", VObj level3)]);
                              ("note", VStr "hi")])],
     [EvError "Maximum recursion depth (2) exceeded at path: level1.level2.level3"
              "level1.level2.level3";
      EvSanitize "level1.note" (VStr "<b>hi</b>") (VStr "hi")]).
Proof. vm_compute. reflexivity. Qed.

(** ** A throw escapes through every enclosing call *)








(** ** A custom function that throws *)


(** The same one object down: the [TypeError] leaves the call for
    [user.test] and the loop over the keys of [user] without the path being
    popped or the depth counter decremented; the call for [user] catches it,
    reports it at the path [user] and returns the object unmodified; and the
    next top-level key is visited at the path [user.bio] instead of [bio]. *)
Example unconvertible_throw_nested :
  sanitizeTarget demo_purify
    [("user", VObj [("test", VStr "value"); ("name", VStr "<b>John</b>")]);
     ("bio", VStr "<i>hi</i>")]
    nested_unconvertible_demo
  = (Normal [("user", VObj [("test", VStr "value"); ("name", VStr "<b>John</b>")]);
             ("bio", VStr "hi")],
     [EvError "Cannot convert object to primitive value" "user";
      EvSanitize "user.bio" (VStr "<i>hi</i>") (VStr "hi")]).
Proof. vm_compute. reflexivity. Qed.



Example failure_contained :
  sanitizeTarget demo_purify failure_target throwing_demo
  = (Normal [("name", VStr "John"); ("test", VStr "value"); ("bio", VStr "hi")],
     [EvSanitize "name" (VStr "<b>John</b>") (VStr "John");
      EvError "Test error" "test";
      EvSanitize "bio" (VStr "<i>hi</i>") (VStr "hi")]).
Proof. vm_compute. reflexivity. Qed.

Example failure_propagated :
  sanitizeTarget demo_purify failure_target (set_throwOnError true throwing_demo)
  = (Throw (ThrownError "Test error"),
     [EvSanitize "name" (VStr "<b>John</b>") (VStr "John")]).
Proof. vm_compute. reflexivity. Qed.

(** The failing field one object down: the call for [user.test] is made
    while the call for [user] runs, after the one for [user.name] returned. *)
Example failure_nested_invoked :
  invokes demo_purify
    (target_child nested_throwing_demo "user")
    (VObj ([("name", VStr "<b>John</b>")] ++ ("test", VStr "value") :: []))
    (object_child (target_child nested_throwing_demo "user") "test")
    (VStr "value").
Proof.
  apply invokes_entry.
  - repeat split; reflexivity.
  - reflexivity.
  - reflexivity.
  - repeat constructor. by eexists _, _, _.
  - apply invokes_here.
Qed.

Example failure_propagated_nested :
  sanitizeTarget demo_purify
    [("user", VObj [("name", VStr "<b>John</b>"); ("test", VStr "value")]);
     ("bio", VStr "<i>hi</i>")]
    nested_throwing_demo
  = (Throw (ThrownError "Test error"),
     [EvSanitize "user.name" (VStr "<b>John</b>") (VStr "John")]).
Proof. vm_compute. reflexivity. Qed.

(** * Further properties of the engine *)

(** ** Scope without a whitelist *)

(** X1: when the whitelist is absent or empty, a field path is out of
    scope exactly when it equals a blacklist entry or starts with an entry
    followed by a dot (so never, when the blacklist is absent or empty too);
    and the value at an out-of-scope path is handed back whole, whatever
    field configuration, custom function or nested content it has. *)
Theorem blacklist_scope purify (opts : options) (fieldPath : string) :
  non_empty (whitelist opts) = false ->
  (shouldSanitizeField fieldPath opts = false <->
     exists entry, In entry (entries_of (blacklist opts)) /\
       (fieldPath = entry \/ exists rest, fieldPath = entry +:+ "." +:+ rest))
  /\ (entries_of (blacklist opts) = [] -> shouldSanitizeField fieldPath opts = true)
  /\ (shouldSanitizeField fieldPath opts = false ->
      forall (value : jsvalue) (ctx : SanitizationContext),
        ctx_options ctx = opts -> fieldPath_of ctx = fieldPath ->
        exists arg,
          sanitizeValue purify value ctx
          = (Normal value, ctx, calls (onSkip opts) (EvSkip fieldPath arg))).
Proof.
  intros Hwl.
  assert (Hdef : shouldSanitizeField fieldPath opts
                 = negb (existsb (matches_pattern fieldPath) (entries_of (blacklist opts)))).
  { unfold shouldSanitizeField. rewrite Hwl.
    destruct (blacklist opts) as [[|b bl]|]; reflexivity. }
  split; [|split].
  - rewrite Hdef, negb_false_iff, existsb_exists.
    split; intros (entry & Hin & H); exists entry; (split; [done|]);
      by apply matches_pattern_iff.
  - intros Hnone. by rewrite Hdef, Hnone.
  - intros Hout value ctx Hopts Hpath. exists (SkipCtxPath (path ctx)).
    rewrite sanitizeValue_skipped; [by rewrite Hopts, Hpath|].
    left. by rewrite Hopts, Hpath.
Qed.

Lemma blacklist_scope_witness :
  exists arg,
    sanitizeValue demo_purify (VObj [("note", VStr "<b>raw</b>")])
                  (target_child blacklist_demo "metadata")
    = (Normal (VObj [("note", VStr "<b>raw</b>")]),
       target_child blacklist_demo "metadata",
       calls (onSkip blacklist_demo) (EvSkip "metadata" arg)).
Proof.
  exact (proj2 (proj2 (blacklist_scope demo_purify blacklist_demo "metadata" eq_refl))
           eq_refl (VObj [("note", VStr "<b>raw</b>")])
           (target_child blacklist_demo "metadata") eq_refl eq_refl).
Defined.

(** ** What a call leaves behind *)

Lemma singleton_throws_catchable (key : string) (fc : FieldConfig) (base : options) :
  (forall sanitizer value t,
     custom_sanitizer (Some fc) = Some sanitizer -> sanitizer value = Throw t ->
     catchable t = true) ->
  throws_catchable (set_fields {[ key := fc ]} base).
Proof.
  intros Hfc p fc' sanitizer value t. unfold field_entry. simpl.
  intros [_ <-]%lookup_singleton_Some. apply Hfc.
Qed.

Lemma throwing_demo_catchable : throws_catchable throwing_demo.
Proof.
  apply singleton_throws_catchable. intros sanitizer value t [= <-] [= <-]. done.
Qed.

(** Without the condition on what custom functions throw: the call for
    [user] returns, and leaves the path one segment longer and the depth
    counter one higher than it found them. *)
Example context_left_behind :
  sanitizeValue demo_purify
    (VObj [("test", VStr "value"); ("name", VStr "<b>John</b>")])
    (target_child nested_unconvertible_demo "user")
  = (Normal (VObj [("test", VStr "value"); ("name", VStr "<b>John</b>")]),
     {| ctx_options := nested_unconvertible_demo; currentDepth := 1;
        path := ["user"; "test"] |},
     [EvError "Cannot convert object to primitive value" "user"]).
Proof. vm_compute. reflexivity. Qed.






(** X3: with [throwOnError] off and no custom function throwing a value
    that [String()] cannot convert (and the observers returning),
    [sanitizeTarget] never rejects, whatever the target and the custom
    functions do; its result has the keys of the target in the same order,
    but for a key ["__proto__"], which is visited like the others and is
    never an own property of the result. *)
Theorem sanitizeTarget_never_rejects purify (target : list (string * jsvalue))
    (opts : options) :
  throwOnError opts = false -> throws_catchable opts ->
  exists out tr,
    sanitizeTarget purify target opts = (Normal out, tr)
    /\ map fst out = map fst (own_entries target)
    /\ (forall key, In key (map fst out) <-> In key (map fst target) /\ key <> "__proto__")
    /\ tr = flat_map (top_trace purify opts) target.
Proof.
  intros Hcontain Htame. rewrite sanitizeTarget_contained by done.
  eexists _, _. split; [reflexivity|].
  assert (Hkeys : map fst (map (top_result purify opts) (own_entries target))
                  = map fst (own_entries target)).
  { rewrite map_map. apply map_ext. by intros [k v]. }
  split; [exact Hkeys|]. split; [|done].
  intros key. rewrite Hkeys, !in_map_iff. split.
  - intros ([k v] & <- & [Hin Hk]%own_entries_In). split; [|done]. by exists (k, v).
  - intros [([k v] & <- & Hin) Hk]. exists (k, v). split; [done|].
    by apply own_entries_In.
Qed.

Lemma sanitizeTarget_never_rejects_witness :
  exists out tr,
    sanitizeTarget demo_purify failure_target throwing_demo = (Normal out, tr)
    /\ map fst out = map fst (own_entries failure_target)
    /\ (forall key, In key (map fst out)
                    <-> In key (map fst failure_target) /\ key <> "__proto__")
    /\ tr = flat_map (top_trace demo_purify throwing_demo) failure_target.
Proof.
  exact (sanitizeTarget_never_rejects demo_purify failure_target throwing_demo eq_refl
           throwing_demo_catchable).
Defined.

Example proto_key_visited_and_dropped :
  sanitizeTarget demo_purify
    [("__proto__", VObj [("note", VStr "<b>x</b>")]); ("name", VStr "<b>John</b>")]
    observed
  = (Normal [("name", VStr "John")],
     [EvSanitize "__proto__.note" (VStr "<b>x</b>") (VStr "x");
      EvSanitize "name" (VStr "<b>John</b>") (VStr "John")]).
Proof. vm_compute. reflexivity. Qed.

(** ** What is thrown *)

Lemma sanitizeValue_throws_Error purify (value : jsvalue) (ctx c : SanitizationContext)
    (t : thrown) (tr : list event) :
  sanitizeValue purify value ctx = (Throw t, c, tr) -> exists message, t = ThrownError message.
Proof.
  rewrite sanitizeValue_unfold. unfold sanitizeValue_body. rewrite bind_get_ctx.
  unfold try_catch.
  match goal with
  | |- context [match ?m ctx with _ => _ end] => destruct (m ctx) as [[[v|t0] c1] tr1]
  end; [done|].
  unfold handle_error, bind, builtin.
  destruct (as_Error t0) as [err|e] eqn:E.
  - destruct (throwOnError (ctx_options ctx)).
    + unfold throw. intros [= <- _ _]. by eexists.
    + unfold notify, ret. done.
  - apply as_Error_throws in E as [-> _]. intros [= <- _ _]. by eexists.
Qed.

Lemma target_entries_throws_Error purify (entries : list (string * jsvalue)) :
  forall sanitized ctx c t tr,
    target_entries purify entries sanitized ctx = (Throw t, c, tr) ->
    exists message, t = ThrownError message.
Proof.
  induction entries as [|[key value] rest IH]; intros sanitized ctx c t tr; [done|].
  cbn [target_entries].
  erewrite (bind_normal (path_push key)); [|reflexivity].
  match goal with
  | |- context [bind (sanitizeValue purify value) _ ?c0] =>
      destruct (sanitizeValue purify value c0) as [[[v|t0] c1] tr1] eqn:E
  end.
  - erewrite (bind_normal_trace (sanitizeValue purify value)); [|exact E].
    erewrite (bind_normal path_pop); [|reflexivity].
    match goal with
    | |- context [target_entries purify rest ?acc ?c0] =>
        destruct (target_entries purify rest acc c0) as [[[v'|t'] c'] tr'] eqn:E'
    end; [done|].
    intros [= <- _ _]. by eapply IH.
  - erewrite (bind_throw (sanitizeValue purify value)); [|exact E].
    intros [= <- _ _]. by eapply sanitizeValue_throws_Error.
Qed.



(** ** The three ways a call can go *)

Lemma sanitizeValue_cases (ctx : SanitizationContext) :
  (shouldSanitizeField (fieldPath_of ctx) (ctx_options ctx) = false
   \/ is_skip (node_entry ctx) = true)
  \/ (shouldSanitizeField (fieldPath_of ctx) (ctx_options ctx) = true
      /\ exists sanitizer, custom_sanitizer (node_entry ctx) = Some sanitizer)
  \/ walks ctx.
Proof.
  unfold walks.
  destruct (shouldSanitizeField (fieldPath_of ctx) (ctx_options ctx)); [|by left; left].
  destruct (is_skip (node_entry ctx)); [by left; right|].
  destruct (custom_sanitizer (node_entry ctx)) as [sanitizer|]; [|by right; right].
  right. left. split; [done|]. by exists sanitizer.
Qed.

Lemma no_custom_function_node (ctx : SanitizationContext) :
  no_custom_function (ctx_options ctx) -> custom_sanitizer (node_entry ctx) = None.
Proof.
  intros Hno. unfold node_entry.
  destruct (getFieldConfig _ _) as [fc|] eqn:E; [|done].
  apply getFieldConfig_entry in E as [q Hq]. by apply (Hno q).
Qed.

(** ** Shape *)

Lemma shape_imap (f : nat -> jsvalue -> jsvalue) (items : list jsvalue) :
  (forall i item, items !! i = Some item -> shape (f i item) = shape item) ->
  map shape (imap f items) = map shape items.
Proof.
  revert f. induction items as [|item rest IH]; intros f Hf; [done|].
  cbn [imap map]. rewrite (Hf 0%nat item eq_refl). f_equal.
  apply IH. intros i x Hi. by apply (Hf (S i)).
Qed.

Lemma no_custom_throws_catchable (opts : options) :
  no_custom_function opts -> throws_catchable opts.
Proof.
  intros Hno p fc sanitizer value t Hentry Hcustom.
  rewrite (Hno p fc Hentry) in Hcustom. done.
Qed.

Lemma proto_free_own (entries : list (string * jsvalue)) :
  proto_free (VObj entries) = true -> own_entries entries = entries.
Proof.
  simpl. intros Hfree. apply own_entries_all.
  apply Forall_forall. intros e He%list_elem_of_In.
  rewrite forallb_forall in Hfree. specialize (Hfree e He).
  apply andb_true_iff in Hfree as [Hkey _].
  by apply negb_true_iff, String.eqb_neq in Hkey.
Qed.

Lemma proto_free_entry (entries : list (string * jsvalue)) (e : string * jsvalue) :
  proto_free (VObj entries) = true -> In e entries -> proto_free e.2 = true.
Proof.
  simpl. intros Hfree He. rewrite forallb_forall in Hfree.
  specialize (Hfree e He). by apply andb_true_iff in Hfree as [_ ?].
Qed.

Lemma proto_free_item (items : list jsvalue) (i : nat) (item : jsvalue) :
  proto_free (VArr items) = true -> items !! i = Some item -> proto_free item = true.
Proof.
  simpl. intros Hfree Hi. rewrite forallb_forall in Hfree. apply Hfree.
  apply list_elem_of_In, list_elem_of_lookup. by exists i.
Qed.

Lemma shape_value purify (opts : options) :
  throwOnError opts = false -> arrays opts <> arrays_join -> no_custom_function opts ->
  forall value ctx,
    ctx_options ctx = opts -> proto_free value = true ->
    shape (result_value (sanitizeValue purify value ctx)) = shape value.
Proof.
  intros Hcontain Hjoin Hno value.
  pose proof (no_custom_throws_catchable opts Hno) as Htame.
  induction value as [| |b|repr|s|items IH|entries IH|repr] using jsvalue_nested_ind;
    intros ctx Hopts Hfree.
  all: destruct (sanitizeValue_cases ctx) as [Hskip|[(_ & sanitizer & Hcustom)|Hwalks]];
    [by rewrite sanitizeValue_skipped
    |rewrite no_custom_function_node in Hcustom by (by rewrite Hopts); done
    |].
  all: try by rewrite sanitizeValue_passes_through.
  - by rewrite sanitizeValue_string.
  - destruct (arrays (ctx_options ctx)) eqn:Harr.
    + by rewrite sanitizeValue_array_skip.
    + rewrite sanitizeValue_array_each by (done || by rewrite Hopts).
      cbn [result_value shape]. f_equal. apply shape_imap.
      intros i item Hi. unfold item_result.
      rewrite Forall_forall in IH. apply IH; [|done|by apply (proto_free_item items i)].
      apply list_elem_of_lookup. by exists i.
    + rewrite Hopts in Harr. done.
  - destruct (deep (ctx_options ctx)) eqn:Hdeep;
      [|by rewrite sanitizeValue_passes_through by (done || by simpl; rewrite Hdeep)].
    destruct (decide (currentDepth ctx >= maxDepth (ctx_options ctx))%Z) as [Hover|Hunder].
    + rewrite sanitizeValue_too_deep by done. by rewrite Hopts, Hcontain.
    + rewrite sanitizeValue_object_each by (done || lia || by rewrite Hopts).
      rewrite (proto_free_own entries Hfree).
      cbn [result_value shape]. f_equal. rewrite map_map.
      apply map_ext_in. intros [k v] Hin. unfold entry_result. cbn [fst snd]. f_equal.
      rewrite Forall_forall in IH.
      apply (IH (k, v)); [by apply list_elem_of_In | done|].
      by apply (proto_free_entry entries (k, v)).
Qed.

(** X5: with [throwOnError] off, an array strategy other than [join] and
    no custom function in the field configurations, sanitizing a value in
    which no object has a key ["__proto__"] changes the text of strings and
    nothing else: the result has the same keys in the same order, arrays of
    the same lengths, strings where there were strings, and every number,
    boolean, [null] and other leaf as it was. *)
Theorem shape_preserved purify (opts : options) :
  throwOnError opts = false -> arrays opts <> arrays_join -> no_custom_function opts ->
  (forall value ctx,
     ctx_options ctx = opts -> proto_free value = true ->
     shape (result_value (sanitizeValue purify value ctx)) = shape value)
  /\ (forall target,
        proto_free (VObj target) = true ->
        exists out tr,
          sanitizeTarget purify target opts = (Normal out, tr)
          /\ shape (VObj out) = shape (VObj target)).
Proof.
  intros Hcontain Hjoin Hno. split; [by apply shape_value|].
  intros target Hfree.
  rewrite sanitizeTarget_contained by (done || by apply no_custom_throws_catchable).
  rewrite (proto_free_own target Hfree).
  eexists _, _. split; [reflexivity|].
  cbn [shape]. f_equal. rewrite map_map. apply map_ext_in. intros [k v] Hin.
  unfold top_result. cbn [fst snd]. f_equal.
  apply (shape_value purify opts); try done.
  by apply (proto_free_entry target (k, v)).
Qed.

Lemma shape_preserved_witness :
  exists out tr,
    sanitizeTarget demo_purify depth_target depth_demo = (Normal out, tr)
    /\ shape (VObj out) = shape (VObj depth_target).
Proof.
  refine (proj2 (shape_preserved demo_purify depth_demo eq_refl _ _) depth_target eq_refl).
  - discriminate.
  - intros p fc H. discriminate H.
Defined.

(** ** Sanitizing twice *)

Lemma calls_not_sanitize (installed : bool) (e : event) :
  ~ is_sanitize_call e -> Forall (fun e => ~ is_sanitize_call e) (calls installed e).
Proof. intros He. unfold calls. destruct installed; by repeat constructor. Qed.

Lemma skip_not_sanitize (field : string) (arg : skip_argument) :
  ~ is_sanitize_call (EvSkip field arg).
Proof. by intros (f & o & s & H). Qed.

Lemma error_not_sanitize (message field : string) :
  ~ is_sanitize_call (EvError message field).
Proof. by intros (f & o & s & H). Qed.

Lemma sanitizeString_idempotent purify (s : string) (m : SanitizationMode)
    (c : option DOMPurifyConfig) :
  (forall s c, purify (purify s c) c = purify s c) ->
  sanitizeString purify (sanitizeString purify s m c) m c = sanitizeString purify s m c.
Proof. intros Hidem. destruct m; simpl; by rewrite ?Hidem. Qed.

Lemma stable_string purify (s : string) (ctx : SanitizationContext) :
  (forall s c, purify (purify s c) c = purify s c) -> walks ctx ->
  stable purify ctx (VStr (sanitizeString purify s (node_mode ctx) (node_config ctx))).
Proof.
  intros Hidem Hwalks. unfold stable. rewrite sanitizeValue_string by done.
  rewrite sanitizeString_idempotent by done.
  unfold JSString.eqb. rewrite String.eqb_refl. by eexists.
Qed.

Lemma imap_fixed {A} (f : nat -> A -> A) (l : list A) :
  (forall i x, l !! i = Some x -> f i (f i x) = f i x) ->
  imap f (imap f l) = imap f l.
Proof.
  revert f. induction l as [|x l IH]; intros f Hf; [done|].
  cbn [imap]. rewrite (Hf 0%nat x eq_refl). f_equal.
  apply IH. intros i y Hi. by apply (Hf (S i)).
Qed.

Lemma concat_imap_Forall {A B} (P : B -> Prop) (g : nat -> A -> list B)
    (f : nat -> A -> A) (l : list A) :
  (forall i x, l !! i = Some x -> Forall P (g i (f i x))) ->
  Forall P (concat (imap g (imap f l))).
Proof.
  revert f g. induction l as [|x l IH]; intros f g Hf; [constructor|].
  cbn [imap concat]. apply Forall_app. split; [by apply (Hf 0%nat)|].
  apply IH. intros i y Hi. by apply (Hf (S i)).
Qed.

Lemma own_entries_idem (f : string * jsvalue -> string * jsvalue)
    (entries : list (string * jsvalue)) :
  (forall e, (f e).1 = e.1) ->
  own_entries (map f (own_entries entries)) = map f (own_entries entries).
Proof.
  intros Hf. apply own_entries_all. apply Forall_forall.
  intros e' (e & <- & [_ He]%own_entries_In)%list_elem_of_In%in_map_iff.
  by rewrite Hf.
Qed.

Lemma own_entries_incl (e : string * jsvalue) (entries : list (string * jsvalue)) :
  In e (own_entries entries) -> In e entries.
Proof. by intros [? _]%own_entries_In. Qed.

Lemma idempotent_value purify (opts : options) :
  (forall s c, purify (purify s c) c = purify s c) ->
  throwOnError opts = false -> no_custom_function opts ->
  forall value ctx,
    ctx_options ctx = opts ->
    stable purify ctx (result_value (sanitizeValue purify value ctx)).
Proof.
  intros Hidem Hcontain Hno value.
  pose proof (no_custom_throws_catchable opts Hno) as Htame.
  induction value as [| |b|repr|s|items IH|entries IH|repr] using jsvalue_nested_ind;
    intros ctx Hopts.
  all: destruct (sanitizeValue_cases ctx) as [Hskip|[(_ & sanitizer & Hcustom)|Hwalks]];
    [rewrite sanitizeValue_skipped by done; eexists;
     split; [by apply sanitizeValue_skipped|];
     apply calls_not_sanitize, skip_not_sanitize
    |rewrite no_custom_function_node in Hcustom by (by rewrite Hopts); done
    |].
  all: try (rewrite sanitizeValue_passes_through by done; exists [];
            split; [by apply sanitizeValue_passes_through | constructor]).
  all: assert (Hc : throwOnError (ctx_options ctx) = false) by (by rewrite Hopts).
  all: assert (Ht : throws_catchable (ctx_options ctx)) by (by rewrite Hopts).
  - rewrite sanitizeValue_string by done. by apply stable_string.
  - destruct (arrays (ctx_options ctx)) eqn:Harr.
    + rewrite sanitizeValue_array_skip by done. eexists.
      split; [by apply sanitizeValue_array_skip|].
      apply calls_not_sanitize, skip_not_sanitize.
    + rewrite sanitizeValue_array_each by done. cbn [result_value]. eexists.
      split.
      * rewrite sanitizeValue_array_each by done.
        rewrite imap_fixed; [reflexivity|].
        intros i item Hi. unfold item_result.
        rewrite Forall_forall in IH.
        destruct (IH item (proj2 (list_elem_of_lookup _ _) (ex_intro _ i Hi))
                    (array_child ctx i) Hopts) as (tr & Heq & _).
        by rewrite Heq.
      * apply concat_imap_Forall. intros i item Hi. unfold item_trace, item_result.
        rewrite Forall_forall in IH.
        destruct (IH item (proj2 (list_elem_of_lookup _ _) (ex_intro _ i Hi))
                    (array_child ctx i) Hopts) as (tr & Heq & Htr).
        by rewrite Heq.
    + destruct (forallb convertible items) eqn:Hconv.
      * rewrite sanitizeValue_array_join by done. by apply stable_string.
      * rewrite sanitizeValue_array_unjoinable by done. rewrite Hc.
        cbn [result_value]. eexists.
        split; [by rewrite sanitizeValue_array_unjoinable, Hc by done|].
        apply calls_not_sanitize, error_not_sanitize.
  - destruct (deep (ctx_options ctx)) eqn:Hdeep.
    2: { assert (Hpass : passes_through (VObj entries) (ctx_options ctx) = true)
           by (by simpl; rewrite Hdeep).
         rewrite sanitizeValue_passes_through by done. exists [].
         split; [by apply sanitizeValue_passes_through | constructor]. }
    destruct (decide (currentDepth ctx >= maxDepth (ctx_options ctx))%Z) as [Hover|Hunder].
    + rewrite sanitizeValue_too_deep by done. rewrite Hc. cbn [result_value]. eexists.
      split; [by rewrite sanitizeValue_too_deep, Hc by done|].
      apply calls_not_sanitize, error_not_sanitize.
    + rewrite sanitizeValue_object_each by (done || lia). cbn [result_value]. eexists.
      rewrite Forall_forall in IH.
      split.
      * rewrite sanitizeValue_object_each by (done || lia).
        rewrite own_entries_idem by done. rewrite map_map.
        rewrite (map_ext_in (fun x => entry_result purify ctx (entry_result purify ctx x))
                            (entry_result purify ctx)); [reflexivity|].
        intros [k v] Hin%own_entries_incl%list_elem_of_In.
        unfold entry_result. cbn [fst snd]. f_equal.
        destruct (IH (k, v) Hin (object_child ctx k) Hopts) as (tr & Heq & _).
        simpl in Heq. by rewrite Heq.
      * apply Forall_forall. intros e (e' & He' & He)%list_elem_of_In%in_flat_map.
        apply in_map_iff in He' as ([k v] & <- & Hin%own_entries_incl%list_elem_of_In).
        unfold entry_trace, entry_result in He. cbn [fst snd] in He.
        destruct (IH (k, v) Hin (object_child ctx k) Hopts) as (tr & Heq & Htr).
        simpl in Heq. rewrite Heq in He. simpl in He.
        rewrite Forall_forall in Htr. by apply Htr, list_elem_of_In.
Qed.

Lemma strip_tags_no_open (inside : bool) (s : string) :
  JSString.has_char "<"%char (strip_tags inside s) = false.
Proof.
  revert inside. induction s as [|c s IH]; intros inside; [by destruct inside|].
  cbn [strip_tags]. destruct inside; [apply IH|].
  destruct (Ascii.eqb c "<"%char) eqn:Ec; [apply IH|].
  cbn [JSString.has_char]. by rewrite Ec, IH.
Qed.

Lemma strip_tags_clean (s : string) :
  JSString.has_char "<"%char s = false -> strip_tags false s = s.
Proof.
  induction s as [|c s IH]; [done|]. cbn [JSString.has_char strip_tags].
  intros [Hc Hs]%orb_false_iff. rewrite Hc. by rewrite IH.
Qed.

Lemma demo_purify_idempotent (s : string) (c : DOMPurifyConfig) :
  demo_purify (demo_purify s c) c = demo_purify s c.
Proof.
  unfold demo_purify. destruct (ALLOWED_TAGS c) as [[|tag tags]|]; try done.
  apply strip_tags_clean, strip_tags_no_open.
Qed.

(** X6: when [DOMPurify.sanitize] is idempotent, [throwOnError] is off and
    no custom function is configured, sanitizing is idempotent: run on its
    own result, with the same options and at the same path, the walker
    returns that result unchanged and makes no [onSanitize] call; so does
    [sanitizeTarget] on its own output. *)
Theorem sanitize_idempotent purify (opts : options) :
  (forall s c, purify (purify s c) c = purify s c) ->
  throwOnError opts = false -> no_custom_function opts ->
  (forall value ctx,
     ctx_options ctx = opts ->
     exists tr,
       sanitizeValue purify (result_value (sanitizeValue purify value ctx)) ctx
       = (Normal (result_value (sanitizeValue purify value ctx)), ctx, tr)
       /\ Forall (fun e => ~ is_sanitize_call e) tr)
  /\ (forall target,
        exists out tr tr',
          sanitizeTarget purify target opts = (Normal out, tr)
          /\ sanitizeTarget purify out opts = (Normal out, tr')
          /\ Forall (fun e => ~ is_sanitize_call e) tr').
Proof.
  intros Hidem Hcontain Hno.
  pose proof (idempotent_value purify opts Hidem Hcontain Hno) as Hvalue.
  pose proof (no_custom_throws_catchable opts Hno) as Htame.
  split; [exact Hvalue|].
  intros target. rewrite sanitizeTarget_contained by done.
  eexists _, _, _. split; [reflexivity|].
  rewrite sanitizeTarget_contained by done.
  rewrite own_entries_idem by done. rewrite map_map. split.
  - rewrite (map_ext (fun x => top_result purify opts (top_result purify opts x))
                     (top_result purify opts)); [reflexivity|].
    intros [k v]. unfold top_result. cbn [fst snd]. f_equal.
    destruct (Hvalue v (target_child opts k) eq_refl) as (tr & Heq & _).
    by rewrite Heq.
  - apply Forall_forall. intros e (e' & He' & He)%list_elem_of_In%in_flat_map.
    apply in_map_iff in He' as ([k v] & <- & _).
    unfold top_trace, top_result in He. cbn [fst snd] in He.
    destruct (Hvalue v (target_child opts k) eq_refl) as (tr & Heq & Htr).
    rewrite Heq in He. simpl in He.
    rewrite Forall_forall in Htr. by apply Htr, list_elem_of_In.
Qed.

Lemma sanitize_idempotent_witness :
  exists out tr tr',
    sanitizeTarget demo_purify depth_target depth_demo = (Normal out, tr)
    /\ sanitizeTarget demo_purify out depth_demo = (Normal out, tr')
    /\ Forall (fun e => ~ is_sanitize_call e) tr'.
Proof.
  refine (proj2 (sanitize_idempotent demo_purify depth_demo
                   demo_purify_idempotent eq_refl _) depth_target).
  intros p fc H. discriminate H.
Defined.

Example sanitize_twice :
  sanitizeTarget demo_purify
    [("level1", VObj [("level2", VObj [("level3", VObj level3)]);
                      ("note", VStr "hi")])]
    depth_demo
  = (Normal [("level1", VObj [("level2", VObj [("level3", VObj level3)]);
                              ("note", VStr "hi")])],
     [EvError "Maximum recursion depth (2) exceeded at path: level1.level2.level3"
              "level1.level2.level3"]).
Proof. vm_compute. reflexivity. Qed.

(** ** A field entry governs the subtree below it *)

Lemma ancestor_chain (parts : list string) (j k : nat) :
  (0 < j < k)%nat -> (k <= length parts)%nat ->
  is_ancestor (JSString.join "." (take j parts)) (JSString.join "." (take k parts)).
Proof.
  intros Hj Hk. exists (JSString.join "." (drop j (take k parts))).
  rewrite <- join_app.
  - f_equal. rewrite <- (take_drop j (take k parts)) at 1.
    by rewrite take_take, Nat.min_l by lia.
  - intros H%(f_equal length). rewrite length_take in H. simpl in H. lia.
  - intros H%(f_equal length). rewrite length_drop, length_take in H. simpl in H. lia.
Qed.

Lemma ancestors_comparable (a b q : string) :
  is_ancestor a q -> is_ancestor b q -> a = b \/ is_ancestor a b \/ is_ancestor b a.
Proof.
  intros (j & Hj & ->)%ancestor_prefix (k & Hk & ->)%ancestor_prefix.
  destruct (Nat.lt_trichotomy j k) as [Hlt|[->|Hgt]].
  - right. left. apply ancestor_chain; lia.
  - by left.
  - right. right. apply ancestor_chain; lia.
Qed.

Lemma entry_inherited (opts : options) (p q : string) (fc : FieldConfig) :
  field_entry opts p = Some fc -> is_ancestor p q ->
  field_entry opts q = None ->
  (forall a, is_ancestor p a -> is_ancestor a q -> field_entry opts a = None) ->
  getFieldConfig q opts = Some fc.
Proof.
  intros Hp Hpq Hq Hbetween.
  destruct (getFieldConfig q opts) as [fc'|] eqn:E.
  - destruct (getFieldConfig_nearest q opts fc' Hq E) as (a & Haq & Ha & Hnearest).
    destruct (ancestors_comparable a p q Haq Hpq) as [->|[Hap|Hpa]].
    + congruence.
    + rewrite (Hnearest p Hpq Hap) in Hp. done.
    + rewrite (Hbetween a Hpa Haq) in Ha. done.
  - apply getFieldConfig_None in E as [_ Hall]. rewrite (Hall p Hpq) in Hp. done.
Qed.

Lemma length_append (a b : string) :
  String.length (a +:+ b) = (String.length a + String.length b)%nat.
Proof.
  induction a as [|c a IH]; [done|]. rewrite append_cons. simpl. by rewrite IH.
Qed.

Lemma fieldPath_below (ctx : SanitizationContext) (steps : list step) :
  path ctx <> [] -> steps <> [] ->
  is_ancestor (fieldPath_of ctx) (fieldPath_of (ctx_at ctx steps)).
Proof.
  intros Hpath Hsteps. exists (JSString.join "." (map segment steps)).
  unfold fieldPath_of. rewrite ctx_at_path. apply join_app; [done|].
  by destruct steps.
Qed.

(** X7: the entry the fields mapping holds for a path is the configuration
    of every path below it that has no entry of its own, nor one between: in
    particular, when no deeper path has an entry, the entry of a node is
    what [getFieldConfig] resolves for every key and array element the walker
    visits below that node. *)
Theorem entry_governs_subtree (opts : options) (p : string) (fc : FieldConfig) :
  field_entry opts p = Some fc ->
  (forall q,
     is_ancestor p q -> field_entry opts q = None ->
     (forall a, is_ancestor p a -> is_ancestor a q -> field_entry opts a = None) ->
     getFieldConfig q opts = Some fc)
  /\ ((forall q, is_ancestor p q -> field_entry opts q = None) ->
      forall ctx steps,
        ctx_options ctx = opts -> fieldPath_of ctx = p -> path ctx <> [] ->
        steps <> [] ->
        node_entry (ctx_at ctx steps) = Some fc
        /\ node_mode (ctx_at ctx steps) = fc_mode fc).
Proof.
  intros Hp. split.
  - intros q Hpq Hq Hbetween. by apply (entry_inherited opts p q fc).
  - intros Hnone ctx steps Hopts Hpath Hne Hsteps.
    assert (Hentry : node_entry (ctx_at ctx steps) = Some fc).
    { unfold node_entry. rewrite ctx_at_options, Hopts.
      pose proof (fieldPath_below ctx steps Hne Hsteps) as Hbelow.
      rewrite Hpath in Hbelow.
      apply (entry_inherited opts p _ fc); try done.
      - by apply Hnone.
      - intros a Hpa _. by apply Hnone. }
    split; [done|]. unfold node_mode. by rewrite Hentry.
Qed.

Lemma entry_governs_subtree_witness :
  getFieldConfig "user.profile.links.0" nested_fields = Some profile_entry.
Proof.
  refine (proj1 (entry_governs_subtree nested_fields "user.profile" profile_entry _)
            "user.profile.links.0" _ _ _).
  - vm_compute. reflexivity.
  - by exists "links.0".
  - vm_compute. reflexivity.
  - intros a [r1 ->] [r2 H]. unfold field_entry. simpl.
    rewrite lookup_insert_ne, lookup_singleton_ne; [done| |].
    + intros Heq. apply (f_equal String.length) in Heq.
      rewrite !length_append in Heq. simpl in Heq. lia.
    + intros Heq. apply (f_equal String.length) in Heq.
      rewrite !length_append in Heq. simpl in Heq. lia.
Defined.

(** ** The depth counter and what it bounds *)








(** The counter when a custom function fails one object down, under
    [throwOnError]. *)
Example depth_at_failure :
  sanitizeValue demo_purify
    (VObj [("name", VStr "<b>John</b>"); ("test", VStr "value")])
    (target_child nested_throwing_demo "user")
  = (Throw (ThrownError "Test error"),
     {| ctx_options := nested_throwing_demo; currentDepth := 1;
        path := ["user"; "test"] |},
     [EvSanitize "user.name" (VStr "<b>John</b>") (VStr "John")]).
Proof. vm_compute. reflexivity. Qed.

Lemma unrestricted_walks (ctx : SanitizationContext) :
  unrestricted (ctx_options ctx) ->
  walks ctx /\ node_mode ctx = mode (ctx_options ctx)
  /\ node_config ctx = config (ctx_options ctx).
Proof.
  intros (Hwl & Hbl & Hfields).
  unfold walks, node_mode, node_config, node_entry, getFieldConfig, shouldSanitizeField.
  by rewrite Hwl, Hbl, Hfields.
Qed.

(** X9: [maxDepth] bounds the nesting of plain objects only.  With no
    whitelist, blacklist or field configuration, the strategy [each] and
    [throwOnError] off, a value wrapped in any number [n] of arrays is
    reached with the depth counter unchanged and is sanitized as it would be
    on its own at the path extended by [n] indices 0, however [n] compares
    with [maxDepth]. *)
Theorem arrays_not_depth_bounded purify (n : nat) (v : jsvalue) (ctx : SanitizationContext) :
  unrestricted (ctx_options ctx) -> arrays (ctx_options ctx) = arrays_each ->
  throwOnError (ctx_options ctx) = false ->
  sanitizeValue purify (nested_array n v) ctx
  = (Normal (nested_array n
               (result_value (sanitizeValue purify v (ctx_at ctx (replicate n (Index 0)))))),
     ctx,
     trace_of (sanitizeValue purify v (ctx_at ctx (replicate n (Index 0)))))
  /\ currentDepth (ctx_at ctx (replicate n (Index 0))) = currentDepth ctx.
Proof.
  intros Hun Heach Hcontain. split.
  - revert ctx Hun Heach Hcontain. induction n as [|n IH]; intros ctx Hun Heach Hcontain.
    all: assert (Htame : throws_catchable (ctx_options ctx))
      by (apply no_fields_throws_catchable, Hun).
    + by apply sanitizeValue_contained.
    + cbn [nested_array replicate ctx_at step_child].
      rewrite sanitizeValue_array_each by (done || by apply unrestricted_walks).
      cbn [imap concat]. unfold item_result, item_trace.
      rewrite IH by done. simpl. by rewrite app_nil_r.
  - rewrite ctx_at_depth. induction n as [|n IH]; simpl; lia.
Qed.

Lemma arrays_not_depth_bounded_witness :
  sanitizeValue demo_purify (nested_array 4 (VStr "<b>in</b>"))
                (target_child depth_demo "grid")
  = (Normal (nested_array 4
               (result_value
                  (sanitizeValue demo_purify (VStr "<b>in</b>")
                     (ctx_at (target_child depth_demo "grid") (replicate 4 (Index 0)))))),
     target_child depth_demo "grid",
     trace_of (sanitizeValue demo_purify (VStr "<b>in</b>")
                 (ctx_at (target_child depth_demo "grid") (replicate 4 (Index 0)))))
  /\ currentDepth (ctx_at (target_child depth_demo "grid") (replicate 4 (Index 0)))
     = currentDepth (target_child depth_demo "grid").
Proof.
  apply (arrays_not_depth_bounded demo_purify 4 (VStr "<b>in</b>")
           (target_child depth_demo "grid")).
  - repeat split; reflexivity.
  - reflexivity.
  - reflexivity.
Defined.

Example arrays_beyond_maxDepth :
  sanitizeTarget demo_purify [("grid", nested_array 4 (VStr "<b>in</b>"))] depth_demo
  = (Normal [("grid", nested_array 4 (VStr "in"))],
     [EvSanitize "grid.0.0.0.0" (VStr "<b>in</b>") (VStr "in")]).
Proof. vm_compute. reflexivity. Qed.

(** ** The switches [deep] and [arrays] *)

(** X10: with deep traversal off, a plain object that no custom function
    applies to is handed back as it is, wherever the walker meets it (under a
    top-level key or as an array element): nothing inside it is visited, the
    depth bound is never tested, and the only possible observer call is the
    skip notification of the node itself. *)
Theorem deep_off_objects_untouched purify (entries : list (string * jsvalue))
    (ctx : SanitizationContext) :
  deep (ctx_options ctx) = false ->
  custom_sanitizer (node_entry ctx) = None ->
  exists tr,
    sanitizeValue purify (VObj entries) ctx = (Normal (VObj entries), ctx, tr)
    /\ Forall is_skip_call tr
    /\ (walks ctx -> tr = []).
Proof.
  intros Hdeep Hcustom.
  destruct (sanitizeValue_cases ctx) as [Hskip|[(_ & sanitizer & Hsome)|Hwalks]].
  - eexists. split; [by apply sanitizeValue_skipped|]. split.
    + unfold calls. destruct (onSkip _); repeat constructor. by eexists _, _.
    + intros (Hscope & Hno & _). destruct Hskip; congruence.
  - congruence.
  - exists []. split; [|by split].
    apply sanitizeValue_passes_through; [done|]. simpl. by rewrite Hdeep.
Qed.

Lemma deep_off_objects_untouched_witness :
  exists tr,
    sanitizeValue demo_purify (VObj [("bio", VStr "<b>hi</b>")])
                  (array_child (target_child shallow_demo "users") 0)
    = (Normal (VObj [("bio", VStr "<b>hi</b>")]),
       array_child (target_child shallow_demo "users") 0, tr)
    /\ Forall is_skip_call tr
    /\ (walks (array_child (target_child shallow_demo "users") 0) -> tr = []).
Proof.
  exact (deep_off_objects_untouched demo_purify [("bio", VStr "<b>hi</b>")]
           (array_child (target_child shallow_demo "users") 0) eq_refl eq_refl).
Defined.

Example deep_off_scenario :
  sanitizeTarget demo_purify
    [("name", VStr "<b>John</b>");
     ("users", VArr [VStr "<i>a</i>"; VObj [("bio", VStr "<b>hi</b>")]])]
    shallow_demo
  = (Normal [("name", VStr "John");
             ("users", VArr [VStr "a"; VObj [("bio", VStr "<b>hi</b>")]])],
     [EvSanitize "name" (VStr "<b>John</b>") (VStr "John");
      EvSanitize "users.0" (VStr "<i>a</i>") (VStr "a")]).
Proof. vm_compute. reflexivity. Qed.

(** X11: under the array strategy [skip], an array the walker dispatches
    is handed back as it is, none of its elements is visited, and the only
    observer call is [onSkip] with the path and the array itself. *)
Theorem arrays_skip_untouched purify (items : list jsvalue) (ctx : SanitizationContext) :
  arrays (ctx_options ctx) = arrays_skip -> walks ctx ->
  sanitizeValue purify (VArr items) ctx
  = (Normal (VArr items), ctx,
     calls (onSkip (ctx_options ctx))
           (EvSkip (fieldPath_of ctx) (SkipValue (VArr items))))
  /\ forall rec m c,
       sanitizeArrayValue purify rec items (fieldPath_of ctx) m c ctx
       = (Normal (VArr items), ctx,
          calls (onSkip (ctx_options ctx))
                (EvSkip (fieldPath_of ctx) (SkipValue (VArr items)))).
Proof.
  intros Harr Hwalks. split; [by apply sanitizeValue_array_skip|].
  intros rec m c. unfold sanitizeArrayValue. rewrite bind_get_ctx, Harr.
  unfold bind, notify, ret, calls. simpl. by rewrite app_nil_r.
Qed.

Lemma arrays_skip_untouched_witness :
  sanitizeValue demo_purify (VArr [VStr "<b>a</b>"; VObj [("x", VStr "<i>b</i>")]])
                (target_child skip_arrays_demo "tags")
  = (Normal (VArr [VStr "<b>a</b>"; VObj [("x", VStr "<i>b</i>")]]),
     target_child skip_arrays_demo "tags",
     calls (onSkip skip_arrays_demo)
           (EvSkip "tags" (SkipValue (VArr [VStr "<b>a</b>"; VObj [("x", VStr "<i>b</i>")]])))).
Proof.
  refine (proj1 (arrays_skip_untouched demo_purify
                   [VStr "<b>a</b>"; VObj [("x", VStr "<i>b</i>")]]
                   (target_child skip_arrays_demo "tags") eq_refl _)).
  repeat split; reflexivity.
Defined.

(** Without the condition on what custom functions throw: the failure of
    the second element ends the whole [map]; the array is handed back as it
    was, its first element included, after [onSanitize] has been told
    otherwise. *)
Example each_with_unconvertible_throw :
  sanitizeValue demo_purify (VArr [VStr "<b>a</b>"; VStr "x"])
                (target_child element_unconvertible_demo "tags")
  = (Normal (VArr [VStr "<b>a</b>"; VStr "x"]),
     {| ctx_options := element_unconvertible_demo; currentDepth := 0;
        path := ["tags"; "1"] |},
     [EvSanitize "tags.0" (VStr "<b>a</b>") (VStr "a");
      EvError "Cannot convert object to primitive value" "tags"]).
Proof. vm_compute. reflexivity. Qed.

(** X12: under the array strategy [each] with [throwOnError] off and no
    custom function throwing a value that [String()] cannot convert, the
    result of an array is an array of the same length whose element [i] is
    what [sanitizeValue] returns for the input's element [i] at the path
    extended by the decimal index [i], with the depth counter unchanged;
    the observer calls are those of the elements, in index order. *)
Theorem arrays_each_elementwise purify (items : list jsvalue) (ctx : SanitizationContext) :
  arrays (ctx_options ctx) = arrays_each -> throwOnError (ctx_options ctx) = false ->
  throws_catchable (ctx_options ctx) ->
  walks ctx ->
  exists out,
    sanitizeValue purify (VArr items) ctx
    = (Normal (VArr out), ctx, concat (imap (item_trace purify ctx) items))
    /\ length out = length items
    /\ forall i item,
         items !! i = Some item ->
         out !! i = Some (result_value (sanitizeValue purify item (array_child ctx i)))
         /\ path (array_child ctx i) = path ctx ++ [pretty i]
         /\ currentDepth (array_child ctx i) = currentDepth ctx.
Proof.
  intros Harr Hcontain Htame Hwalks. eexists.
  split; [by apply sanitizeValue_array_each|].
  split; [by rewrite length_imap|].
  intros i item Hi. split; [|done]. by rewrite list_lookup_imap, Hi.
Qed.

Lemma arrays_each_elementwise_witness :
  exists out,
    sanitizeValue demo_purify (VArr [VStr "<b>a</b>"; VNum "1"]) (target_child observed "tags")
    = (Normal (VArr out), target_child observed "tags",
       concat (imap (item_trace demo_purify (target_child observed "tags"))
                    [VStr "<b>a</b>"; VNum "1"]))
    /\ length out = length [VStr "<b>a</b>"; VNum "1"]
    /\ forall i item,
         [VStr "<b>a</b>"; VNum "1"] !! i = Some item ->
         out !! i = Some (result_value (sanitizeValue demo_purify item
                                          (array_child (target_child observed "tags") i)))
         /\ path (array_child (target_child observed "tags") i)
            = path (target_child observed "tags") ++ [pretty i]
         /\ currentDepth (array_child (target_child observed "tags") i)
            = currentDepth (target_child observed "tags").
Proof.
  apply (arrays_each_elementwise demo_purify [VStr "<b>a</b>"; VNum "1"]
           (target_child observed "tags")).
  - reflexivity.
  - reflexivity.
  - exact (no_fields_throws_catchable observed eq_refl).
  - repeat split; reflexivity.
Defined.

(** ** A global mode that transforms nothing *)

Lemma imap_id_on (f : nat -> jsvalue -> jsvalue) (items : list jsvalue) :
  (forall i item, items !! i = Some item -> f i item = item) -> imap f items = items.
Proof.
  revert f. induction items as [|item rest IH]; intros f Hf; [done|].
  cbn [imap]. rewrite (Hf 0%nat item eq_refl). f_equal.
  apply IH. intros i x Hi. by apply (Hf (S i)).
Qed.

Lemma untransformed_value purify (opts : options) :
  unrestricted opts -> mode opts = skip \/ mode opts = custom ->
  arrays opts <> arrays_join -> throwOnError opts = false ->
  forall value ctx,
    ctx_options ctx = opts -> proto_free value = true ->
    result_value (sanitizeValue purify value ctx) = value
    /\ Forall (fun e => ~ is_sanitize_call e) (trace_of (sanitizeValue purify value ctx)).
Proof.
  intros Hun Hmode Hjoin Hcontain value.
  assert (Htame : throws_catchable opts) by (apply no_fields_throws_catchable, Hun).
  induction value as [| |b|repr|s|items IH|entries IH|repr] using jsvalue_nested_ind;
    intros ctx Hopts Hfree.
  all: assert (Hu : unrestricted (ctx_options ctx)) by (by rewrite Hopts).
  all: destruct (unrestricted_walks ctx Hu) as (Hwalks & Hm & Hc).
  all: try (rewrite sanitizeValue_passes_through by done; by split).
  - rewrite sanitizeValue_string by done. rewrite Hm, Hopts.
    assert (Hs : sanitizeString purify s (mode opts) (node_config ctx) = s)
      by (by destruct Hmode as [-> | ->]).
    rewrite Hs. unfold JSString.eqb. rewrite String.eqb_refl. by split.
  - destruct (arrays (ctx_options ctx)) eqn:Harr.
    + rewrite sanitizeValue_array_skip by done. split; [done|].
      apply calls_not_sanitize, skip_not_sanitize.
    + rewrite sanitizeValue_array_each by (done || by rewrite Hopts).
      rewrite Forall_forall in IH. cbn [result_value trace_of]. split.
      * f_equal. apply imap_id_on. intros i item Hi. unfold item_result.
        apply IH; [|done|by apply (proto_free_item items i)].
        apply list_elem_of_lookup. by exists i.
      * apply Forall_forall. intros e (tr & Htr & He)%list_elem_of_In%in_concat.
        apply list_elem_of_In, list_elem_of_lookup in Htr as [i Htr].
        rewrite list_lookup_imap in Htr.
        destruct (items !! i) as [item|] eqn:Hi; [|done]. injection Htr as <-.
        destruct (IH item (proj2 (list_elem_of_lookup _ _) (ex_intro _ i Hi))
                    (array_child ctx i) Hopts (proto_free_item items i item Hfree Hi))
          as [_ Hall].
        rewrite Forall_forall in Hall. by apply Hall, list_elem_of_In.
    + rewrite Hopts in Harr. done.
  - destruct (deep (ctx_options ctx)) eqn:Hdeep;
      [|by rewrite sanitizeValue_passes_through by (done || by simpl; rewrite Hdeep)].
    assert (Hcc : throwOnError (ctx_options ctx) = false) by (by rewrite Hopts).
    destruct (decide (currentDepth ctx >= maxDepth (ctx_options ctx))%Z) as [Hover|Hunder].
    + rewrite sanitizeValue_too_deep by done. rewrite Hcc. split; [done|].
      apply calls_not_sanitize, error_not_sanitize.
    + rewrite sanitizeValue_object_each by (done || lia || by rewrite Hopts).
      rewrite (proto_free_own entries Hfree).
      rewrite Forall_forall in IH. cbn [result_value trace_of]. split.
      * f_equal. rewrite <- (map_id entries) at 2. apply map_ext_in.
        intros [k v] Hin. unfold entry_result. cbn [fst snd]. f_equal.
        apply (IH (k, v)); [by apply list_elem_of_In | done|].
        by apply (proto_free_entry entries (k, v)).
      * apply Forall_forall. intros e ([k v] & Hin & He)%list_elem_of_In%in_flat_map.
        destruct (IH (k, v) (proj2 (list_elem_of_In _ _) Hin) (object_child ctx k) Hopts
                    (proto_free_entry entries (k, v) Hfree Hin)) as [_ Hall].
        rewrite Forall_forall in Hall. by apply Hall, list_elem_of_In.
Qed.

(** X13: with no whitelist, blacklist or field configuration, [skip] (or
    [custom], which has no function to apply) as the global mode, an array
    strategy other than [join] and [throwOnError] off, [sanitizeTarget]
    returns unchanged a target in which no object has a key ["__proto__"],
    whatever [DOMPurify.sanitize] would do, and makes no [onSanitize]
    call. *)
Theorem global_skip_is_identity purify (opts : options) (target : list (string * jsvalue)) :
  unrestricted opts -> mode opts = skip \/ mode opts = custom ->
  arrays opts <> arrays_join -> throwOnError opts = false ->
  proto_free (VObj target) = true ->
  exists tr,
    sanitizeTarget purify target opts = (Normal target, tr)
    /\ Forall (fun e => ~ is_sanitize_call e) tr.
Proof.
  intros Hun Hmode Hjoin Hcontain Hfree.
  pose proof (untransformed_value purify opts Hun Hmode Hjoin Hcontain) as Hvalue.
  rewrite sanitizeTarget_contained by (done || apply no_fields_throws_catchable, Hun).
  rewrite (proto_free_own target Hfree). eexists. split.
  - f_equal. f_equal. rewrite <- (map_id target) at 2. apply map_ext_in.
    intros [k v] Hin. unfold top_result. cbn [fst snd]. f_equal.
    apply Hvalue; [done|]. by apply (proto_free_entry target (k, v)).
  - apply Forall_forall. intros e ([k v] & Hin & He)%list_elem_of_In%in_flat_map.
    destruct (Hvalue v (target_child opts k) eq_refl
                (proto_free_entry target (k, v) Hfree Hin)) as [_ Hall].
    rewrite Forall_forall in Hall. by apply Hall, list_elem_of_In.
Qed.

(** With a key ["__proto__"] the same options do not give back the
    target. *)
Example global_skip_proto_key :
  sanitizeTarget demo_purify [("__proto__", VObj [("isAdmin", VBool true)])] global_skip_demo
  = (Normal [], []).
Proof. vm_compute. reflexivity. Qed.

Lemma global_skip_is_identity_witness :
  exists tr,
    sanitizeTarget demo_purify depth_target global_skip_demo = (Normal depth_target, tr)
    /\ Forall (fun e => ~ is_sanitize_call e) tr.
Proof.
  apply (global_skip_is_identity demo_purify global_skip_demo depth_target).
  - repeat split; reflexivity.
  - left. reflexivity.
  - discriminate.
  - reflexivity.
  - reflexivity.
Defined.

(** Under [join] the same global mode still turns arrays into strings. *)
Example global_skip_join :
  sanitizeTarget demo_purify [("tags", VArr [VStr "<b>a</b>"; VStr "b"])]
                 (set_arrays arrays_join global_skip_demo)
  = (Normal [("tags", VStr "<b>a</b> b")],
     [EvSanitize "tags" (VArr [VStr "<b>a</b>"; VStr "b"]) (VStr "<b>a</b> b")]).
Proof. vm_compute. reflexivity. Qed.

(** * Properties of the middleware *)

(** ** The four target blocks follow one scheme *)

Lemma sanitize_body_scheme purify targets merged req (st : stored) :
  sanitize_body purify targets merged req st = run_target purify targets merged req Body st.
Proof.
  unfold sanitize_body, run_target, requested_input, target_input, body_entries, parse_log.
  destruct (targets_include targets Body); [|done].
  destruct (includes _ _); [|done].
  by destruct (json req) as [[| | | | | |entries|]|error].
Qed.

Lemma sanitize_query_scheme purify targets merged req (st : stored) :
  sanitize_query purify targets merged req st = run_target purify targets merged req Query st.
Proof.
  unfold sanitize_query, run_target, requested_input, target_input, record_entries.
  destruct (targets_include targets Query); [|done].
  by destruct (req_query req).
Qed.

Lemma sanitize_params_scheme purify targets merged req (st : stored) :
  sanitize_params purify targets merged req st = run_target purify targets merged req Params st.
Proof.
  unfold sanitize_params, run_target, requested_input, target_input, record_entries.
  destruct (targets_include targets Params); [|done].
  by destruct (req_param req).
Qed.

Lemma sanitize_headers_scheme purify targets merged req (st : stored) :
  sanitize_headers purify targets merged req st
  = run_target purify targets merged req Headers st.
Proof.
  unfold sanitize_headers, run_target, requested_input, target_input, record_entries.
  destruct (targets_include targets Headers); [|done].
  by destruct (collect_headers (raw_headers req)).
Qed.

Lemma sanitize_requested_scheme purify targets merged req (st : stored) :
  sanitize_requested purify targets merged req st
  = and_then (run_target purify targets merged req Body)
      (and_then (run_target purify targets merged req Query)
         (and_then (run_target purify targets merged req Params)
            (run_target purify targets merged req Headers))) st.
Proof.
  unfold sanitize_requested, and_then.
  rewrite sanitize_body_scheme.
  destruct (run_target purify targets merged req Body st) as [[[[]|?] st1] tr1]; [|done].
  rewrite sanitize_query_scheme.
  destruct (run_target purify targets merged req Query st1) as [[[[]|?] st2] tr2]; [|done].
  rewrite sanitize_params_scheme.
  destruct (run_target purify targets merged req Params st2) as [[[[]|?] st3] tr3]; [|done].
  by rewrite sanitize_headers_scheme.
Qed.

(** ** One target block *)

Lemma sanitizeTarget_throws purify (target : list (string * jsvalue)) (opts : options)
    (e : thrown) (tr : list event) :
  sanitizeTarget purify target opts = (Throw e, tr) ->
  (exists message, e = ThrownError message)
  /\ (throws_catchable opts -> throwOnError opts = true).
Proof.
  intros H. split.
  - unfold sanitizeTarget in H.
    destruct (target_entries purify target [] _) as [[r c] tr'] eqn:E.
    injection H as -> _. by eapply target_entries_throws_Error.
  - intros Htame. destruct (throwOnError opts) eqn:Hflag; [done|].
    rewrite sanitizeTarget_contained in H by done. done.
Qed.

Lemma observers_quiet (tr : list event) : ~ In Next (map Observer tr).
Proof. by intros (e & H & _)%in_map_iff. Qed.

Lemma body_log_quiet (targets : list RequestTarget) (req : request) :
  ~ In Next (body_log targets req).
Proof.
  unfold body_log, parse_log. destruct (targets_include targets Body); [|intros []].
  destruct (includes _ _); [|intros []]. destruct (json req); [intros []|].
  by intros [H|[]].
Qed.

Lemma run_target_eq purify targets merged req (t : RequestTarget) (st : stored) :
  run_target purify targets merged req t st
  = match requested_input targets t req with
    | Some entries =>
        match sanitizeTarget purify entries merged with
        | (Normal sanitized, tr) =>
            (Normal tt, store_target t sanitized st,
             (if decide (t = Body) then body_log targets req else []) ++ map Observer tr)
        | (Throw error, tr) =>
            (Throw error, st,
             (if decide (t = Body) then body_log targets req else []) ++ map Observer tr)
        end
    | None => (Normal tt, st, if decide (t = Body) then body_log targets req else [])
    end.
Proof. unfold run_target, body_log. by destruct t. Qed.

(** What every target block guarantees. *)
Lemma run_target_spec purify targets merged req (t : RequestTarget) (st : stored) :
  exists r st1 tr,
    run_target purify targets merged req t st = (r, st1, tr)
    /\ ~ In Next tr
    /\ (forall t', t' <> t -> slot t' st1 = slot t' st)
    /\ (t <> Body -> cloneBody st1 = cloneBody st)
    /\ (requested_input targets t req = None -> st1 = st)
    /\ (forall e, r = Throw e ->
          st1 = st /\ (exists message, e = ThrownError message)
          /\ (throws_catchable merged -> throwOnError merged = true)).
Proof.
  rewrite run_target_eq.
  assert (Hlog : ~ In Next (if decide (t = Body) then body_log targets req else [])).
  { destruct (decide (t = Body)); [apply body_log_quiet | intros []]. }
  destruct (requested_input targets t req) as [entries|].
  - destruct (sanitizeTarget purify entries merged) as [[sanitized|error] tr] eqn:E.
    + eexists _, _, _. split; [reflexivity|]. split.
      { intros [H|H]%in_app_iff; [done | by apply observers_quiet in H]. }
      split; [intros t' Hne; by destruct t, t'|].
      split; [intros Hne; by destruct t|]. split; [done|]. done.
    + eexists _, _, _. split; [reflexivity|]. split.
      { intros [H|H]%in_app_iff; [done | by apply observers_quiet in H]. }
      split; [done|]. split; [done|]. split; [done|].
      intros e [= <-]. split; [done|]. by eapply sanitizeTarget_throws.
  - eexists _, _, _. split; [reflexivity|]. by repeat split.
Qed.

Lemma targets_include_without_body (targets : list RequestTarget) (t : RequestTarget) :
  targets_include (without_body targets) t
  = if decide (t = Body) then false else targets_include targets t.
Proof.
  unfold targets_include, without_body.
  induction targets as [|x rest IH]; [by destruct (decide _)|].
  rewrite filter_cons. destruct (decide (x <> Body)) as [Hx|Hx]; simpl; rewrite IH.
  - destruct (decide (t = Body)) as [->|]; [destruct x; simpl; congruence | done].
  - destruct (decide (t = Body)) as [->|]; [done|].
    assert (x = Body) as ->.
    { destruct x; try done; exfalso; apply Hx; discriminate. }
    destruct t; simpl; congruence.
Qed.

Lemma run_target_ext purify targets1 targets2 merged req (t : RequestTarget) :
  targets_include targets1 t = targets_include targets2 t ->
  (t = Body -> targets_include targets1 Body = targets_include targets2 Body) ->
  run_target purify targets1 merged req t = run_target purify targets2 merged req t.
Proof.
  intros Ht Hbody. unfold run_target, requested_input. rewrite Ht.
  destruct t; try done. by rewrite (Hbody eq_refl).
Qed.

(** ** The [try] block as a whole *)

Lemma run_target_ok purify targets merged req (t : RequestTarget) :
  phase_ok merged targets req [t] (run_target purify targets merged req t).
Proof.
  intros st.
  destruct (run_target_spec purify targets merged req t st)
    as (r & st1 & tr & Heq & Hquiet & Hslots & Hclone & Hnone & Hthrow).
  exists r, st1, tr. split; [done|]. split; [done|]. split; [|split].
  - intros t' [Hnot|Hinput].
    + apply Hslots. intros ->. apply Hnot. by left.
    + destruct (decide (t' = t)) as [->|Hne]; [by rewrite Hnone | by apply Hslots].
  - intros [Hnot|Hinput].
    + apply Hclone. intros ->. apply Hnot. by left.
    + destruct (decide (t = Body)) as [->|Hne]; [by rewrite Hnone | by apply Hclone].
  - intros e He. by destruct (Hthrow e He) as (_ & ? & ?).
Qed.

Lemma failing_options_catchable (throws : bool) :
  throws_catchable (mergedOptions (failing_options throws)).
Proof.
  intros p fc sanitizer value t. unfold field_entry. simpl.
  intros [_ <-]%lookup_singleton_Some [= <-] [= <-]. done.
Qed.

Lemma and_then_ok merged targets req (h1 h2 : list RequestTarget) (p q : phase) :
  phase_ok merged targets req h1 p -> phase_ok merged targets req h2 q ->
  phase_ok merged targets req (h1 ++ h2) (and_then p q).
Proof.
  intros Hp Hq st. unfold and_then.
  destruct (Hp st) as (r1 & st1 & tr1 & -> & Hquiet1 & Hslots1 & Hclone1 & Hthrow1).
  assert (Hweak : forall t, ~ In t (h1 ++ h2) \/ requested_input targets t req = None ->
            (~ In t h1 \/ requested_input targets t req = None)
            /\ (~ In t h2 \/ requested_input targets t req = None)).
  { intros t [Hnot|Hinput]; [|by split; right].
    split; left; intros Hin; apply Hnot, in_app_iff; tauto. }
  destruct r1 as [[]|e].
  - destruct (Hq st1) as (r2 & st2 & tr2 & -> & Hquiet2 & Hslots2 & Hclone2 & Hthrow2).
    eexists _, _, _. split; [reflexivity|]. split; [|split; [|split]].
    + intros [H|H]%in_app_iff; tauto.
    + intros t [H1 H2]%Hweak. by rewrite Hslots2, Hslots1.
    + intros [H1 H2]%Hweak. by rewrite Hclone2, Hclone1.
    + exact Hthrow2.
  - eexists _, _, _. split; [reflexivity|]. split; [done|]. split; [|split].
    + intros t [H1 _]%Hweak. by apply Hslots1.
    + intros [H1 _]%Hweak. by apply Hclone1.
    + exact Hthrow1.
Qed.

Lemma sanitize_requested_ok purify targets merged req :
  phase_ok merged targets req [Body; Query; Params; Headers]
           (sanitize_requested purify targets merged req).
Proof.
  intros st. rewrite sanitize_requested_scheme. revert st.
  apply (and_then_ok merged targets req [Body] [Query; Params; Headers]);
    [apply run_target_ok|].
  apply (and_then_ok merged targets req [Query] [Params; Headers]);
    [apply run_target_ok|].
  apply (and_then_ok merged targets req [Params] [Headers]); apply run_target_ok.
Qed.

(** ** Rejecting, and calling [next] *)


(** ** Targets that are not requested or not there *)

(** X15: a target that is not listed in [targets], or whose input is
    absent (no plain-object JSON body; an empty query, parameter or header
    record), leaves its [__sanitized...] slot as it was, whether the handler
    returns or rejects; so on a request no sanitizer has written on, its
    getter returns [null]. *)
Theorem absent_targets_untouched purify (o : SanitizerOptions) (req : request)
    (st : stored) (t : RequestTarget) :
  targets_include (mergedTargets o) t = false \/ target_input t req = None ->
  exists r st' tr,
    sanitizer purify o req st = (r, st', tr)
    /\ slot t st' = slot t st
    /\ (t = Body -> cloneBody st' = cloneBody st)
    /\ (st = fresh ->
        match t with
        | Body => getSanitizedBody st'
        | Query => getSanitizedQuery st'
        | Params => getSanitizedParams st'
        | Headers => getSanitizedHeaders st'
        end = None).
Proof.
  intros Habsent.
  assert (Hinput : requested_input (mergedTargets o) t req = None).
  { unfold requested_input. destruct Habsent as [-> | ->]; [done|].
    by destruct (targets_include _ _). }
  unfold sanitizer.
  destruct (sanitize_requested_ok purify (mergedTargets o) (mergedOptions o) req st)
    as (r & st1 & tr & -> & _ & Hslots & Hclone & _).
  assert (Hslot : slot t st1 = slot t st) by (apply Hslots; by right).
  assert (Hc : t = Body -> cloneBody st1 = cloneBody st).
  { intros ->. apply Hclone. by right. }
  assert (Hget : st = fresh ->
            match t with
            | Body => getSanitizedBody st1
            | Query => getSanitizedQuery st1
            | Params => getSanitizedParams st1
            | Headers => getSanitizedHeaders st1
            end = None).
  { intros ->. by destruct t. }
  destruct r as [[]|e]; [by eexists _, _, _|].
  destruct (as_Error e); [|by eexists _, _, _].
  destruct (throwOnError (mergedOptions o)); by eexists _, _, _.
Qed.

Lemma absent_targets_untouched_witness :
  exists r st' tr,
    sanitizer demo_purify no_options form_request fresh = (r, st', tr)
    /\ slot Body st' = slot Body fresh
    /\ (Body = Body -> cloneBody st' = cloneBody fresh)
    /\ (fresh = fresh -> getSanitizedBody st' = None).
Proof.
  apply (absent_targets_untouched demo_purify no_options form_request fresh Body).
  right. reflexivity.
Defined.

Example default_targets_only_body :
  sanitizer demo_purify no_options json_request fresh
  = (Normal tt,
     {| sanitizedBody := Some [("name", VStr "John")]; sanitizedQuery := None;
        sanitizedParams := None; sanitizedHeaders := None;
        cloneBody := Some [("name", VStr "John")] |},
     [Next]).
Proof. vm_compute. reflexivity. Qed.

(** ** The targets in order *)

Lemma sanitize_requested_run_targets purify targets merged req (st : stored) :
  sanitize_requested purify targets merged req st
  = run_targets purify targets merged req target_order st.
Proof.
  rewrite sanitize_requested_scheme. simpl. unfold and_then, no_op.
  destruct (run_target purify targets merged req Body st) as [[[[]|?] st1] tr1]; [|done].
  destruct (run_target purify targets merged req Query st1) as [[[[]|?] st2] tr2]; [|done].
  destruct (run_target purify targets merged req Params st2) as [[[[]|?] st3] tr3]; [|done].
  destruct (run_target purify targets merged req Headers st3) as [[[[]|?] st4] tr4]; [|done].
  by rewrite app_nil_r.
Qed.

Lemma run_targets_untouched purify targets merged req (ts : list RequestTarget) :
  forall st r st' tr,
    run_targets purify targets merged req ts st = (r, st', tr) ->
    forall t, ~ In t ts ->
      slot t st' = slot t st /\ (t = Body -> cloneBody st' = cloneBody st).
Proof.
  induction ts as [|t0 rest IH]; intros st r st' tr Hrun t Hnot.
  - by injection Hrun as _ <- _.
  - simpl in Hrun. unfold and_then in Hrun.
    destruct (run_target_spec purify targets merged req t0 st)
      as (r0 & st0 & tr0 & Heq & _ & Hslots & Hclone & _).
    rewrite Heq in Hrun.
    assert (Hne : t <> t0) by (intros ->; apply Hnot; by left).
    assert (Hrest : ~ In t rest) by (intros Hin; apply Hnot; by right).
    assert (Hfirst : slot t st0 = slot t st /\ (t = Body -> cloneBody st0 = cloneBody st)).
    { split; [by apply Hslots|]. intros ->. apply Hclone. congruence. }
    destruct r0 as [[]|e].
    + destruct (run_targets purify targets merged req rest st0) as [[r1 st1] tr1] eqn:E.
      injection Hrun as _ <- _.
      destruct (IH _ _ _ _ E t Hrest) as [H1 H2]. destruct Hfirst as [H3 H4].
      split; [congruence|]. intros Hb. rewrite (H2 Hb). by apply H4.
    + by injection Hrun as _ <- _.
Qed.

Lemma run_target_cases purify targets merged req (t : RequestTarget) (st : stored) :
  (requested_input targets t req = None
   /\ exists log, run_target purify targets merged req t st = (Normal tt, st, log))
  \/ (exists entries out tr log,
        requested_input targets t req = Some entries
        /\ sanitizeTarget purify entries merged = (Normal out, tr)
        /\ run_target purify targets merged req t st
           = (Normal tt, store_target t out st, log))
  \/ (exists entries e tr log,
        requested_input targets t req = Some entries
        /\ sanitizeTarget purify entries merged = (Throw e, tr)
        /\ run_target purify targets merged req t st = (Throw e, st, log)).
Proof.
  rewrite run_target_eq.
  destruct (requested_input targets t req) as [entries|]; [|left; split; [done|by eexists]].
  right. destruct (sanitizeTarget purify entries merged) as [[out|e] tr] eqn:E.
  - left. by eexists _, _, _, _.
  - right. by eexists _, _, _, _.
Qed.

Lemma store_target_slot (t : RequestTarget) (out : list (string * jsvalue)) (st : stored) :
  slot t (store_target t out st) = Some out
  /\ (t = Body -> cloneBody (store_target t out st) = Some out).
Proof. split; [by destruct t | by intros ->]. Qed.

(** How a run of target blocks ends: normally, with every target of the
    list stored; or at the first block whose [sanitizeTarget] throws, with
    the targets before it stored and that one and the later ones left as
    they were. *)
Lemma run_targets_outcome purify targets merged req (ts : list RequestTarget) :
  NoDup ts ->
  forall st r st' tr,
    run_targets purify targets merged req ts st = (r, st', tr) ->
    match r with
    | Normal _ => forall t, In t ts -> stored_in purify targets merged req t st'
    | Throw e =>
        exists before t after entries tr_t,
          ts = before ++ t :: after
          /\ requested_input targets t req = Some entries
          /\ sanitizeTarget purify entries merged = (Throw e, tr_t)
          /\ (forall t', In t' before -> stored_in purify targets merged req t' st')
          /\ (forall t', In t' (t :: after) ->
                slot t' st' = slot t' st /\ (t' = Body -> cloneBody st' = cloneBody st))
    end.
Proof.
  induction ts as [|t0 rest IH]; intros Hnodup st r st' tr Hrun.
  - injection Hrun as <- _ _. by intros t [].
  - apply NoDup_cons in Hnodup as [Hfresh Hnodup].
    rewrite list_elem_of_In in Hfresh.
    simpl in Hrun. unfold and_then in Hrun.
    destruct (run_target_spec purify targets merged req t0 st)
      as (r0 & st0 & tr0 & Heq & _ & Hslots & Hclone & _).
    destruct (run_target_cases purify targets merged req t0 st)
      as [(Hnone & log & Hcase)
         |[(entries & out & tr_t & log & Hsome & Hout & Hcase)
          |(entries & e & tr_t & log & Hsome & Hout & Hcase)]];
      rewrite Hcase in Hrun, Heq; injection Heq as <- <- <-.
    + destruct (run_targets purify targets merged req rest st) as [[r1 st1] tr1] eqn:E.
      injection Hrun as <- <- _. specialize (IH Hnodup _ _ _ _ E).
      destruct r1 as [[]|e].
      * intros t [<-|Hin]; [|by apply IH]. intros entries Hsome. congruence.
      * destruct IH as (before & t & after & entries & tr_t & -> & Hsome & Hthrow & Hb & Ha).
        exists (t0 :: before), t, after, entries, tr_t.
        split; [done|]. split; [done|]. split; [done|]. split; [|done].
        intros t' [<-|Hin]; [|by apply Hb]. intros entries' Hsome'. congruence.
    + destruct (run_targets purify targets merged req rest (store_target t0 out st))
        as [[r1 st1] tr1] eqn:E.
      injection Hrun as <- <- _.
      destruct (run_targets_untouched _ _ _ _ _ _ _ _ _ E t0 Hfresh) as [Hs Hc].
      destruct (store_target_slot t0 out st) as [Hs0 Hc0].
      assert (Hfirst : stored_in purify targets merged req t0 st1).
      { intros entries' Hsome'. exists out, tr_t.
        split; [congruence|]. split; [congruence|].
        intros Hb. rewrite (Hc Hb). by apply Hc0. }
      specialize (IH Hnodup _ _ _ _ E).
      destruct r1 as [[]|e].
      * intros t [<-|Hin]; [done | by apply IH].
      * destruct IH as (before & t & after & entries' & tr' & -> & Hsome' & Hthrow & Hb & Ha).
        exists (t0 :: before), t, after, entries', tr'.
        split; [done|]. split; [done|]. split; [done|]. split.
        { intros t' [<-|Hin]; [done | by apply Hb]. }
        intros t' Hin. destruct (Ha t' Hin) as [H1 H2].
        assert (Hne : t' <> t0).
        { intros ->. apply Hfresh, in_app_iff. by right. }
        split; [rewrite H1; by apply Hslots|].
        intros ->. rewrite (H2 eq_refl). apply Hclone. congruence.
    + injection Hrun as <- <- _.
      exists [], t0, rest, entries, tr_t.
      split; [done|]. split; [done|]. split; [done|]. split; [by intros t' []|].
      by intros t' _.
Qed.

Lemma target_order_NoDup : NoDup target_order.
Proof. by apply (bool_decide_unpack _). Qed.

Lemma target_order_all (t : RequestTarget) : In t target_order.
Proof. destruct t; simpl; tauto. Qed.

Lemma sanitizer_returns purify (o : SanitizerOptions) (req : request)
    (st final : stored) (tr : list effect) :
  safe (mergedOptions o) ->
  sanitizer purify o req st = (Normal tt, final, tr) ->
  exists before,
    run_targets purify (mergedTargets o) (mergedOptions o) req target_order st
    = (Normal tt, final, before)
    /\ tr = before ++ [Next].
Proof.
  intros Hsafe. unfold sanitizer. rewrite <- sanitize_requested_run_targets.
  destruct (sanitize_requested_ok purify (mergedTargets o) (mergedOptions o) req st)
    as (r & st1 & tr1 & -> & _ & _ & _ & Hthrow).
  destruct r as [[]|e].
  - intros [= <- <-]. by exists tr1.
  - destruct (Hthrow e eq_refl) as ((message & ->) & Hflag). cbn [as_Error].
    assert (Hstrict : throwOnError (mergedOptions o) = true)
      by (destruct Hsafe; [done | by apply Hflag]).
    by rewrite Hstrict.
Qed.


(** ** What the handler stores *)

(** Without the condition on what custom functions throw: the query fails
    with what [String()] cannot convert, [sanitizeTarget] rejects although
    [throwOnError] is off, the [catch] block of the handler reports it to
    [onError] under the name ["middleware"], and the handler returns with
    the query not stored. *)
Example handler_catch_reached :
  sanitizer demo_purify unconvertible_options failing_query_request fresh
  = (Normal tt,
     {| sanitizedBody := Some [("name", VStr "John")]; sanitizedQuery := None;
        sanitizedParams := None; sanitizedHeaders := None;
        cloneBody := Some [("name", VStr "John")] |},
     [Observer (EvSanitize "name" (VStr "<b>John</b>") (VStr "John"));
      Observer (EvError "Cannot convert object to primitive value" "middleware");
      Next]).
Proof. vm_compute. reflexivity. Qed.

(** X16: when the handler returns, [throwOnError] being on or no custom
    function throwing a value that [String()] cannot convert, every target
    that is listed in [targets] and present on the request has been
    sanitized on its own with the merged options, and the result is what its
    [__sanitized...] slot holds; for the body it is also what the overridden
    [clone] carries. *)
Theorem requested_targets_stored purify (o : SanitizerOptions) (req : request)
    (st final : stored) (tr : list effect) :
  throwOnError (mergedOptions o) = true \/ throws_catchable (mergedOptions o) ->
  sanitizer purify o req st = (Normal tt, final, tr) ->
  forall t entries,
    requested_input (mergedTargets o) t req = Some entries ->
    exists out tr_t,
      sanitizeTarget purify entries (mergedOptions o) = (Normal out, tr_t)
      /\ slot t final = Some out
      /\ (t = Body -> cloneBody final = Some out).
Proof.
  intros Hsafe (before & Hrun & _)%sanitizer_returns t entries Hsome; [|done].
  pose proof (run_targets_outcome purify (mergedTargets o) (mergedOptions o) req
                target_order target_order_NoDup _ _ _ _ Hrun) as Hall.
  simpl in Hall. exact (Hall t (target_order_all t) entries Hsome).
Qed.

Lemma requested_targets_stored_witness :
  exists out tr_t,
    sanitizeTarget demo_purify [("q", VStr "<i>x</i>")] (mergedOptions (failing_options false))
    = (Normal out, tr_t)
    /\ slot Query {| sanitizedBody := Some [("name", VStr "John")];
                     sanitizedQuery := Some [("q", VStr "x")];
                     sanitizedParams := None; sanitizedHeaders := None;
                     cloneBody := Some [("name", VStr "John")] |} = Some out
    /\ (Query = Body ->
        cloneBody {| sanitizedBody := Some [("name", VStr "John")];
                     sanitizedQuery := Some [("q", VStr "x")];
                     sanitizedParams := None; sanitizedHeaders := None;
                     cloneBody := Some [("name", VStr "John")] |} = Some out).
Proof.
  apply (requested_targets_stored demo_purify (failing_options false) json_request fresh _
           [Observer (EvSanitize "name" (VStr "<b>John</b>") (VStr "John"));
            Observer (EvSanitize "q" (VStr "<i>x</i>") (VStr "x")); Next]).
  - right. exact (failing_options_catchable false).
  - vm_compute. reflexivity.
  - reflexivity.
Defined.

Example getters_after_json_request :
  let final := (sanitizer demo_purify (failing_options false) json_request fresh).1.2 in
  getSanitizedBody final = Some [("name", VStr "John")]
  /\ getSanitizedQuery final = Some [("q", VStr "x")]
  /\ getSanitizedParams final = None
  /\ getSanitizedHeaders final = None.
Proof. vm_compute. done. Qed.

(** ** The effects of a run, in order *)

Lemma run_target_effects purify targets merged req (t : RequestTarget)
    (st st' : stored) (tr : list effect) :
  run_target purify targets merged req t st = (Normal tt, st', tr) ->
  tr = (if decide (t = Body) then body_log targets req else [])
       ++ target_effects purify targets merged req t.
Proof.
  rewrite run_target_eq. unfold target_effects.
  destruct (requested_input targets t req) as [entries|].
  - destruct (sanitizeTarget purify entries merged) as [[out|e] tr_t]; [|done].
    by intros [= _ <-].
  - intros [= _ <-]. by rewrite app_nil_r.
Qed.

(** X17: when the handler returns, [throwOnError] being on or no custom
    function throwing a value that [String()] cannot convert, its effects
    are, in this order: what [console.error] received while the body was
    read, the observer calls of sanitizing the body, the query, the
    parameters and the headers, and the call of [next]; the [onError] call of
    the handler's own [catch] block is not among them. *)
Theorem effects_in_order purify (o : SanitizerOptions) (req : request)
    (st final : stored) (tr : list effect) :
  throwOnError (mergedOptions o) = true \/ throws_catchable (mergedOptions o) ->
  sanitizer purify o req st = (Normal tt, final, tr) ->
  tr = body_log (mergedTargets o) req
       ++ target_effects purify (mergedTargets o) (mergedOptions o) req Body
       ++ target_effects purify (mergedTargets o) (mergedOptions o) req Query
       ++ target_effects purify (mergedTargets o) (mergedOptions o) req Params
       ++ target_effects purify (mergedTargets o) (mergedOptions o) req Headers
       ++ [Next].
Proof.
  intros Hsafe (before & Hrun & ->)%sanitizer_returns; [|done].
  simpl in Hrun. unfold and_then, no_op in Hrun.
  destruct (run_target purify _ _ req Body st) as [[[[]|?] st1] tr1] eqn:E1; [|done].
  destruct (run_target purify _ _ req Query st1) as [[[[]|?] st2] tr2] eqn:E2; [|done].
  destruct (run_target purify _ _ req Params st2) as [[[[]|?] st3] tr3] eqn:E3; [|done].
  destruct (run_target purify _ _ req Headers st3) as [[[[]|?] st4] tr4] eqn:E4; [|done].
  injection Hrun as _ <-.
  apply run_target_effects in E1, E2, E3, E4. subst tr1 tr2 tr3 tr4.
  simpl. rewrite app_nil_r. by rewrite <- !app_assoc.
Qed.

Lemma effects_in_order_witness :
  [ConsoleError (ThrownError "Unexpected end of JSON input");
   Observer (EvSanitize "q" (VStr "<i>x</i>") (VStr "x")); Next]
  = body_log (mergedTargets (failing_options false)) broken_json_request
    ++ target_effects demo_purify (mergedTargets (failing_options false))
         (mergedOptions (failing_options false)) broken_json_request Body
    ++ target_effects demo_purify (mergedTargets (failing_options false))
         (mergedOptions (failing_options false)) broken_json_request Query
    ++ target_effects demo_purify (mergedTargets (failing_options false))
         (mergedOptions (failing_options false)) broken_json_request Params
    ++ target_effects demo_purify (mergedTargets (failing_options false))
         (mergedOptions (failing_options false)) broken_json_request Headers
    ++ [Next].
Proof.
  apply (effects_in_order demo_purify (failing_options false) broken_json_request fresh
           {| sanitizedBody := None; sanitizedQuery := Some [("q", VStr "x")];
              sanitizedParams := None; sanitizedHeaders := None; cloneBody := None |}).
  - right. exact (failing_options_catchable false).
  - vm_compute. reflexivity.
Defined.



(** ** Rejection *)



Example lenient_run_of_the_failing_request :
  sanitizer demo_purify (failing_options false) failing_query_request fresh
  = (Normal tt,
     {| sanitizedBody := Some [("name", VStr "John")];
        sanitizedQuery := Some [("test", VStr "value")];
        sanitizedParams := None; sanitizedHeaders := None;
        cloneBody := Some [("name", VStr "John")] |},
     [Observer (EvSanitize "name" (VStr "<b>John</b>") (VStr "John"));
      Observer (EvError "Test error" "test"); Next]).
Proof. vm_compute. reflexivity. Qed.

(** ** A body that cannot be read *)

Lemma mergedOptions_set_targets (targets : list RequestTarget) (o : SanitizerOptions) :
  mergedOptions (set_targets targets o) = mergedOptions o
  /\ mergedTargets (set_targets targets o) = targets.
Proof. done. Qed.

Lemma run_targets_ext purify targets1 targets2 merged req (ts : list RequestTarget) :
  (forall t, In t ts -> targets_include targets1 t = targets_include targets2 t) ->
  (In Body ts -> targets_include targets1 Body = targets_include targets2 Body) ->
  forall st,
    run_targets purify targets1 merged req ts st
    = run_targets purify targets2 merged req ts st.
Proof.
  induction ts as [|t rest IH]; intros Hsame Hbody st; [done|].
  simpl. unfold and_then.
  rewrite (run_target_ext purify targets1 targets2 merged req t);
    [|apply Hsame; by left | intros ->; apply Hbody; by left].
  destruct (run_target purify targets2 merged req t st) as [[[[]|?] st1] tr1]; [|done].
  rewrite IH; [done| |].
  - intros t' Hin. apply Hsame. by right.
  - intros Hin. apply Hbody. by right.
Qed.

(** X19: a request whose body is not read as a JSON plain object (the
    content type does not name JSON, [c.req.json()] throws, or the parsed
    value is no plain object) is handled exactly like one of a handler whose
    [targets] do not list the body, but for what [console.error] receives;
    in particular the failed parse is neither reported to [onError] nor a
    reason to reject, whatever [throwOnError] says. *)
Theorem unread_body_is_ignored purify (o : SanitizerOptions) (req : request) (st : stored) :
  body_entries req = None ->
  sanitizer purify o req st
  = let '(r, final, tr) :=
      sanitizer purify (set_targets (without_body (mergedTargets o)) o) req st in
    (r, final, body_log (mergedTargets o) req ++ tr).
Proof.
  intros Hbody. unfold sanitizer.
  destruct (mergedOptions_set_targets (without_body (mergedTargets o)) o) as [-> ->].
  rewrite !sanitize_requested_run_targets.
  change (run_targets purify ?ts ?m req target_order st)
    with (and_then (run_target purify ts m req Body)
            (run_targets purify ts m req [Query; Params; Headers]) st).
  unfold and_then. rewrite !run_target_eq.
  assert (Hnone : forall targets, requested_input targets Body req = None).
  { intros targets. unfold requested_input. simpl. rewrite Hbody.
    by destruct (targets_include _ _). }
  rewrite !Hnone. rewrite !decide_True by done.
  assert (Hlog : body_log (without_body (mergedTargets o)) req = []).
  { unfold body_log. rewrite targets_include_without_body. by rewrite decide_True. }
  rewrite Hlog.
  rewrite (run_targets_ext purify (without_body (mergedTargets o)) (mergedTargets o)
             (mergedOptions o) req [Query; Params; Headers]).
  - destruct (run_targets purify (mergedTargets o) (mergedOptions o) req
                [Query; Params; Headers] st) as [[[[]|e] st1] tr1]; simpl.
    + by rewrite app_assoc.
    + destruct (as_Error e); [|done].
      destruct (o_throwOnError o) as [[]|]; simpl; by rewrite ?app_assoc.
  - intros t Hin. rewrite targets_include_without_body.
    destruct (decide (t = Body)) as [->|]; [|done].
    simpl in Hin. by destruct Hin as [|[|[|[]]]].
  - simpl. by intros [|[|[|[]]]].
Qed.

Lemma unread_body_is_ignored_witness :
  sanitizer demo_purify (failing_options true) broken_json_request fresh
  = let '(r, final, tr) :=
      sanitizer demo_purify
        (set_targets (without_body (mergedTargets (failing_options true)))
           (failing_options true))
        broken_json_request fresh in
    (r, final, body_log (mergedTargets (failing_options true)) broken_json_request ++ tr).
Proof.
  apply (unread_body_is_ignored demo_purify (failing_options true) broken_json_request fresh).
  reflexivity.
Defined.

Example broken_json_under_throwOnError :
  sanitizer demo_purify (failing_options true) broken_json_request fresh
  = (Normal tt,
     {| sanitizedBody := None; sanitizedQuery := Some [("q", VStr "x")];
        sanitizedParams := None; sanitizedHeaders := None; cloneBody := None |},
     [ConsoleError (ThrownError "Unexpected end of JSON input");
      Observer (EvSanitize "q" (VStr "<i>x</i>") (VStr "x")); Next]).
Proof. vm_compute. reflexivity. Qed.

(** ** The [targets] option as a set *)

(** X20: the handler reads [targets] only through [includes]: two lists
    with the same members, in any order and with any repetitions, give the
    same handler, which always goes through body, query, params, headers in
    this order. *)
Theorem targets_order_irrelevant purify (o : SanitizerOptions)
    (targets : list RequestTarget) (req : request) (st : stored) :
  (forall t, targets_include targets t = targets_include (mergedTargets o) t) ->
  sanitizer purify (set_targets targets o) req st = sanitizer purify o req st.
Proof.
  intros Hsame. unfold sanitizer.
  destruct (mergedOptions_set_targets targets o) as [-> ->].
  rewrite !sanitize_requested_run_targets.
  by rewrite (run_targets_ext purify targets (mergedTargets o) (mergedOptions o) req
                target_order) by (intros; apply Hsame).
Qed.

Lemma targets_order_irrelevant_witness :
  sanitizer demo_purify (set_targets [Query; Body; Query] (failing_options false))
    json_request fresh
  = sanitizer demo_purify (failing_options false) json_request fresh.
Proof.
  apply (targets_order_irrelevant demo_purify (failing_options false) [Query; Body; Query]
           json_request fresh).
  intros t. destruct t; reflexivity.
Defined.
